(** * TextConvert Pro: conversion and analysis engine

    Shallow embedding of the pure text logic of
    [src/App.jsx] (the conversion tables and [handleConversion]) and of
    the [TextAnalysis] component (the [analysis] memo), together with
    the properties of that logic.

    Modelling conventions.
    - An ECMAScript string is the list of its UTF-16 code units
      ([jsstring := list N]); [text.length] is the length of that list.
    - Regular-expression literals are embedded as terms of [regex] and run
      by a backtracking matcher that follows the ECMAScript matcher
      (greedy quantifiers, ordered alternation, rejection of empty
      iterations); [replaceAll] and [split] follow
      [String.prototype.replace] (global flag) and
      [String.prototype.split].
    - [toLowerCase]/[toUpperCase] are the host's case conversion: the
      code points of the string are mapped with the tables of the
      Unicode Character Database ([Unicode.lowerTable],
      [Unicode.upperTable], the condition [Final_Sigma]) and encoded
      again, so a conversion can change the length of a string.
    - ECMAScript numbers that are not plain counts are IEEE 754 binary64
      values ([spec_float] with precision 53 and exponent bound 1024),
      computed with the correctly rounded operations of [SpecFloat]. *)

From Stdlib Require Import Ascii String.
From Stdlib Require Import List NArith ZArith Bool Arith Lia.
From Stdlib Require Import Floats.SpecFloat.
From Stdlib Require Import Sorting.Sorted Sorting.Permutation.
Import ListNotations.

Local Open Scope nat_scope.

(** ** Strings as sequences of UTF-16 code units *)

Definition codeUnit := N.
Definition jsstring := list codeUnit.

(** Code units of an ASCII literal. *)
Definition str (s : String.string) : jsstring :=
  map N_of_ascii (String.list_ascii_of_string s).
Arguments str s%_string.

Definition inRange (lo hi c : N) : bool := (lo <=? c)%N && (c <=? hi)%N.

(** [\s] of ECMAScript regular expressions, which is also the set that
    [String.prototype.trim] strips: WhiteSpace and LineTerminator. *)
Definition isWhiteSpace (c : codeUnit) : bool :=
  inRange 9 13 c || (c =? 32)%N || (c =? 160)%N || (c =? 5760)%N
  || inRange 8192 8202 c || (c =? 8232)%N || (c =? 8233)%N
  || (c =? 8239)%N || (c =? 8287)%N || (c =? 12288)%N || (c =? 65279)%N.

Definition isUpper (c : codeUnit) : bool := inRange 65 90 c.
Definition isLower (c : codeUnit) : bool := inRange 97 122 c.
Definition isDigit (c : codeUnit) : bool := inRange 48 57 c.

(** [\w] without the unicode and ignoreCase flags: [A-Za-z0-9_]. *)
Definition isWordChar (c : codeUnit) : bool :=
  isUpper c || isLower c || isDigit c || (c =? 95)%N.

(** [\S] *)
Definition isNonSpace (c : codeUnit) : bool := negb (isWhiteSpace c).

(** The case of the ASCII letters, code unit by code unit. *)
Definition lowerUnit (c : codeUnit) : codeUnit :=
  if isUpper c then (c + 32)%N else c.
Definition upperUnit (c : codeUnit) : codeUnit :=
  if isLower c then (c - 32)%N else c.

(** ** Code points *)

Definition isHighSurrogate (c : codeUnit) : bool := inRange 55296 56319 c.
Definition isLowSurrogate (c : codeUnit) : bool := inRange 56320 57343 c.
Definition isSurrogate (c : codeUnit) : bool := inRange 55296 57343 c.

(** The code points of a string, as the string iterator yields them: a
    high surrogate followed by a low one is one code point. *)
Fixpoint codePoints (s : jsstring) : list N :=
  match s with
  | [] => []
  | c :: s' =>
      match s' with
      | d :: s'' =>
          if isHighSurrogate c && isLowSurrogate d
          then (65536 + (c - 55296) * 1024 + (d - 56320))%N :: codePoints s''
          else c :: codePoints s'
      | [] => [c]
      end
  end.

(** [UTF16EncodeCodePoint] and [CodePointsToString].  Code points end at
    0x10FFFF; a larger number is no code point and is kept as it is. *)
Definition UTF16EncodeCodePoint (cp : N) : jsstring :=
  if (cp <=? 65535)%N then [cp]
  else if (cp <=? 1114111)%N
  then [((cp - 65536) / 1024 + 55296)%N; ((cp - 65536) mod 1024 + 56320)%N]
  else [cp].

Definition CodePointsToString (l : list N) : jsstring :=
  flat_map UTF16EncodeCodePoint l.

(** ** Case conversion of the host

    [String.prototype.toLowerCase] and [String.prototype.toUpperCase]
    convert the code points of the string with the locale-insensitive
    mappings of the Unicode Character Database (UnicodeData.txt and the
    unconditional and [Final_Sigma] entries of SpecialCasing.txt) and
    encode the result.  The tables are those of Unicode 14.0.0; case
    pairs are stable, so a later version differs only on code points
    that are unassigned here. *)

Module Unicode.

Definition codePoint := N.

(** Code points whose lower case mapping is not the code point itself. *)
Definition lowerTable : list (codePoint * list codePoint) := [
  (0x41, [0x61]); (0x42, [0x62]); (0x43, [0x63]); (0x44, [0x64]);
  (0x45, [0x65]); (0x46, [0x66]); (0x47, [0x67]); (0x48, [0x68]);
  (0x49, [0x69]); (0x4A, [0x6A]); (0x4B, [0x6B]); (0x4C, [0x6C]);
  (0x4D, [0x6D]); (0x4E, [0x6E]); (0x4F, [0x6F]); (0x50, [0x70]);
  (0x51, [0x71]); (0x52, [0x72]); (0x53, [0x73]); (0x54, [0x74]);
  (0x55, [0x75]); (0x56, [0x76]); (0x57, [0x77]); (0x58, [0x78]);
  (0x59, [0x79]); (0x5A, [0x7A]); (0xC0, [0xE0]); (0xC1, [0xE1]);
  (0xC2, [0xE2]); (0xC3, [0xE3]); (0xC4, [0xE4]); (0xC5, [0xE5]);
  (0xC6, [0xE6]); (0xC7, [0xE7]); (0xC8, [0xE8]); (0xC9, [0xE9]);
  (0xCA, [0xEA]); (0xCB, [0xEB]); (0xCC, [0xEC]); (0xCD, [0xED]);
  (0xCE, [0xEE]); (0xCF, [0xEF]); (0xD0, [0xF0]); (0xD1, [0xF1]);
  (0xD2, [0xF2]); (0xD3, [0xF3]); (0xD4, [0xF4]); (0xD5, [0xF5]);
  (0xD6, [0xF6]); (0xD8, [0xF8]); (0xD9, [0xF9]); (0xDA, [0xFA]);
  (0xDB, [0xFB]); (0xDC, [0xFC]); (0xDD, [0xFD]); (0xDE, [0xFE]);
  (0x100, [0x101]); (0x102, [0x103]); (0x104, [0x105]); (0x106, [0x107]);
  (0x108, [0x109]); (0x10A, [0x10B]); (0x10C, [0x10D]); (0x10E, [0x10F]);
  (0x110, [0x111]); (0x112, [0x113]); (0x114, [0x115]); (0x116, [0x117]);
  (0x118, [0x119]); (0x11A, [0x11B]); (0x11C, [0x11D]); (0x11E, [0x11F]);
  (0x120, [0x121]); (0x122, [0x123]); (0x124, [0x125]); (0x126, [0x127]);
  (0x128, [0x129]); (0x12A, [0x12B]); (0x12C, [0x12D]); (0x12E, [0x12F]);
  (0x130, [0x69; 0x307]); (0x132, [0x133]); (0x134, [0x135]);
  (0x136, [0x137]); (0x139, [0x13A]); (0x13B, [0x13C]); (0x13D, [0x13E]);
  (0x13F, [0x140]); (0x141, [0x142]); (0x143, [0x144]); (0x145, [0x146]);
  (0x147, [0x148]); (0x14A, [0x14B]); (0x14C, [0x14D]); (0x14E, [0x14F]);
  (0x150, [0x151]); (0x152, [0x153]); (0x154, [0x155]); (0x156, [0x157]);
  (0x158, [0x159]); (0x15A, [0x15B]); (0x15C, [0x15D]); (0x15E, [0x15F]);
  (0x160, [0x161]); (0x162, [0x163]); (0x164, [0x165]); (0x166, [0x167]);
  (0x168, [0x169]); (0x16A, [0x16B]); (0x16C, [0x16D]); (0x16E, [0x16F]);
  (0x170, [0x171]); (0x172, [0x173]); (0x174, [0x175]); (0x176, [0x177]);
  (0x178, [0xFF]); (0x179, [0x17A]); (0x17B, [0x17C]); (0x17D, [0x17E]);
  (0x181, [0x253]); (0x182, [0x183]); (0x184, [0x185]); (0x186, [0x254]);
  (0x187, [0x188]); (0x189, [0x256]); (0x18A, [0x257]); (0x18B, [0x18C]);
  (0x18E, [0x1DD]); (0x18F, [0x259]); (0x190, [0x25B]); (0x191, [0x192]);
  (0x193, [0x260]); (0x194, [0x263]); (0x196, [0x269]); (0x197, [0x268]);
  (0x198, [0x199]); (0x19C, [0x26F]); (0x19D, [0x272]); (0x19F, [0x275]);
  (0x1A0, [0x1A1]); (0x1A2, [0x1A3]); (0x1A4, [0x1A5]); (0x1A6, [0x280]);
  (0x1A7, [0x1A8]); (0x1A9, [0x283]); (0x1AC, [0x1AD]); (0x1AE, [0x288]);
  (0x1AF, [0x1B0]); (0x1B1, [0x28A]); (0x1B2, [0x28B]); (0x1B3, [0x1B4]);
  (0x1B5, [0x1B6]); (0x1B7, [0x292]); (0x1B8, [0x1B9]); (0x1BC, [0x1BD]);
  (0x1C4, [0x1C6]); (0x1C5, [0x1C6]); (0x1C7, [0x1C9]); (0x1C8, [0x1C9]);
  (0x1CA, [0x1CC]); (0x1CB, [0x1CC]); (0x1CD, [0x1CE]); (0x1CF, [0x1D0]);
  (0x1D1, [0x1D2]); (0x1D3, [0x1D4]); (0x1D5, [0x1D6]); (0x1D7, [0x1D8]);
  (0x1D9, [0x1DA]); (0x1DB, [0x1DC]); (0x1DE, [0x1DF]); (0x1E0, [0x1E1]);
  (0x1E2, [0x1E3]); (0x1E4, [0x1E5]); (0x1E6, [0x1E7]); (0x1E8, [0x1E9]);
  (0x1EA, [0x1EB]); (0x1EC, [0x1ED]); (0x1EE, [0x1EF]); (0x1F1, [0x1F3]);
  (0x1F2, [0x1F3]); (0x1F4, [0x1F5]); (0x1F6, [0x195]); (0x1F7, [0x1BF]);
  (0x1F8, [0x1F9]); (0x1FA, [0x1FB]); (0x1FC, [0x1FD]); (0x1FE, [0x1FF]);
  (0x200, [0x201]); (0x202, [0x203]); (0x204, [0x205]); (0x206, [0x207]);
  (0x208, [0x209]); (0x20A, [0x20B]); (0x20C, [0x20D]); (0x20E, [0x20F]);
  (0x210, [0x211]); (0x212, [0x213]); (0x214, [0x215]); (0x216, [0x217]);
  (0x218, [0x219]); (0x21A, [0x21B]); (0x21C, [0x21D]); (0x21E, [0x21F]);
  (0x220, [0x19E]); (0x222, [0x223]); (0x224, [0x225]); (0x226, [0x227]);
  (0x228, [0x229]); (0x22A, [0x22B]); (0x22C, [0x22D]); (0x22E, [0x22F]);
  (0x230, [0x231]); (0x232, [0x233]); (0x23A, [0x2C65]); (0x23B, [0x23C]);
  (0x23D, [0x19A]); (0x23E, [0x2C66]); (0x241, [0x242]); (0x243, [0x180]);
  (0x244, [0x289]); (0x245, [0x28C]); (0x246, [0x247]); (0x248, [0x249]);
  (0x24A, [0x24B]); (0x24C, [0x24D]); (0x24E, [0x24F]); (0x370, [0x371]);
  (0x372, [0x373]); (0x376, [0x377]); (0x37F, [0x3F3]); (0x386, [0x3AC]);
  (0x388, [0x3AD]); (0x389, [0x3AE]); (0x38A, [0x3AF]); (0x38C, [0x3CC]);
  (0x38E, [0x3CD]); (0x38F, [0x3CE]); (0x391, [0x3B1]); (0x392, [0x3B2]);
  (0x393, [0x3B3]); (0x394, [0x3B4]); (0x395, [0x3B5]); (0x396, [0x3B6]);
  (0x397, [0x3B7]); (0x398, [0x3B8]); (0x399, [0x3B9]); (0x39A, [0x3BA]);
  (0x39B, [0x3BB]); (0x39C, [0x3BC]); (0x39D, [0x3BD]); (0x39E, [0x3BE]);
  (0x39F, [0x3BF]); (0x3A0, [0x3C0]); (0x3A1, [0x3C1]); (0x3A3, [0x3C3]);
  (0x3A4, [0x3C4]); (0x3A5, [0x3C5]); (0x3A6, [0x3C6]); (0x3A7, [0x3C7]);
  (0x3A8, [0x3C8]); (0x3A9, [0x3C9]); (0x3AA, [0x3CA]); (0x3AB, [0x3CB]);
  (0x3CF, [0x3D7]); (0x3D8, [0x3D9]); (0x3DA, [0x3DB]); (0x3DC, [0x3DD]);
  (0x3DE, [0x3DF]); (0x3E0, [0x3E1]); (0x3E2, [0x3E3]); (0x3E4, [0x3E5]);
  (0x3E6, [0x3E7]); (0x3E8, [0x3E9]); (0x3EA, [0x3EB]); (0x3EC, [0x3ED]);
  (0x3EE, [0x3EF]); (0x3F4, [0x3B8]); (0x3F7, [0x3F8]); (0x3F9, [0x3F2]);
  (0x3FA, [0x3FB]); (0x3FD, [0x37B]); (0x3FE, [0x37C]); (0x3FF, [0x37D]);
  (0x400, [0x450]); (0x401, [0x451]); (0x402, [0x452]); (0x403, [0x453]);
  (0x404, [0x454]); (0x405, [0x455]); (0x406, [0x456]); (0x407, [0x457]);
  (0x408, [0x458]); (0x409, [0x459]); (0x40A, [0x45A]); (0x40B, [0x45B]);
  (0x40C, [0x45C]); (0x40D, [0x45D]); (0x40E, [0x45E]); (0x40F, [0x45F]);
  (0x410, [0x430]); (0x411, [0x431]); (0x412, [0x432]); (0x413, [0x433]);
  (0x414, [0x434]); (0x415, [0x435]); (0x416, [0x436]); (0x417, [0x437]);
  (0x418, [0x438]); (0x419, [0x439]); (0x41A, [0x43A]); (0x41B, [0x43B]);
  (0x41C, [0x43C]); (0x41D, [0x43D]); (0x41E, [0x43E]); (0x41F, [0x43F]);
  (0x420, [0x440]); (0x421, [0x441]); (0x422, [0x442]); (0x423, [0x443]);
  (0x424, [0x444]); (0x425, [0x445]); (0x426, [0x446]); (0x427, [0x447]);
  (0x428, [0x448]); (0x429, [0x449]); (0x42A, [0x44A]); (0x42B, [0x44B]);
  (0x42C, [0x44C]); (0x42D, [0x44D]); (0x42E, [0x44E]); (0x42F, [0x44F]);
  (0x460, [0x461]); (0x462, [0x463]); (0x464, [0x465]); (0x466, [0x467]);
  (0x468, [0x469]); (0x46A, [0x46B]); (0x46C, [0x46D]); (0x46E, [0x46F]);
  (0x470, [0x471]); (0x472, [0x473]); (0x474, [0x475]); (0x476, [0x477]);
  (0x478, [0x479]); (0x47A, [0x47B]); (0x47C, [0x47D]); (0x47E, [0x47F]);
  (0x480, [0x481]); (0x48A, [0x48B]); (0x48C, [0x48D]); (0x48E, [0x48F]);
  (0x490, [0x491]); (0x492, [0x493]); (0x494, [0x495]); (0x496, [0x497]);
  (0x498, [0x499]); (0x49A, [0x49B]); (0x49C, [0x49D]); (0x49E, [0x49F]);
  (0x4A0, [0x4A1]); (0x4A2, [0x4A3]); (0x4A4, [0x4A5]); (0x4A6, [0x4A7]);
  (0x4A8, [0x4A9]); (0x4AA, [0x4AB]); (0x4AC, [0x4AD]); (0x4AE, [0x4AF]);
  (0x4B0, [0x4B1]); (0x4B2, [0x4B3]); (0x4B4, [0x4B5]); (0x4B6, [0x4B7]);
  (0x4B8, [0x4B9]); (0x4BA, [0x4BB]); (0x4BC, [0x4BD]); (0x4BE, [0x4BF]);
  (0x4C0, [0x4CF]); (0x4C1, [0x4C2]); (0x4C3, [0x4C4]); (0x4C5, [0x4C6]);
  (0x4C7, [0x4C8]); (0x4C9, [0x4CA]); (0x4CB, [0x4CC]); (0x4CD, [0x4CE]);
  (0x4D0, [0x4D1]); (0x4D2, [0x4D3]); (0x4D4, [0x4D5]); (0x4D6, [0x4D7]);
  (0x4D8, [0x4D9]); (0x4DA, [0x4DB]); (0x4DC, [0x4DD]); (0x4DE, [0x4DF]);
  (0x4E0, [0x4E1]); (0x4E2, [0x4E3]); (0x4E4, [0x4E5]); (0x4E6, [0x4E7]);
  (0x4E8, [0x4E9]); (0x4EA, [0x4EB]); (0x4EC, [0x4ED]); (0x4EE, [0x4EF]);
  (0x4F0, [0x4F1]); (0x4F2, [0x4F3]); (0x4F4, [0x4F5]); (0x4F6, [0x4F7]);
  (0x4F8, [0x4F9]); (0x4FA, [0x4FB]); (0x4FC, [0x4FD]); (0x4FE, [0x4FF]);
  (0x500, [0x501]); (0x502, [0x503]); (0x504, [0x505]); (0x506, [0x507]);
  (0x508, [0x509]); (0x50A, [0x50B]); (0x50C, [0x50D]); (0x50E, [0x50F]);
  (0x510, [0x511]); (0x512, [0x513]); (0x514, [0x515]); (0x516, [0x517]);
  (0x518, [0x519]); (0x51A, [0x51B]); (0x51C, [0x51D]); (0x51E, [0x51F]);
  (0x520, [0x521]); (0x522, [0x523]); (0x524, [0x525]); (0x526, [0x527]);
  (0x528, [0x529]); (0x52A, [0x52B]); (0x52C, [0x52D]); (0x52E, [0x52F]);
  (0x531, [0x561]); (0x532, [0x562]); (0x533, [0x563]); (0x534, [0x564]);
  (0x535, [0x565]); (0x536, [0x566]); (0x537, [0x567]); (0x538, [0x568]);
  (0x539, [0x569]); (0x53A, [0x56A]); (0x53B, [0x56B]); (0x53C, [0x56C]);
  (0x53D, [0x56D]); (0x53E, [0x56E]); (0x53F, [0x56F]); (0x540, [0x570]);
  (0x541, [0x571]); (0x542, [0x572]); (0x543, [0x573]); (0x544, [0x574]);
  (0x545, [0x575]); (0x546, [0x576]); (0x547, [0x577]); (0x548, [0x578]);
  (0x549, [0x579]); (0x54A, [0x57A]); (0x54B, [0x57B]); (0x54C, [0x57C]);
  (0x54D, [0x57D]); (0x54E, [0x57E]); (0x54F, [0x57F]); (0x550, [0x580]);
  (0x551, [0x581]); (0x552, [0x582]); (0x553, [0x583]); (0x554, [0x584]);
  (0x555, [0x585]); (0x556, [0x586]); (0x10A0, [0x2D00]);
  (0x10A1, [0x2D01]); (0x10A2, [0x2D02]); (0x10A3, [0x2D03]);
  (0x10A4, [0x2D04]); (0x10A5, [0x2D05]); (0x10A6, [0x2D06]);
  (0x10A7, [0x2D07]); (0x10A8, [0x2D08]); (0x10A9, [0x2D09]);
  (0x10AA, [0x2D0A]); (0x10AB, [0x2D0B]); (0x10AC, [0x2D0C]);
  (0x10AD, [0x2D0D]); (0x10AE, [0x2D0E]); (0x10AF, [0x2D0F]);
  (0x10B0, [0x2D10]); (0x10B1, [0x2D11]); (0x10B2, [0x2D12]);
  (0x10B3, [0x2D13]); (0x10B4, [0x2D14]); (0x10B5, [0x2D15]);
  (0x10B6, [0x2D16]); (0x10B7, [0x2D17]); (0x10B8, [0x2D18]);
  (0x10B9, [0x2D19]); (0x10BA, [0x2D1A]); (0x10BB, [0x2D1B]);
  (0x10BC, [0x2D1C]); (0x10BD, [0x2D1D]); (0x10BE, [0x2D1E]);
  (0x10BF, [0x2D1F]); (0x10C0, [0x2D20]); (0x10C1, [0x2D21]);
  (0x10C2, [0x2D22]); (0x10C3, [0x2D23]); (0x10C4, [0x2D24]);
  (0x10C5, [0x2D25]); (0x10C7, [0x2D27]); (0x10CD, [0x2D2D]);
  (0x13A0, [0xAB70]); (0x13A1, [0xAB71]); (0x13A2, [0xAB72]);
  (0x13A3, [0xAB73]); (0x13A4, [0xAB74]); (0x13A5, [0xAB75]);
  (0x13A6, [0xAB76]); (0x13A7, [0xAB77]); (0x13A8, [0xAB78]);
  (0x13A9, [0xAB79]); (0x13AA, [0xAB7A]); (0x13AB, [0xAB7B]);
  (0x13AC, [0xAB7C]); (0x13AD, [0xAB7D]); (0x13AE, [0xAB7E]);
  (0x13AF, [0xAB7F]); (0x13B0, [0xAB80]); (0x13B1, [0xAB81]);
  (0x13B2, [0xAB82]); (0x13B3, [0xAB83]); (0x13B4, [0xAB84]);
  (0x13B5, [0xAB85]); (0x13B6, [0xAB86]); (0x13B7, [0xAB87]);
  (0x13B8, [0xAB88]); (0x13B9, [0xAB89]); (0x13BA, [0xAB8A]);
  (0x13BB, [0xAB8B]); (0x13BC, [0xAB8C]); (0x13BD, [0xAB8D]);
  (0x13BE, [0xAB8E]); (0x13BF, [0xAB8F]); (0x13C0, [0xAB90]);
  (0x13C1, [0xAB91]); (0x13C2, [0xAB92]); (0x13C3, [0xAB93]);
  (0x13C4, [0xAB94]); (0x13C5, [0xAB95]); (0x13C6, [0xAB96]);
  (0x13C7, [0xAB97]); (0x13C8, [0xAB98]); (0x13C9, [0xAB99]);
  (0x13CA, [0xAB9A]); (0x13CB, [0xAB9B]); (0x13CC, [0xAB9C]);
  (0x13CD, [0xAB9D]); (0x13CE, [0xAB9E]); (0x13CF, [0xAB9F]);
  (0x13D0, [0xABA0]); (0x13D1, [0xABA1]); (0x13D2, [0xABA2]);
  (0x13D3, [0xABA3]); (0x13D4, [0xABA4]); (0x13D5, [0xABA5]);
  (0x13D6, [0xABA6]); (0x13D7, [0xABA7]); (0x13D8, [0xABA8]);
  (0x13D9, [0xABA9]); (0x13DA, [0xABAA]); (0x13DB, [0xABAB]);
  (0x13DC, [0xABAC]); (0x13DD, [0xABAD]); (0x13DE, [0xABAE]);
  (0x13DF, [0xABAF]); (0x13E0, [0xABB0]); (0x13E1, [0xABB1]);
  (0x13E2, [0xABB2]); (0x13E3, [0xABB3]); (0x13E4, [0xABB4]);
  (0x13E5, [0xABB5]); (0x13E6, [0xABB6]); (0x13E7, [0xABB7]);
  (0x13E8, [0xABB8]); (0x13E9, [0xABB9]); (0x13EA, [0xABBA]);
  (0x13EB, [0xABBB]); (0x13EC, [0xABBC]); (0x13ED, [0xABBD]);
  (0x13EE, [0xABBE]); (0x13EF, [0xABBF]); (0x13F0, [0x13F8]);
  (0x13F1, [0x13F9]); (0x13F2, [0x13FA]); (0x13F3, [0x13FB]);
  (0x13F4, [0x13FC]); (0x13F5, [0x13FD]); (0x1C90, [0x10D0]);
  (0x1C91, [0x10D1]); (0x1C92, [0x10D2]); (0x1C93, [0x10D3]);
  (0x1C94, [0x10D4]); (0x1C95, [0x10D5]); (0x1C96, [0x10D6]);
  (0x1C97, [0x10D7]); (0x1C98, [0x10D8]); (0x1C99, [0x10D9]);
  (0x1C9A, [0x10DA]); (0x1C9B, [0x10DB]); (0x1C9C, [0x10DC]);
  (0x1C9D, [0x10DD]); (0x1C9E, [0x10DE]); (0x1C9F, [0x10DF]);
  (0x1CA0, [0x10E0]); (0x1CA1, [0x10E1]); (0x1CA2, [0x10E2]);
  (0x1CA3, [0x10E3]); (0x1CA4, [0x10E4]); (0x1CA5, [0x10E5]);
  (0x1CA6, [0x10E6]); (0x1CA7, [0x10E7]); (0x1CA8, [0x10E8]);
  (0x1CA9, [0x10E9]); (0x1CAA, [0x10EA]); (0x1CAB, [0x10EB]);
  (0x1CAC, [0x10EC]); (0x1CAD, [0x10ED]); (0x1CAE, [0x10EE]);
  (0x1CAF, [0x10EF]); (0x1CB0, [0x10F0]); (0x1CB1, [0x10F1]);
  (0x1CB2, [0x10F2]); (0x1CB3, [0x10F3]); (0x1CB4, [0x10F4]);
  (0x1CB5, [0x10F5]); (0x1CB6, [0x10F6]); (0x1CB7, [0x10F7]);
  (0x1CB8, [0x10F8]); (0x1CB9, [0x10F9]); (0x1CBA, [0x10FA]);
  (0x1CBD, [0x10FD]); (0x1CBE, [0x10FE]); (0x1CBF, [0x10FF]);
  (0x1E00, [0x1E01]); (0x1E02, [0x1E03]); (0x1E04, [0x1E05]);
  (0x1E06, [0x1E07]); (0x1E08, [0x1E09]); (0x1E0A, [0x1E0B]);
  (0x1E0C, [0x1E0D]); (0x1E0E, [0x1E0F]); (0x1E10, [0x1E11]);
  (0x1E12, [0x1E13]); (0x1E14, [0x1E15]); (0x1E16, [0x1E17]);
  (0x1E18, [0x1E19]); (0x1E1A, [0x1E1B]); (0x1E1C, [0x1E1D]);
  (0x1E1E, [0x1E1F]); (0x1E20, [0x1E21]); (0x1E22, [0x1E23]);
  (0x1E24, [0x1E25]); (0x1E26, [0x1E27]); (0x1E28, [0x1E29]);
  (0x1E2A, [0x1E2B]); (0x1E2C, [0x1E2D]); (0x1E2E, [0x1E2F]);
  (0x1E30, [0x1E31]); (0x1E32, [0x1E33]); (0x1E34, [0x1E35]);
  (0x1E36, [0x1E37]); (0x1E38, [0x1E39]); (0x1E3A, [0x1E3B]);
  (0x1E3C, [0x1E3D]); (0x1E3E, [0x1E3F]); (0x1E40, [0x1E41]);
  (0x1E42, [0x1E43]); (0x1E44, [0x1E45]); (0x1E46, [0x1E47]);
  (0x1E48, [0x1E49]); (0x1E4A, [0x1E4B]); (0x1E4C, [0x1E4D]);
  (0x1E4E, [0x1E4F]); (0x1E50, [0x1E51]); (0x1E52, [0x1E53]);
  (0x1E54, [0x1E55]); (0x1E56, [0x1E57]); (0x1E58, [0x1E59]);
  (0x1E5A, [0x1E5B]); (0x1E5C, [0x1E5D]); (0x1E5E, [0x1E5F]);
  (0x1E60, [0x1E61]); (0x1E62, [0x1E63]); (0x1E64, [0x1E65]);
  (0x1E66, [0x1E67]); (0x1E68, [0x1E69]); (0x1E6A, [0x1E6B]);
  (0x1E6C, [0x1E6D]); (0x1E6E, [0x1E6F]); (0x1E70, [0x1E71]);
  (0x1E72, [0x1E73]); (0x1E74, [0x1E75]); (0x1E76, [0x1E77]);
  (0x1E78, [0x1E79]); (0x1E7A, [0x1E7B]); (0x1E7C, [0x1E7D]);
  (0x1E7E, [0x1E7F]); (0x1E80, [0x1E81]); (0x1E82, [0x1E83]);
  (0x1E84, [0x1E85]); (0x1E86, [0x1E87]); (0x1E88, [0x1E89]);
  (0x1E8A, [0x1E8B]); (0x1E8C, [0x1E8D]); (0x1E8E, [0x1E8F]);
  (0x1E90, [0x1E91]); (0x1E92, [0x1E93]); (0x1E94, [0x1E95]);
  (0x1E9E, [0xDF]); (0x1EA0, [0x1EA1]); (0x1EA2, [0x1EA3]);
  (0x1EA4, [0x1EA5]); (0x1EA6, [0x1EA7]); (0x1EA8, [0x1EA9]);
  (0x1EAA, [0x1EAB]); (0x1EAC, [0x1EAD]); (0x1EAE, [0x1EAF]);
  (0x1EB0, [0x1EB1]); (0x1EB2, [0x1EB3]); (0x1EB4, [0x1EB5]);
  (0x1EB6, [0x1EB7]); (0x1EB8, [0x1EB9]); (0x1EBA, [0x1EBB]);
  (0x1EBC, [0x1EBD]); (0x1EBE, [0x1EBF]); (0x1EC0, [0x1EC1]);
  (0x1EC2, [0x1EC3]); (0x1EC4, [0x1EC5]); (0x1EC6, [0x1EC7]);
  (0x1EC8, [0x1EC9]); (0x1ECA, [0x1ECB]); (0x1ECC, [0x1ECD]);
  (0x1ECE, [0x1ECF]); (0x1ED0, [0x1ED1]); (0x1ED2, [0x1ED3]);
  (0x1ED4, [0x1ED5]); (0x1ED6, [0x1ED7]); (0x1ED8, [0x1ED9]);
  (0x1EDA, [0x1EDB]); (0x1EDC, [0x1EDD]); (0x1EDE, [0x1EDF]);
  (0x1EE0, [0x1EE1]); (0x1EE2, [0x1EE3]); (0x1EE4, [0x1EE5]);
  (0x1EE6, [0x1EE7]); (0x1EE8, [0x1EE9]); (0x1EEA, [0x1EEB]);
  (0x1EEC, [0x1EED]); (0x1EEE, [0x1EEF]); (0x1EF0, [0x1EF1]);
  (0x1EF2, [0x1EF3]); (0x1EF4, [0x1EF5]); (0x1EF6, [0x1EF7]);
  (0x1EF8, [0x1EF9]); (0x1EFA, [0x1EFB]); (0x1EFC, [0x1EFD]);
  (0x1EFE, [0x1EFF]); (0x1F08, [0x1F00]); (0x1F09, [0x1F01]);
  (0x1F0A, [0x1F02]); (0x1F0B, [0x1F03]); (0x1F0C, [0x1F04]);
  (0x1F0D, [0x1F05]); (0x1F0E, [0x1F06]); (0x1F0F, [0x1F07]);
  (0x1F18, [0x1F10]); (0x1F19, [0x1F11]); (0x1F1A, [0x1F12]);
  (0x1F1B, [0x1F13]); (0x1F1C, [0x1F14]); (0x1F1D, [0x1F15]);
  (0x1F28, [0x1F20]); (0x1F29, [0x1F21]); (0x1F2A, [0x1F22]);
  (0x1F2B, [0x1F23]); (0x1F2C, [0x1F24]); (0x1F2D, [0x1F25]);
  (0x1F2E, [0x1F26]); (0x1F2F, [0x1F27]); (0x1F38, [0x1F30]);
  (0x1F39, [0x1F31]); (0x1F3A, [0x1F32]); (0x1F3B, [0x1F33]);
  (0x1F3C, [0x1F34]); (0x1F3D, [0x1F35]); (0x1F3E, [0x1F36]);
  (0x1F3F, [0x1F37]); (0x1F48, [0x1F40]); (0x1F49, [0x1F41]);
  (0x1F4A, [0x1F42]); (0x1F4B, [0x1F43]); (0x1F4C, [0x1F44]);
  (0x1F4D, [0x1F45]); (0x1F59, [0x1F51]); (0x1F5B, [0x1F53]);
  (0x1F5D, [0x1F55]); (0x1F5F, [0x1F57]); (0x1F68, [0x1F60]);
  (0x1F69, [0x1F61]); (0x1F6A, [0x1F62]); (0x1F6B, [0x1F63]);
  (0x1F6C, [0x1F64]); (0x1F6D, [0x1F65]); (0x1F6E, [0x1F66]);
  (0x1F6F, [0x1F67]); (0x1F88, [0x1F80]); (0x1F89, [0x1F81]);
  (0x1F8A, [0x1F82]); (0x1F8B, [0x1F83]); (0x1F8C, [0x1F84]);
  (0x1F8D, [0x1F85]); (0x1F8E, [0x1F86]); (0x1F8F, [0x1F87]);
  (0x1F98, [0x1F90]); (0x1F99, [0x1F91]); (0x1F9A, [0x1F92]);
  (0x1F9B, [0x1F93]); (0x1F9C, [0x1F94]); (0x1F9D, [0x1F95]);
  (0x1F9E, [0x1F96]); (0x1F9F, [0x1F97]); (0x1FA8, [0x1FA0]);
  (0x1FA9, [0x1FA1]); (0x1FAA, [0x1FA2]); (0x1FAB, [0x1FA3]);
  (0x1FAC, [0x1FA4]); (0x1FAD, [0x1FA5]); (0x1FAE, [0x1FA6]);
  (0x1FAF, [0x1FA7]); (0x1FB8, [0x1FB0]); (0x1FB9, [0x1FB1]);
  (0x1FBA, [0x1F70]); (0x1FBB, [0x1F71]); (0x1FBC, [0x1FB3]);
  (0x1FC8, [0x1F72]); (0x1FC9, [0x1F73]); (0x1FCA, [0x1F74]);
  (0x1FCB, [0x1F75]); (0x1FCC, [0x1FC3]); (0x1FD8, [0x1FD0]);
  (0x1FD9, [0x1FD1]); (0x1FDA, [0x1F76]); (0x1FDB, [0x1F77]);
  (0x1FE8, [0x1FE0]); (0x1FE9, [0x1FE1]); (0x1FEA, [0x1F7A]);
  (0x1FEB, [0x1F7B]); (0x1FEC, [0x1FE5]); (0x1FF8, [0x1F78]);
  (0x1FF9, [0x1F79]); (0x1FFA, [0x1F7C]); (0x1FFB, [0x1F7D]);
  (0x1FFC, [0x1FF3]); (0x2126, [0x3C9]); (0x212A, [0x6B]); (0x212B, [0xE5]);
  (0x2132, [0x214E]); (0x2160, [0x2170]); (0x2161, [0x2171]);
  (0x2162, [0x2172]); (0x2163, [0x2173]); (0x2164, [0x2174]);
  (0x2165, [0x2175]); (0x2166, [0x2176]); (0x2167, [0x2177]);
  (0x2168, [0x2178]); (0x2169, [0x2179]); (0x216A, [0x217A]);
  (0x216B, [0x217B]); (0x216C, [0x217C]); (0x216D, [0x217D]);
  (0x216E, [0x217E]); (0x216F, [0x217F]); (0x2183, [0x2184]);
  (0x24B6, [0x24D0]); (0x24B7, [0x24D1]); (0x24B8, [0x24D2]);
  (0x24B9, [0x24D3]); (0x24BA, [0x24D4]); (0x24BB, [0x24D5]);
  (0x24BC, [0x24D6]); (0x24BD, [0x24D7]); (0x24BE, [0x24D8]);
  (0x24BF, [0x24D9]); (0x24C0, [0x24DA]); (0x24C1, [0x24DB]);
  (0x24C2, [0x24DC]); (0x24C3, [0x24DD]); (0x24C4, [0x24DE]);
  (0x24C5, [0x24DF]); (0x24C6, [0x24E0]); (0x24C7, [0x24E1]);
  (0x24C8, [0x24E2]); (0x24C9, [0x24E3]); (0x24CA, [0x24E4]);
  (0x24CB, [0x24E5]); (0x24CC, [0x24E6]); (0x24CD, [0x24E7]);
  (0x24CE, [0x24E8]); (0x24CF, [0x24E9]); (0x2C00, [0x2C30]);
  (0x2C01, [0x2C31]); (0x2C02, [0x2C32]); (0x2C03, [0x2C33]);
  (0x2C04, [0x2C34]); (0x2C05, [0x2C35]); (0x2C06, [0x2C36]);
  (0x2C07, [0x2C37]); (0x2C08, [0x2C38]); (0x2C09, [0x2C39]);
  (0x2C0A, [0x2C3A]); (0x2C0B, [0x2C3B]); (0x2C0C, [0x2C3C]);
  (0x2C0D, [0x2C3D]); (0x2C0E, [0x2C3E]); (0x2C0F, [0x2C3F]);
  (0x2C10, [0x2C40]); (0x2C11, [0x2C41]); (0x2C12, [0x2C42]);
  (0x2C13, [0x2C43]); (0x2C14, [0x2C44]); (0x2C15, [0x2C45]);
  (0x2C16, [0x2C46]); (0x2C17, [0x2C47]); (0x2C18, [0x2C48]);
  (0x2C19, [0x2C49]); (0x2C1A, [0x2C4A]); (0x2C1B, [0x2C4B]);
  (0x2C1C, [0x2C4C]); (0x2C1D, [0x2C4D]); (0x2C1E, [0x2C4E]);
  (0x2C1F, [0x2C4F]); (0x2C20, [0x2C50]); (0x2C21, [0x2C51]);
  (0x2C22, [0x2C52]); (0x2C23, [0x2C53]); (0x2C24, [0x2C54]);
  (0x2C25, [0x2C55]); (0x2C26, [0x2C56]); (0x2C27, [0x2C57]);
  (0x2C28, [0x2C58]); (0x2C29, [0x2C59]); (0x2C2A, [0x2C5A]);
  (0x2C2B, [0x2C5B]); (0x2C2C, [0x2C5C]); (0x2C2D, [0x2C5D]);
  (0x2C2E, [0x2C5E]); (0x2C2F, [0x2C5F]); (0x2C60, [0x2C61]);
  (0x2C62, [0x26B]); (0x2C63, [0x1D7D]); (0x2C64, [0x27D]);
  (0x2C67, [0x2C68]); (0x2C69, [0x2C6A]); (0x2C6B, [0x2C6C]);
  (0x2C6D, [0x251]); (0x2C6E, [0x271]); (0x2C6F, [0x250]);
  (0x2C70, [0x252]); (0x2C72, [0x2C73]); (0x2C75, [0x2C76]);
  (0x2C7E, [0x23F]); (0x2C7F, [0x240]); (0x2C80, [0x2C81]);
  (0x2C82, [0x2C83]); (0x2C84, [0x2C85]); (0x2C86, [0x2C87]);
  (0x2C88, [0x2C89]); (0x2C8A, [0x2C8B]); (0x2C8C, [0x2C8D]);
  (0x2C8E, [0x2C8F]); (0x2C90, [0x2C91]); (0x2C92, [0x2C93]);
  (0x2C94, [0x2C95]); (0x2C96, [0x2C97]); (0x2C98, [0x2C99]);
  (0x2C9A, [0x2C9B]); (0x2C9C, [0x2C9D]); (0x2C9E, [0x2C9F]);
  (0x2CA0, [0x2CA1]); (0x2CA2, [0x2CA3]); (0x2CA4, [0x2CA5]);
  (0x2CA6, [0x2CA7]); (0x2CA8, [0x2CA9]); (0x2CAA, [0x2CAB]);
  (0x2CAC, [0x2CAD]); (0x2CAE, [0x2CAF]); (0x2CB0, [0x2CB1]);
  (0x2CB2, [0x2CB3]); (0x2CB4, [0x2CB5]); (0x2CB6, [0x2CB7]);
  (0x2CB8, [0x2CB9]); (0x2CBA, [0x2CBB]); (0x2CBC, [0x2CBD]);
  (0x2CBE, [0x2CBF]); (0x2CC0, [0x2CC1]); (0x2CC2, [0x2CC3]);
  (0x2CC4, [0x2CC5]); (0x2CC6, [0x2CC7]); (0x2CC8, [0x2CC9]);
  (0x2CCA, [0x2CCB]); (0x2CCC, [0x2CCD]); (0x2CCE, [0x2CCF]);
  (0x2CD0, [0x2CD1]); (0x2CD2, [0x2CD3]); (0x2CD4, [0x2CD5]);
  (0x2CD6, [0x2CD7]); (0x2CD8, [0x2CD9]); (0x2CDA, [0x2CDB]);
  (0x2CDC, [0x2CDD]); (0x2CDE, [0x2CDF]); (0x2CE0, [0x2CE1]);
  (0x2CE2, [0x2CE3]); (0x2CEB, [0x2CEC]); (0x2CED, [0x2CEE]);
  (0x2CF2, [0x2CF3]); (0xA640, [0xA641]); (0xA642, [0xA643]);
  (0xA644, [0xA645]); (0xA646, [0xA647]); (0xA648, [0xA649]);
  (0xA64A, [0xA64B]); (0xA64C, [0xA64D]); (0xA64E, [0xA64F]);
  (0xA650, [0xA651]); (0xA652, [0xA653]); (0xA654, [0xA655]);
  (0xA656, [0xA657]); (0xA658, [0xA659]); (0xA65A, [0xA65B]);
  (0xA65C, [0xA65D]); (0xA65E, [0xA65F]); (0xA660, [0xA661]);
  (0xA662, [0xA663]); (0xA664, [0xA665]); (0xA666, [0xA667]);
  (0xA668, [0xA669]); (0xA66A, [0xA66B]); (0xA66C, [0xA66D]);
  (0xA680, [0xA681]); (0xA682, [0xA683]); (0xA684, [0xA685]);
  (0xA686, [0xA687]); (0xA688, [0xA689]); (0xA68A, [0xA68B]);
  (0xA68C, [0xA68D]); (0xA68E, [0xA68F]); (0xA690, [0xA691]);
  (0xA692, [0xA693]); (0xA694, [0xA695]); (0xA696, [0xA697]);
  (0xA698, [0xA699]); (0xA69A, [0xA69B]); (0xA722, [0xA723]);
  (0xA724, [0xA725]); (0xA726, [0xA727]); (0xA728, [0xA729]);
  (0xA72A, [0xA72B]); (0xA72C, [0xA72D]); (0xA72E, [0xA72F]);
  (0xA732, [0xA733]); (0xA734, [0xA735]); (0xA736, [0xA737]);
  (0xA738, [0xA739]); (0xA73A, [0xA73B]); (0xA73C, [0xA73D]);
  (0xA73E, [0xA73F]); (0xA740, [0xA741]); (0xA742, [0xA743]);
  (0xA744, [0xA745]); (0xA746, [0xA747]); (0xA748, [0xA749]);
  (0xA74A, [0xA74B]); (0xA74C, [0xA74D]); (0xA74E, [0xA74F]);
  (0xA750, [0xA751]); (0xA752, [0xA753]); (0xA754, [0xA755]);
  (0xA756, [0xA757]); (0xA758, [0xA759]); (0xA75A, [0xA75B]);
  (0xA75C, [0xA75D]); (0xA75E, [0xA75F]); (0xA760, [0xA761]);
  (0xA762, [0xA763]); (0xA764, [0xA765]); (0xA766, [0xA767]);
  (0xA768, [0xA769]); (0xA76A, [0xA76B]); (0xA76C, [0xA76D]);
  (0xA76E, [0xA76F]); (0xA779, [0xA77A]); (0xA77B, [0xA77C]);
  (0xA77D, [0x1D79]); (0xA77E, [0xA77F]); (0xA780, [0xA781]);
  (0xA782, [0xA783]); (0xA784, [0xA785]); (0xA786, [0xA787]);
  (0xA78B, [0xA78C]); (0xA78D, [0x265]); (0xA790, [0xA791]);
  (0xA792, [0xA793]); (0xA796, [0xA797]); (0xA798, [0xA799]);
  (0xA79A, [0xA79B]); (0xA79C, [0xA79D]); (0xA79E, [0xA79F]);
  (0xA7A0, [0xA7A1]); (0xA7A2, [0xA7A3]); (0xA7A4, [0xA7A5]);
  (0xA7A6, [0xA7A7]); (0xA7A8, [0xA7A9]); (0xA7AA, [0x266]);
  (0xA7AB, [0x25C]); (0xA7AC, [0x261]); (0xA7AD, [0x26C]);
  (0xA7AE, [0x26A]); (0xA7B0, [0x29E]); (0xA7B1, [0x287]);
  (0xA7B2, [0x29D]); (0xA7B3, [0xAB53]); (0xA7B4, [0xA7B5]);
  (0xA7B6, [0xA7B7]); (0xA7B8, [0xA7B9]); (0xA7BA, [0xA7BB]);
  (0xA7BC, [0xA7BD]); (0xA7BE, [0xA7BF]); (0xA7C0, [0xA7C1]);
  (0xA7C2, [0xA7C3]); (0xA7C4, [0xA794]); (0xA7C5, [0x282]);
  (0xA7C6, [0x1D8E]); (0xA7C7, [0xA7C8]); (0xA7C9, [0xA7CA]);
  (0xA7D0, [0xA7D1]); (0xA7D6, [0xA7D7]); (0xA7D8, [0xA7D9]);
  (0xA7F5, [0xA7F6]); (0xFF21, [0xFF41]); (0xFF22, [0xFF42]);
  (0xFF23, [0xFF43]); (0xFF24, [0xFF44]); (0xFF25, [0xFF45]);
  (0xFF26, [0xFF46]); (0xFF27, [0xFF47]); (0xFF28, [0xFF48]);
  (0xFF29, [0xFF49]); (0xFF2A, [0xFF4A]); (0xFF2B, [0xFF4B]);
  (0xFF2C, [0xFF4C]); (0xFF2D, [0xFF4D]); (0xFF2E, [0xFF4E]);
  (0xFF2F, [0xFF4F]); (0xFF30, [0xFF50]); (0xFF31, [0xFF51]);
  (0xFF32, [0xFF52]); (0xFF33, [0xFF53]); (0xFF34, [0xFF54]);
  (0xFF35, [0xFF55]); (0xFF36, [0xFF56]); (0xFF37, [0xFF57]);
  (0xFF38, [0xFF58]); (0xFF39, [0xFF59]); (0xFF3A, [0xFF5A]);
  (0x10400, [0x10428]); (0x10401, [0x10429]); (0x10402, [0x1042A]);
  (0x10403, [0x1042B]); (0x10404, [0x1042C]); (0x10405, [0x1042D]);
  (0x10406, [0x1042E]); (0x10407, [0x1042F]); (0x10408, [0x10430]);
  (0x10409, [0x10431]); (0x1040A, [0x10432]); (0x1040B, [0x10433]);
  (0x1040C, [0x10434]); (0x1040D, [0x10435]); (0x1040E, [0x10436]);
  (0x1040F, [0x10437]); (0x10410, [0x10438]); (0x10411, [0x10439]);
  (0x10412, [0x1043A]); (0x10413, [0x1043B]); (0x10414, [0x1043C]);
  (0x10415, [0x1043D]); (0x10416, [0x1043E]); (0x10417, [0x1043F]);
  (0x10418, [0x10440]); (0x10419, [0x10441]); (0x1041A, [0x10442]);
  (0x1041B, [0x10443]); (0x1041C, [0x10444]); (0x1041D, [0x10445]);
  (0x1041E, [0x10446]); (0x1041F, [0x10447]); (0x10420, [0x10448]);
  (0x10421, [0x10449]); (0x10422, [0x1044A]); (0x10423, [0x1044B]);
  (0x10424, [0x1044C]); (0x10425, [0x1044D]); (0x10426, [0x1044E]);
  (0x10427, [0x1044F]); (0x104B0, [0x104D8]); (0x104B1, [0x104D9]);
  (0x104B2, [0x104DA]); (0x104B3, [0x104DB]); (0x104B4, [0x104DC]);
  (0x104B5, [0x104DD]); (0x104B6, [0x104DE]); (0x104B7, [0x104DF]);
  (0x104B8, [0x104E0]); (0x104B9, [0x104E1]); (0x104BA, [0x104E2]);
  (0x104BB, [0x104E3]); (0x104BC, [0x104E4]); (0x104BD, [0x104E5]);
  (0x104BE, [0x104E6]); (0x104BF, [0x104E7]); (0x104C0, [0x104E8]);
  (0x104C1, [0x104E9]); (0x104C2, [0x104EA]); (0x104C3, [0x104EB]);
  (0x104C4, [0x104EC]); (0x104C5, [0x104ED]); (0x104C6, [0x104EE]);
  (0x104C7, [0x104EF]); (0x104C8, [0x104F0]); (0x104C9, [0x104F1]);
  (0x104CA, [0x104F2]); (0x104CB, [0x104F3]); (0x104CC, [0x104F4]);
  (0x104CD, [0x104F5]); (0x104CE, [0x104F6]); (0x104CF, [0x104F7]);
  (0x104D0, [0x104F8]); (0x104D1, [0x104F9]); (0x104D2, [0x104FA]);
  (0x104D3, [0x104FB]); (0x10570, [0x10597]); (0x10571, [0x10598]);
  (0x10572, [0x10599]); (0x10573, [0x1059A]); (0x10574, [0x1059B]);
  (0x10575, [0x1059C]); (0x10576, [0x1059D]); (0x10577, [0x1059E]);
  (0x10578, [0x1059F]); (0x10579, [0x105A0]); (0x1057A, [0x105A1]);
  (0x1057C, [0x105A3]); (0x1057D, [0x105A4]); (0x1057E, [0x105A5]);
  (0x1057F, [0x105A6]); (0x10580, [0x105A7]); (0x10581, [0x105A8]);
  (0x10582, [0x105A9]); (0x10583, [0x105AA]); (0x10584, [0x105AB]);
  (0x10585, [0x105AC]); (0x10586, [0x105AD]); (0x10587, [0x105AE]);
  (0x10588, [0x105AF]); (0x10589, [0x105B0]); (0x1058A, [0x105B1]);
  (0x1058C, [0x105B3]); (0x1058D, [0x105B4]); (0x1058E, [0x105B5]);
  (0x1058F, [0x105B6]); (0x10590, [0x105B7]); (0x10591, [0x105B8]);
  (0x10592, [0x105B9]); (0x10594, [0x105BB]); (0x10595, [0x105BC]);
  (0x10C80, [0x10CC0]); (0x10C81, [0x10CC1]); (0x10C82, [0x10CC2]);
  (0x10C83, [0x10CC3]); (0x10C84, [0x10CC4]); (0x10C85, [0x10CC5]);
  (0x10C86, [0x10CC6]); (0x10C87, [0x10CC7]); (0x10C88, [0x10CC8]);
  (0x10C89, [0x10CC9]); (0x10C8A, [0x10CCA]); (0x10C8B, [0x10CCB]);
  (0x10C8C, [0x10CCC]); (0x10C8D, [0x10CCD]); (0x10C8E, [0x10CCE]);
  (0x10C8F, [0x10CCF]); (0x10C90, [0x10CD0]); (0x10C91, [0x10CD1]);
  (0x10C92, [0x10CD2]); (0x10C93, [0x10CD3]); (0x10C94, [0x10CD4]);
  (0x10C95, [0x10CD5]); (0x10C96, [0x10CD6]); (0x10C97, [0x10CD7]);
  (0x10C98, [0x10CD8]); (0x10C99, [0x10CD9]); (0x10C9A, [0x10CDA]);
  (0x10C9B, [0x10CDB]); (0x10C9C, [0x10CDC]); (0x10C9D, [0x10CDD]);
  (0x10C9E, [0x10CDE]); (0x10C9F, [0x10CDF]); (0x10CA0, [0x10CE0]);
  (0x10CA1, [0x10CE1]); (0x10CA2, [0x10CE2]); (0x10CA3, [0x10CE3]);
  (0x10CA4, [0x10CE4]); (0x10CA5, [0x10CE5]); (0x10CA6, [0x10CE6]);
  (0x10CA7, [0x10CE7]); (0x10CA8, [0x10CE8]); (0x10CA9, [0x10CE9]);
  (0x10CAA, [0x10CEA]); (0x10CAB, [0x10CEB]); (0x10CAC, [0x10CEC]);
  (0x10CAD, [0x10CED]); (0x10CAE, [0x10CEE]); (0x10CAF, [0x10CEF]);
  (0x10CB0, [0x10CF0]); (0x10CB1, [0x10CF1]); (0x10CB2, [0x10CF2]);
  (0x118A0, [0x118C0]); (0x118A1, [0x118C1]); (0x118A2, [0x118C2]);
  (0x118A3, [0x118C3]); (0x118A4, [0x118C4]); (0x118A5, [0x118C5]);
  (0x118A6, [0x118C6]); (0x118A7, [0x118C7]); (0x118A8, [0x118C8]);
  (0x118A9, [0x118C9]); (0x118AA, [0x118CA]); (0x118AB, [0x118CB]);
  (0x118AC, [0x118CC]); (0x118AD, [0x118CD]); (0x118AE, [0x118CE]);
  (0x118AF, [0x118CF]); (0x118B0, [0x118D0]); (0x118B1, [0x118D1]);
  (0x118B2, [0x118D2]); (0x118B3, [0x118D3]); (0x118B4, [0x118D4]);
  (0x118B5, [0x118D5]); (0x118B6, [0x118D6]); (0x118B7, [0x118D7]);
  (0x118B8, [0x118D8]); (0x118B9, [0x118D9]); (0x118BA, [0x118DA]);
  (0x118BB, [0x118DB]); (0x118BC, [0x118DC]); (0x118BD, [0x118DD]);
  (0x118BE, [0x118DE]); (0x118BF, [0x118DF]); (0x16E40, [0x16E60]);
  (0x16E41, [0x16E61]); (0x16E42, [0x16E62]); (0x16E43, [0x16E63]);
  (0x16E44, [0x16E64]); (0x16E45, [0x16E65]); (0x16E46, [0x16E66]);
  (0x16E47, [0x16E67]); (0x16E48, [0x16E68]); (0x16E49, [0x16E69]);
  (0x16E4A, [0x16E6A]); (0x16E4B, [0x16E6B]); (0x16E4C, [0x16E6C]);
  (0x16E4D, [0x16E6D]); (0x16E4E, [0x16E6E]); (0x16E4F, [0x16E6F]);
  (0x16E50, [0x16E70]); (0x16E51, [0x16E71]); (0x16E52, [0x16E72]);
  (0x16E53, [0x16E73]); (0x16E54, [0x16E74]); (0x16E55, [0x16E75]);
  (0x16E56, [0x16E76]); (0x16E57, [0x16E77]); (0x16E58, [0x16E78]);
  (0x16E59, [0x16E79]); (0x16E5A, [0x16E7A]); (0x16E5B, [0x16E7B]);
  (0x16E5C, [0x16E7C]); (0x16E5D, [0x16E7D]); (0x16E5E, [0x16E7E]);
  (0x16E5F, [0x16E7F]); (0x1E900, [0x1E922]); (0x1E901, [0x1E923]);
  (0x1E902, [0x1E924]); (0x1E903, [0x1E925]); (0x1E904, [0x1E926]);
  (0x1E905, [0x1E927]); (0x1E906, [0x1E928]); (0x1E907, [0x1E929]);
  (0x1E908, [0x1E92A]); (0x1E909, [0x1E92B]); (0x1E90A, [0x1E92C]);
  (0x1E90B, [0x1E92D]); (0x1E90C, [0x1E92E]); (0x1E90D, [0x1E92F]);
  (0x1E90E, [0x1E930]); (0x1E90F, [0x1E931]); (0x1E910, [0x1E932]);
  (0x1E911, [0x1E933]); (0x1E912, [0x1E934]); (0x1E913, [0x1E935]);
  (0x1E914, [0x1E936]); (0x1E915, [0x1E937]); (0x1E916, [0x1E938]);
  (0x1E917, [0x1E939]); (0x1E918, [0x1E93A]); (0x1E919, [0x1E93B]);
  (0x1E91A, [0x1E93C]); (0x1E91B, [0x1E93D]); (0x1E91C, [0x1E93E]);
  (0x1E91D, [0x1E93F]); (0x1E91E, [0x1E940]); (0x1E91F, [0x1E941]);
  (0x1E920, [0x1E942]); (0x1E921, [0x1E943])
]%N.

(** Code points whose upper case mapping is not the code point itself. *)
Definition upperTable : list (codePoint * list codePoint) := [
  (0x61, [0x41]); (0x62, [0x42]); (0x63, [0x43]); (0x64, [0x44]);
  (0x65, [0x45]); (0x66, [0x46]); (0x67, [0x47]); (0x68, [0x48]);
  (0x69, [0x49]); (0x6A, [0x4A]); (0x6B, [0x4B]); (0x6C, [0x4C]);
  (0x6D, [0x4D]); (0x6E, [0x4E]); (0x6F, [0x4F]); (0x70, [0x50]);
  (0x71, [0x51]); (0x72, [0x52]); (0x73, [0x53]); (0x74, [0x54]);
  (0x75, [0x55]); (0x76, [0x56]); (0x77, [0x57]); (0x78, [0x58]);
  (0x79, [0x59]); (0x7A, [0x5A]); (0xB5, [0x39C]); (0xDF, [0x53; 0x53]);
  (0xE0, [0xC0]); (0xE1, [0xC1]); (0xE2, [0xC2]); (0xE3, [0xC3]);
  (0xE4, [0xC4]); (0xE5, [0xC5]); (0xE6, [0xC6]); (0xE7, [0xC7]);
  (0xE8, [0xC8]); (0xE9, [0xC9]); (0xEA, [0xCA]); (0xEB, [0xCB]);
  (0xEC, [0xCC]); (0xED, [0xCD]); (0xEE, [0xCE]); (0xEF, [0xCF]);
  (0xF0, [0xD0]); (0xF1, [0xD1]); (0xF2, [0xD2]); (0xF3, [0xD3]);
  (0xF4, [0xD4]); (0xF5, [0xD5]); (0xF6, [0xD6]); (0xF8, [0xD8]);
  (0xF9, [0xD9]); (0xFA, [0xDA]); (0xFB, [0xDB]); (0xFC, [0xDC]);
  (0xFD, [0xDD]); (0xFE, [0xDE]); (0xFF, [0x178]); (0x101, [0x100]);
  (0x103, [0x102]); (0x105, [0x104]); (0x107, [0x106]); (0x109, [0x108]);
  (0x10B, [0x10A]); (0x10D, [0x10C]); (0x10F, [0x10E]); (0x111, [0x110]);
  (0x113, [0x112]); (0x115, [0x114]); (0x117, [0x116]); (0x119, [0x118]);
  (0x11B, [0x11A]); (0x11D, [0x11C]); (0x11F, [0x11E]); (0x121, [0x120]);
  (0x123, [0x122]); (0x125, [0x124]); (0x127, [0x126]); (0x129, [0x128]);
  (0x12B, [0x12A]); (0x12D, [0x12C]); (0x12F, [0x12E]); (0x131, [0x49]);
  (0x133, [0x132]); (0x135, [0x134]); (0x137, [0x136]); (0x13A, [0x139]);
  (0x13C, [0x13B]); (0x13E, [0x13D]); (0x140, [0x13F]); (0x142, [0x141]);
  (0x144, [0x143]); (0x146, [0x145]); (0x148, [0x147]);
  (0x149, [0x2BC; 0x4E]); (0x14B, [0x14A]); (0x14D, [0x14C]);
  (0x14F, [0x14E]); (0x151, [0x150]); (0x153, [0x152]); (0x155, [0x154]);
  (0x157, [0x156]); (0x159, [0x158]); (0x15B, [0x15A]); (0x15D, [0x15C]);
  (0x15F, [0x15E]); (0x161, [0x160]); (0x163, [0x162]); (0x165, [0x164]);
  (0x167, [0x166]); (0x169, [0x168]); (0x16B, [0x16A]); (0x16D, [0x16C]);
  (0x16F, [0x16E]); (0x171, [0x170]); (0x173, [0x172]); (0x175, [0x174]);
  (0x177, [0x176]); (0x17A, [0x179]); (0x17C, [0x17B]); (0x17E, [0x17D]);
  (0x17F, [0x53]); (0x180, [0x243]); (0x183, [0x182]); (0x185, [0x184]);
  (0x188, [0x187]); (0x18C, [0x18B]); (0x192, [0x191]); (0x195, [0x1F6]);
  (0x199, [0x198]); (0x19A, [0x23D]); (0x19E, [0x220]); (0x1A1, [0x1A0]);
  (0x1A3, [0x1A2]); (0x1A5, [0x1A4]); (0x1A8, [0x1A7]); (0x1AD, [0x1AC]);
  (0x1B0, [0x1AF]); (0x1B4, [0x1B3]); (0x1B6, [0x1B5]); (0x1B9, [0x1B8]);
  (0x1BD, [0x1BC]); (0x1BF, [0x1F7]); (0x1C5, [0x1C4]); (0x1C6, [0x1C4]);
  (0x1C8, [0x1C7]); (0x1C9, [0x1C7]); (0x1CB, [0x1CA]); (0x1CC, [0x1CA]);
  (0x1CE, [0x1CD]); (0x1D0, [0x1CF]); (0x1D2, [0x1D1]); (0x1D4, [0x1D3]);
  (0x1D6, [0x1D5]); (0x1D8, [0x1D7]); (0x1DA, [0x1D9]); (0x1DC, [0x1DB]);
  (0x1DD, [0x18E]); (0x1DF, [0x1DE]); (0x1E1, [0x1E0]); (0x1E3, [0x1E2]);
  (0x1E5, [0x1E4]); (0x1E7, [0x1E6]); (0x1E9, [0x1E8]); (0x1EB, [0x1EA]);
  (0x1ED, [0x1EC]); (0x1EF, [0x1EE]); (0x1F0, [0x4A; 0x30C]);
  (0x1F2, [0x1F1]); (0x1F3, [0x1F1]); (0x1F5, [0x1F4]); (0x1F9, [0x1F8]);
  (0x1FB, [0x1FA]); (0x1FD, [0x1FC]); (0x1FF, [0x1FE]); (0x201, [0x200]);
  (0x203, [0x202]); (0x205, [0x204]); (0x207, [0x206]); (0x209, [0x208]);
  (0x20B, [0x20A]); (0x20D, [0x20C]); (0x20F, [0x20E]); (0x211, [0x210]);
  (0x213, [0x212]); (0x215, [0x214]); (0x217, [0x216]); (0x219, [0x218]);
  (0x21B, [0x21A]); (0x21D, [0x21C]); (0x21F, [0x21E]); (0x223, [0x222]);
  (0x225, [0x224]); (0x227, [0x226]); (0x229, [0x228]); (0x22B, [0x22A]);
  (0x22D, [0x22C]); (0x22F, [0x22E]); (0x231, [0x230]); (0x233, [0x232]);
  (0x23C, [0x23B]); (0x23F, [0x2C7E]); (0x240, [0x2C7F]); (0x242, [0x241]);
  (0x247, [0x246]); (0x249, [0x248]); (0x24B, [0x24A]); (0x24D, [0x24C]);
  (0x24F, [0x24E]); (0x250, [0x2C6F]); (0x251, [0x2C6D]); (0x252, [0x2C70]);
  (0x253, [0x181]); (0x254, [0x186]); (0x256, [0x189]); (0x257, [0x18A]);
  (0x259, [0x18F]); (0x25B, [0x190]); (0x25C, [0xA7AB]); (0x260, [0x193]);
  (0x261, [0xA7AC]); (0x263, [0x194]); (0x265, [0xA78D]); (0x266, [0xA7AA]);
  (0x268, [0x197]); (0x269, [0x196]); (0x26A, [0xA7AE]); (0x26B, [0x2C62]);
  (0x26C, [0xA7AD]); (0x26F, [0x19C]); (0x271, [0x2C6E]); (0x272, [0x19D]);
  (0x275, [0x19F]); (0x27D, [0x2C64]); (0x280, [0x1A6]); (0x282, [0xA7C5]);
  (0x283, [0x1A9]); (0x287, [0xA7B1]); (0x288, [0x1AE]); (0x289, [0x244]);
  (0x28A, [0x1B1]); (0x28B, [0x1B2]); (0x28C, [0x245]); (0x292, [0x1B7]);
  (0x29D, [0xA7B2]); (0x29E, [0xA7B0]); (0x345, [0x399]); (0x371, [0x370]);
  (0x373, [0x372]); (0x377, [0x376]); (0x37B, [0x3FD]); (0x37C, [0x3FE]);
  (0x37D, [0x3FF]); (0x390, [0x399; 0x308; 0x301]); (0x3AC, [0x386]);
  (0x3AD, [0x388]); (0x3AE, [0x389]); (0x3AF, [0x38A]);
  (0x3B0, [0x3A5; 0x308; 0x301]); (0x3B1, [0x391]); (0x3B2, [0x392]);
  (0x3B3, [0x393]); (0x3B4, [0x394]); (0x3B5, [0x395]); (0x3B6, [0x396]);
  (0x3B7, [0x397]); (0x3B8, [0x398]); (0x3B9, [0x399]); (0x3BA, [0x39A]);
  (0x3BB, [0x39B]); (0x3BC, [0x39C]); (0x3BD, [0x39D]); (0x3BE, [0x39E]);
  (0x3BF, [0x39F]); (0x3C0, [0x3A0]); (0x3C1, [0x3A1]); (0x3C2, [0x3A3]);
  (0x3C3, [0x3A3]); (0x3C4, [0x3A4]); (0x3C5, [0x3A5]); (0x3C6, [0x3A6]);
  (0x3C7, [0x3A7]); (0x3C8, [0x3A8]); (0x3C9, [0x3A9]); (0x3CA, [0x3AA]);
  (0x3CB, [0x3AB]); (0x3CC, [0x38C]); (0x3CD, [0x38E]); (0x3CE, [0x38F]);
  (0x3D0, [0x392]); (0x3D1, [0x398]); (0x3D5, [0x3A6]); (0x3D6, [0x3A0]);
  (0x3D7, [0x3CF]); (0x3D9, [0x3D8]); (0x3DB, [0x3DA]); (0x3DD, [0x3DC]);
  (0x3DF, [0x3DE]); (0x3E1, [0x3E0]); (0x3E3, [0x3E2]); (0x3E5, [0x3E4]);
  (0x3E7, [0x3E6]); (0x3E9, [0x3E8]); (0x3EB, [0x3EA]); (0x3ED, [0x3EC]);
  (0x3EF, [0x3EE]); (0x3F0, [0x39A]); (0x3F1, [0x3A1]); (0x3F2, [0x3F9]);
  (0x3F3, [0x37F]); (0x3F5, [0x395]); (0x3F8, [0x3F7]); (0x3FB, [0x3FA]);
  (0x430, [0x410]); (0x431, [0x411]); (0x432, [0x412]); (0x433, [0x413]);
  (0x434, [0x414]); (0x435, [0x415]); (0x436, [0x416]); (0x437, [0x417]);
  (0x438, [0x418]); (0x439, [0x419]); (0x43A, [0x41A]); (0x43B, [0x41B]);
  (0x43C, [0x41C]); (0x43D, [0x41D]); (0x43E, [0x41E]); (0x43F, [0x41F]);
  (0x440, [0x420]); (0x441, [0x421]); (0x442, [0x422]); (0x443, [0x423]);
  (0x444, [0x424]); (0x445, [0x425]); (0x446, [0x426]); (0x447, [0x427]);
  (0x448, [0x428]); (0x449, [0x429]); (0x44A, [0x42A]); (0x44B, [0x42B]);
  (0x44C, [0x42C]); (0x44D, [0x42D]); (0x44E, [0x42E]); (0x44F, [0x42F]);
  (0x450, [0x400]); (0x451, [0x401]); (0x452, [0x402]); (0x453, [0x403]);
  (0x454, [0x404]); (0x455, [0x405]); (0x456, [0x406]); (0x457, [0x407]);
  (0x458, [0x408]); (0x459, [0x409]); (0x45A, [0x40A]); (0x45B, [0x40B]);
  (0x45C, [0x40C]); (0x45D, [0x40D]); (0x45E, [0x40E]); (0x45F, [0x40F]);
  (0x461, [0x460]); (0x463, [0x462]); (0x465, [0x464]); (0x467, [0x466]);
  (0x469, [0x468]); (0x46B, [0x46A]); (0x46D, [0x46C]); (0x46F, [0x46E]);
  (0x471, [0x470]); (0x473, [0x472]); (0x475, [0x474]); (0x477, [0x476]);
  (0x479, [0x478]); (0x47B, [0x47A]); (0x47D, [0x47C]); (0x47F, [0x47E]);
  (0x481, [0x480]); (0x48B, [0x48A]); (0x48D, [0x48C]); (0x48F, [0x48E]);
  (0x491, [0x490]); (0x493, [0x492]); (0x495, [0x494]); (0x497, [0x496]);
  (0x499, [0x498]); (0x49B, [0x49A]); (0x49D, [0x49C]); (0x49F, [0x49E]);
  (0x4A1, [0x4A0]); (0x4A3, [0x4A2]); (0x4A5, [0x4A4]); (0x4A7, [0x4A6]);
  (0x4A9, [0x4A8]); (0x4AB, [0x4AA]); (0x4AD, [0x4AC]); (0x4AF, [0x4AE]);
  (0x4B1, [0x4B0]); (0x4B3, [0x4B2]); (0x4B5, [0x4B4]); (0x4B7, [0x4B6]);
  (0x4B9, [0x4B8]); (0x4BB, [0x4BA]); (0x4BD, [0x4BC]); (0x4BF, [0x4BE]);
  (0x4C2, [0x4C1]); (0x4C4, [0x4C3]); (0x4C6, [0x4C5]); (0x4C8, [0x4C7]);
  (0x4CA, [0x4C9]); (0x4CC, [0x4CB]); (0x4CE, [0x4CD]); (0x4CF, [0x4C0]);
  (0x4D1, [0x4D0]); (0x4D3, [0x4D2]); (0x4D5, [0x4D4]); (0x4D7, [0x4D6]);
  (0x4D9, [0x4D8]); (0x4DB, [0x4DA]); (0x4DD, [0x4DC]); (0x4DF, [0x4DE]);
  (0x4E1, [0x4E0]); (0x4E3, [0x4E2]); (0x4E5, [0x4E4]); (0x4E7, [0x4E6]);
  (0x4E9, [0x4E8]); (0x4EB, [0x4EA]); (0x4ED, [0x4EC]); (0x4EF, [0x4EE]);
  (0x4F1, [0x4F0]); (0x4F3, [0x4F2]); (0x4F5, [0x4F4]); (0x4F7, [0x4F6]);
  (0x4F9, [0x4F8]); (0x4FB, [0x4FA]); (0x4FD, [0x4FC]); (0x4FF, [0x4FE]);
  (0x501, [0x500]); (0x503, [0x502]); (0x505, [0x504]); (0x507, [0x506]);
  (0x509, [0x508]); (0x50B, [0x50A]); (0x50D, [0x50C]); (0x50F, [0x50E]);
  (0x511, [0x510]); (0x513, [0x512]); (0x515, [0x514]); (0x517, [0x516]);
  (0x519, [0x518]); (0x51B, [0x51A]); (0x51D, [0x51C]); (0x51F, [0x51E]);
  (0x521, [0x520]); (0x523, [0x522]); (0x525, [0x524]); (0x527, [0x526]);
  (0x529, [0x528]); (0x52B, [0x52A]); (0x52D, [0x52C]); (0x52F, [0x52E]);
  (0x561, [0x531]); (0x562, [0x532]); (0x563, [0x533]); (0x564, [0x534]);
  (0x565, [0x535]); (0x566, [0x536]); (0x567, [0x537]); (0x568, [0x538]);
  (0x569, [0x539]); (0x56A, [0x53A]); (0x56B, [0x53B]); (0x56C, [0x53C]);
  (0x56D, [0x53D]); (0x56E, [0x53E]); (0x56F, [0x53F]); (0x570, [0x540]);
  (0x571, [0x541]); (0x572, [0x542]); (0x573, [0x543]); (0x574, [0x544]);
  (0x575, [0x545]); (0x576, [0x546]); (0x577, [0x547]); (0x578, [0x548]);
  (0x579, [0x549]); (0x57A, [0x54A]); (0x57B, [0x54B]); (0x57C, [0x54C]);
  (0x57D, [0x54D]); (0x57E, [0x54E]); (0x57F, [0x54F]); (0x580, [0x550]);
  (0x581, [0x551]); (0x582, [0x552]); (0x583, [0x553]); (0x584, [0x554]);
  (0x585, [0x555]); (0x586, [0x556]); (0x587, [0x535; 0x552]);
  (0x10D0, [0x1C90]); (0x10D1, [0x1C91]); (0x10D2, [0x1C92]);
  (0x10D3, [0x1C93]); (0x10D4, [0x1C94]); (0x10D5, [0x1C95]);
  (0x10D6, [0x1C96]); (0x10D7, [0x1C97]); (0x10D8, [0x1C98]);
  (0x10D9, [0x1C99]); (0x10DA, [0x1C9A]); (0x10DB, [0x1C9B]);
  (0x10DC, [0x1C9C]); (0x10DD, [0x1C9D]); (0x10DE, [0x1C9E]);
  (0x10DF, [0x1C9F]); (0x10E0, [0x1CA0]); (0x10E1, [0x1CA1]);
  (0x10E2, [0x1CA2]); (0x10E3, [0x1CA3]); (0x10E4, [0x1CA4]);
  (0x10E5, [0x1CA5]); (0x10E6, [0x1CA6]); (0x10E7, [0x1CA7]);
  (0x10E8, [0x1CA8]); (0x10E9, [0x1CA9]); (0x10EA, [0x1CAA]);
  (0x10EB, [0x1CAB]); (0x10EC, [0x1CAC]); (0x10ED, [0x1CAD]);
  (0x10EE, [0x1CAE]); (0x10EF, [0x1CAF]); (0x10F0, [0x1CB0]);
  (0x10F1, [0x1CB1]); (0x10F2, [0x1CB2]); (0x10F3, [0x1CB3]);
  (0x10F4, [0x1CB4]); (0x10F5, [0x1CB5]); (0x10F6, [0x1CB6]);
  (0x10F7, [0x1CB7]); (0x10F8, [0x1CB8]); (0x10F9, [0x1CB9]);
  (0x10FA, [0x1CBA]); (0x10FD, [0x1CBD]); (0x10FE, [0x1CBE]);
  (0x10FF, [0x1CBF]); (0x13F8, [0x13F0]); (0x13F9, [0x13F1]);
  (0x13FA, [0x13F2]); (0x13FB, [0x13F3]); (0x13FC, [0x13F4]);
  (0x13FD, [0x13F5]); (0x1C80, [0x412]); (0x1C81, [0x414]);
  (0x1C82, [0x41E]); (0x1C83, [0x421]); (0x1C84, [0x422]);
  (0x1C85, [0x422]); (0x1C86, [0x42A]); (0x1C87, [0x462]);
  (0x1C88, [0xA64A]); (0x1D79, [0xA77D]); (0x1D7D, [0x2C63]);
  (0x1D8E, [0xA7C6]); (0x1E01, [0x1E00]); (0x1E03, [0x1E02]);
  (0x1E05, [0x1E04]); (0x1E07, [0x1E06]); (0x1E09, [0x1E08]);
  (0x1E0B, [0x1E0A]); (0x1E0D, [0x1E0C]); (0x1E0F, [0x1E0E]);
  (0x1E11, [0x1E10]); (0x1E13, [0x1E12]); (0x1E15, [0x1E14]);
  (0x1E17, [0x1E16]); (0x1E19, [0x1E18]); (0x1E1B, [0x1E1A]);
  (0x1E1D, [0x1E1C]); (0x1E1F, [0x1E1E]); (0x1E21, [0x1E20]);
  (0x1E23, [0x1E22]); (0x1E25, [0x1E24]); (0x1E27, [0x1E26]);
  (0x1E29, [0x1E28]); (0x1E2B, [0x1E2A]); (0x1E2D, [0x1E2C]);
  (0x1E2F, [0x1E2E]); (0x1E31, [0x1E30]); (0x1E33, [0x1E32]);
  (0x1E35, [0x1E34]); (0x1E37, [0x1E36]); (0x1E39, [0x1E38]);
  (0x1E3B, [0x1E3A]); (0x1E3D, [0x1E3C]); (0x1E3F, [0x1E3E]);
  (0x1E41, [0x1E40]); (0x1E43, [0x1E42]); (0x1E45, [0x1E44]);
  (0x1E47, [0x1E46]); (0x1E49, [0x1E48]); (0x1E4B, [0x1E4A]);
  (0x1E4D, [0x1E4C]); (0x1E4F, [0x1E4E]); (0x1E51, [0x1E50]);
  (0x1E53, [0x1E52]); (0x1E55, [0x1E54]); (0x1E57, [0x1E56]);
  (0x1E59, [0x1E58]); (0x1E5B, [0x1E5A]); (0x1E5D, [0x1E5C]);
  (0x1E5F, [0x1E5E]); (0x1E61, [0x1E60]); (0x1E63, [0x1E62]);
  (0x1E65, [0x1E64]); (0x1E67, [0x1E66]); (0x1E69, [0x1E68]);
  (0x1E6B, [0x1E6A]); (0x1E6D, [0x1E6C]); (0x1E6F, [0x1E6E]);
  (0x1E71, [0x1E70]); (0x1E73, [0x1E72]); (0x1E75, [0x1E74]);
  (0x1E77, [0x1E76]); (0x1E79, [0x1E78]); (0x1E7B, [0x1E7A]);
  (0x1E7D, [0x1E7C]); (0x1E7F, [0x1E7E]); (0x1E81, [0x1E80]);
  (0x1E83, [0x1E82]); (0x1E85, [0x1E84]); (0x1E87, [0x1E86]);
  (0x1E89, [0x1E88]); (0x1E8B, [0x1E8A]); (0x1E8D, [0x1E8C]);
  (0x1E8F, [0x1E8E]); (0x1E91, [0x1E90]); (0x1E93, [0x1E92]);
  (0x1E95, [0x1E94]); (0x1E96, [0x48; 0x331]); (0x1E97, [0x54; 0x308]);
  (0x1E98, [0x57; 0x30A]); (0x1E99, [0x59; 0x30A]); (0x1E9A, [0x41; 0x2BE]);
  (0x1E9B, [0x1E60]); (0x1EA1, [0x1EA0]); (0x1EA3, [0x1EA2]);
  (0x1EA5, [0x1EA4]); (0x1EA7, [0x1EA6]); (0x1EA9, [0x1EA8]);
  (0x1EAB, [0x1EAA]); (0x1EAD, [0x1EAC]); (0x1EAF, [0x1EAE]);
  (0x1EB1, [0x1EB0]); (0x1EB3, [0x1EB2]); (0x1EB5, [0x1EB4]);
  (0x1EB7, [0x1EB6]); (0x1EB9, [0x1EB8]); (0x1EBB, [0x1EBA]);
  (0x1EBD, [0x1EBC]); (0x1EBF, [0x1EBE]); (0x1EC1, [0x1EC0]);
  (0x1EC3, [0x1EC2]); (0x1EC5, [0x1EC4]); (0x1EC7, [0x1EC6]);
  (0x1EC9, [0x1EC8]); (0x1ECB, [0x1ECA]); (0x1ECD, [0x1ECC]);
  (0x1ECF, [0x1ECE]); (0x1ED1, [0x1ED0]); (0x1ED3, [0x1ED2]);
  (0x1ED5, [0x1ED4]); (0x1ED7, [0x1ED6]); (0x1ED9, [0x1ED8]);
  (0x1EDB, [0x1EDA]); (0x1EDD, [0x1EDC]); (0x1EDF, [0x1EDE]);
  (0x1EE1, [0x1EE0]); (0x1EE3, [0x1EE2]); (0x1EE5, [0x1EE4]);
  (0x1EE7, [0x1EE6]); (0x1EE9, [0x1EE8]); (0x1EEB, [0x1EEA]);
  (0x1EED, [0x1EEC]); (0x1EEF, [0x1EEE]); (0x1EF1, [0x1EF0]);
  (0x1EF3, [0x1EF2]); (0x1EF5, [0x1EF4]); (0x1EF7, [0x1EF6]);
  (0x1EF9, [0x1EF8]); (0x1EFB, [0x1EFA]); (0x1EFD, [0x1EFC]);
  (0x1EFF, [0x1EFE]); (0x1F00, [0x1F08]); (0x1F01, [0x1F09]);
  (0x1F02, [0x1F0A]); (0x1F03, [0x1F0B]); (0x1F04, [0x1F0C]);
  (0x1F05, [0x1F0D]); (0x1F06, [0x1F0E]); (0x1F07, [0x1F0F]);
  (0x1F10, [0x1F18]); (0x1F11, [0x1F19]); (0x1F12, [0x1F1A]);
  (0x1F13, [0x1F1B]); (0x1F14, [0x1F1C]); (0x1F15, [0x1F1D]);
  (0x1F20, [0x1F28]); (0x1F21, [0x1F29]); (0x1F22, [0x1F2A]);
  (0x1F23, [0x1F2B]); (0x1F24, [0x1F2C]); (0x1F25, [0x1F2D]);
  (0x1F26, [0x1F2E]); (0x1F27, [0x1F2F]); (0x1F30, [0x1F38]);
  (0x1F31, [0x1F39]); (0x1F32, [0x1F3A]); (0x1F33, [0x1F3B]);
  (0x1F34, [0x1F3C]); (0x1F35, [0x1F3D]); (0x1F36, [0x1F3E]);
  (0x1F37, [0x1F3F]); (0x1F40, [0x1F48]); (0x1F41, [0x1F49]);
  (0x1F42, [0x1F4A]); (0x1F43, [0x1F4B]); (0x1F44, [0x1F4C]);
  (0x1F45, [0x1F4D]); (0x1F50, [0x3A5; 0x313]); (0x1F51, [0x1F59]);
  (0x1F52, [0x3A5; 0x313; 0x300]); (0x1F53, [0x1F5B]);
  (0x1F54, [0x3A5; 0x313; 0x301]); (0x1F55, [0x1F5D]);
  (0x1F56, [0x3A5; 0x313; 0x342]); (0x1F57, [0x1F5F]); (0x1F60, [0x1F68]);
  (0x1F61, [0x1F69]); (0x1F62, [0x1F6A]); (0x1F63, [0x1F6B]);
  (0x1F64, [0x1F6C]); (0x1F65, [0x1F6D]); (0x1F66, [0x1F6E]);
  (0x1F67, [0x1F6F]); (0x1F70, [0x1FBA]); (0x1F71, [0x1FBB]);
  (0x1F72, [0x1FC8]); (0x1F73, [0x1FC9]); (0x1F74, [0x1FCA]);
  (0x1F75, [0x1FCB]); (0x1F76, [0x1FDA]); (0x1F77, [0x1FDB]);
  (0x1F78, [0x1FF8]); (0x1F79, [0x1FF9]); (0x1F7A, [0x1FEA]);
  (0x1F7B, [0x1FEB]); (0x1F7C, [0x1FFA]); (0x1F7D, [0x1FFB]);
  (0x1F80, [0x1F08; 0x399]); (0x1F81, [0x1F09; 0x399]);
  (0x1F82, [0x1F0A; 0x399]); (0x1F83, [0x1F0B; 0x399]);
  (0x1F84, [0x1F0C; 0x399]); (0x1F85, [0x1F0D; 0x399]);
  (0x1F86, [0x1F0E; 0x399]); (0x1F87, [0x1F0F; 0x399]);
  (0x1F88, [0x1F08; 0x399]); (0x1F89, [0x1F09; 0x399]);
  (0x1F8A, [0x1F0A; 0x399]); (0x1F8B, [0x1F0B; 0x399]);
  (0x1F8C, [0x1F0C; 0x399]); (0x1F8D, [0x1F0D; 0x399]);
  (0x1F8E, [0x1F0E; 0x399]); (0x1F8F, [0x1F0F; 0x399]);
  (0x1F90, [0x1F28; 0x399]); (0x1F91, [0x1F29; 0x399]);
  (0x1F92, [0x1F2A; 0x399]); (0x1F93, [0x1F2B; 0x399]);
  (0x1F94, [0x1F2C; 0x399]); (0x1F95, [0x1F2D; 0x399]);
  (0x1F96, [0x1F2E; 0x399]); (0x1F97, [0x1F2F; 0x399]);
  (0x1F98, [0x1F28; 0x399]); (0x1F99, [0x1F29; 0x399]);
  (0x1F9A, [0x1F2A; 0x399]); (0x1F9B, [0x1F2B; 0x399]);
  (0x1F9C, [0x1F2C; 0x399]); (0x1F9D, [0x1F2D; 0x399]);
  (0x1F9E, [0x1F2E; 0x399]); (0x1F9F, [0x1F2F; 0x399]);
  (0x1FA0, [0x1F68; 0x399]); (0x1FA1, [0x1F69; 0x399]);
  (0x1FA2, [0x1F6A; 0x399]); (0x1FA3, [0x1F6B; 0x399]);
  (0x1FA4, [0x1F6C; 0x399]); (0x1FA5, [0x1F6D; 0x399]);
  (0x1FA6, [0x1F6E; 0x399]); (0x1FA7, [0x1F6F; 0x399]);
  (0x1FA8, [0x1F68; 0x399]); (0x1FA9, [0x1F69; 0x399]);
  (0x1FAA, [0x1F6A; 0x399]); (0x1FAB, [0x1F6B; 0x399]);
  (0x1FAC, [0x1F6C; 0x399]); (0x1FAD, [0x1F6D; 0x399]);
  (0x1FAE, [0x1F6E; 0x399]); (0x1FAF, [0x1F6F; 0x399]); (0x1FB0, [0x1FB8]);
  (0x1FB1, [0x1FB9]); (0x1FB2, [0x1FBA; 0x399]); (0x1FB3, [0x391; 0x399]);
  (0x1FB4, [0x386; 0x399]); (0x1FB6, [0x391; 0x342]);
  (0x1FB7, [0x391; 0x342; 0x399]); (0x1FBC, [0x391; 0x399]);
  (0x1FBE, [0x399]); (0x1FC2, [0x1FCA; 0x399]); (0x1FC3, [0x397; 0x399]);
  (0x1FC4, [0x389; 0x399]); (0x1FC6, [0x397; 0x342]);
  (0x1FC7, [0x397; 0x342; 0x399]); (0x1FCC, [0x397; 0x399]);
  (0x1FD0, [0x1FD8]); (0x1FD1, [0x1FD9]); (0x1FD2, [0x399; 0x308; 0x300]);
  (0x1FD3, [0x399; 0x308; 0x301]); (0x1FD6, [0x399; 0x342]);
  (0x1FD7, [0x399; 0x308; 0x342]); (0x1FE0, [0x1FE8]); (0x1FE1, [0x1FE9]);
  (0x1FE2, [0x3A5; 0x308; 0x300]); (0x1FE3, [0x3A5; 0x308; 0x301]);
  (0x1FE4, [0x3A1; 0x313]); (0x1FE5, [0x1FEC]); (0x1FE6, [0x3A5; 0x342]);
  (0x1FE7, [0x3A5; 0x308; 0x342]); (0x1FF2, [0x1FFA; 0x399]);
  (0x1FF3, [0x3A9; 0x399]); (0x1FF4, [0x38F; 0x399]);
  (0x1FF6, [0x3A9; 0x342]); (0x1FF7, [0x3A9; 0x342; 0x399]);
  (0x1FFC, [0x3A9; 0x399]); (0x214E, [0x2132]); (0x2170, [0x2160]);
  (0x2171, [0x2161]); (0x2172, [0x2162]); (0x2173, [0x2163]);
  (0x2174, [0x2164]); (0x2175, [0x2165]); (0x2176, [0x2166]);
  (0x2177, [0x2167]); (0x2178, [0x2168]); (0x2179, [0x2169]);
  (0x217A, [0x216A]); (0x217B, [0x216B]); (0x217C, [0x216C]);
  (0x217D, [0x216D]); (0x217E, [0x216E]); (0x217F, [0x216F]);
  (0x2184, [0x2183]); (0x24D0, [0x24B6]); (0x24D1, [0x24B7]);
  (0x24D2, [0x24B8]); (0x24D3, [0x24B9]); (0x24D4, [0x24BA]);
  (0x24D5, [0x24BB]); (0x24D6, [0x24BC]); (0x24D7, [0x24BD]);
  (0x24D8, [0x24BE]); (0x24D9, [0x24BF]); (0x24DA, [0x24C0]);
  (0x24DB, [0x24C1]); (0x24DC, [0x24C2]); (0x24DD, [0x24C3]);
  (0x24DE, [0x24C4]); (0x24DF, [0x24C5]); (0x24E0, [0x24C6]);
  (0x24E1, [0x24C7]); (0x24E2, [0x24C8]); (0x24E3, [0x24C9]);
  (0x24E4, [0x24CA]); (0x24E5, [0x24CB]); (0x24E6, [0x24CC]);
  (0x24E7, [0x24CD]); (0x24E8, [0x24CE]); (0x24E9, [0x24CF]);
  (0x2C30, [0x2C00]); (0x2C31, [0x2C01]); (0x2C32, [0x2C02]);
  (0x2C33, [0x2C03]); (0x2C34, [0x2C04]); (0x2C35, [0x2C05]);
  (0x2C36, [0x2C06]); (0x2C37, [0x2C07]); (0x2C38, [0x2C08]);
  (0x2C39, [0x2C09]); (0x2C3A, [0x2C0A]); (0x2C3B, [0x2C0B]);
  (0x2C3C, [0x2C0C]); (0x2C3D, [0x2C0D]); (0x2C3E, [0x2C0E]);
  (0x2C3F, [0x2C0F]); (0x2C40, [0x2C10]); (0x2C41, [0x2C11]);
  (0x2C42, [0x2C12]); (0x2C43, [0x2C13]); (0x2C44, [0x2C14]);
  (0x2C45, [0x2C15]); (0x2C46, [0x2C16]); (0x2C47, [0x2C17]);
  (0x2C48, [0x2C18]); (0x2C49, [0x2C19]); (0x2C4A, [0x2C1A]);
  (0x2C4B, [0x2C1B]); (0x2C4C, [0x2C1C]); (0x2C4D, [0x2C1D]);
  (0x2C4E, [0x2C1E]); (0x2C4F, [0x2C1F]); (0x2C50, [0x2C20]);
  (0x2C51, [0x2C21]); (0x2C52, [0x2C22]); (0x2C53, [0x2C23]);
  (0x2C54, [0x2C24]); (0x2C55, [0x2C25]); (0x2C56, [0x2C26]);
  (0x2C57, [0x2C27]); (0x2C58, [0x2C28]); (0x2C59, [0x2C29]);
  (0x2C5A, [0x2C2A]); (0x2C5B, [0x2C2B]); (0x2C5C, [0x2C2C]);
  (0x2C5D, [0x2C2D]); (0x2C5E, [0x2C2E]); (0x2C5F, [0x2C2F]);
  (0x2C61, [0x2C60]); (0x2C65, [0x23A]); (0x2C66, [0x23E]);
  (0x2C68, [0x2C67]); (0x2C6A, [0x2C69]); (0x2C6C, [0x2C6B]);
  (0x2C73, [0x2C72]); (0x2C76, [0x2C75]); (0x2C81, [0x2C80]);
  (0x2C83, [0x2C82]); (0x2C85, [0x2C84]); (0x2C87, [0x2C86]);
  (0x2C89, [0x2C88]); (0x2C8B, [0x2C8A]); (0x2C8D, [0x2C8C]);
  (0x2C8F, [0x2C8E]); (0x2C91, [0x2C90]); (0x2C93, [0x2C92]);
  (0x2C95, [0x2C94]); (0x2C97, [0x2C96]); (0x2C99, [0x2C98]);
  (0x2C9B, [0x2C9A]); (0x2C9D, [0x2C9C]); (0x2C9F, [0x2C9E]);
  (0x2CA1, [0x2CA0]); (0x2CA3, [0x2CA2]); (0x2CA5, [0x2CA4]);
  (0x2CA7, [0x2CA6]); (0x2CA9, [0x2CA8]); (0x2CAB, [0x2CAA]);
  (0x2CAD, [0x2CAC]); (0x2CAF, [0x2CAE]); (0x2CB1, [0x2CB0]);
  (0x2CB3, [0x2CB2]); (0x2CB5, [0x2CB4]); (0x2CB7, [0x2CB6]);
  (0x2CB9, [0x2CB8]); (0x2CBB, [0x2CBA]); (0x2CBD, [0x2CBC]);
  (0x2CBF, [0x2CBE]); (0x2CC1, [0x2CC0]); (0x2CC3, [0x2CC2]);
  (0x2CC5, [0x2CC4]); (0x2CC7, [0x2CC6]); (0x2CC9, [0x2CC8]);
  (0x2CCB, [0x2CCA]); (0x2CCD, [0x2CCC]); (0x2CCF, [0x2CCE]);
  (0x2CD1, [0x2CD0]); (0x2CD3, [0x2CD2]); (0x2CD5, [0x2CD4]);
  (0x2CD7, [0x2CD6]); (0x2CD9, [0x2CD8]); (0x2CDB, [0x2CDA]);
  (0x2CDD, [0x2CDC]); (0x2CDF, [0x2CDE]); (0x2CE1, [0x2CE0]);
  (0x2CE3, [0x2CE2]); (0x2CEC, [0x2CEB]); (0x2CEE, [0x2CED]);
  (0x2CF3, [0x2CF2]); (0x2D00, [0x10A0]); (0x2D01, [0x10A1]);
  (0x2D02, [0x10A2]); (0x2D03, [0x10A3]); (0x2D04, [0x10A4]);
  (0x2D05, [0x10A5]); (0x2D06, [0x10A6]); (0x2D07, [0x10A7]);
  (0x2D08, [0x10A8]); (0x2D09, [0x10A9]); (0x2D0A, [0x10AA]);
  (0x2D0B, [0x10AB]); (0x2D0C, [0x10AC]); (0x2D0D, [0x10AD]);
  (0x2D0E, [0x10AE]); (0x2D0F, [0x10AF]); (0x2D10, [0x10B0]);
  (0x2D11, [0x10B1]); (0x2D12, [0x10B2]); (0x2D13, [0x10B3]);
  (0x2D14, [0x10B4]); (0x2D15, [0x10B5]); (0x2D16, [0x10B6]);
  (0x2D17, [0x10B7]); (0x2D18, [0x10B8]); (0x2D19, [0x10B9]);
  (0x2D1A, [0x10BA]); (0x2D1B, [0x10BB]); (0x2D1C, [0x10BC]);
  (0x2D1D, [0x10BD]); (0x2D1E, [0x10BE]); (0x2D1F, [0x10BF]);
  (0x2D20, [0x10C0]); (0x2D21, [0x10C1]); (0x2D22, [0x10C2]);
  (0x2D23, [0x10C3]); (0x2D24, [0x10C4]); (0x2D25, [0x10C5]);
  (0x2D27, [0x10C7]); (0x2D2D, [0x10CD]); (0xA641, [0xA640]);
  (0xA643, [0xA642]); (0xA645, [0xA644]); (0xA647, [0xA646]);
  (0xA649, [0xA648]); (0xA64B, [0xA64A]); (0xA64D, [0xA64C]);
  (0xA64F, [0xA64E]); (0xA651, [0xA650]); (0xA653, [0xA652]);
  (0xA655, [0xA654]); (0xA657, [0xA656]); (0xA659, [0xA658]);
  (0xA65B, [0xA65A]); (0xA65D, [0xA65C]); (0xA65F, [0xA65E]);
  (0xA661, [0xA660]); (0xA663, [0xA662]); (0xA665, [0xA664]);
  (0xA667, [0xA666]); (0xA669, [0xA668]); (0xA66B, [0xA66A]);
  (0xA66D, [0xA66C]); (0xA681, [0xA680]); (0xA683, [0xA682]);
  (0xA685, [0xA684]); (0xA687, [0xA686]); (0xA689, [0xA688]);
  (0xA68B, [0xA68A]); (0xA68D, [0xA68C]); (0xA68F, [0xA68E]);
  (0xA691, [0xA690]); (0xA693, [0xA692]); (0xA695, [0xA694]);
  (0xA697, [0xA696]); (0xA699, [0xA698]); (0xA69B, [0xA69A]);
  (0xA723, [0xA722]); (0xA725, [0xA724]); (0xA727, [0xA726]);
  (0xA729, [0xA728]); (0xA72B, [0xA72A]); (0xA72D, [0xA72C]);
  (0xA72F, [0xA72E]); (0xA733, [0xA732]); (0xA735, [0xA734]);
  (0xA737, [0xA736]); (0xA739, [0xA738]); (0xA73B, [0xA73A]);
  (0xA73D, [0xA73C]); (0xA73F, [0xA73E]); (0xA741, [0xA740]);
  (0xA743, [0xA742]); (0xA745, [0xA744]); (0xA747, [0xA746]);
  (0xA749, [0xA748]); (0xA74B, [0xA74A]); (0xA74D, [0xA74C]);
  (0xA74F, [0xA74E]); (0xA751, [0xA750]); (0xA753, [0xA752]);
  (0xA755, [0xA754]); (0xA757, [0xA756]); (0xA759, [0xA758]);
  (0xA75B, [0xA75A]); (0xA75D, [0xA75C]); (0xA75F, [0xA75E]);
  (0xA761, [0xA760]); (0xA763, [0xA762]); (0xA765, [0xA764]);
  (0xA767, [0xA766]); (0xA769, [0xA768]); (0xA76B, [0xA76A]);
  (0xA76D, [0xA76C]); (0xA76F, [0xA76E]); (0xA77A, [0xA779]);
  (0xA77C, [0xA77B]); (0xA77F, [0xA77E]); (0xA781, [0xA780]);
  (0xA783, [0xA782]); (0xA785, [0xA784]); (0xA787, [0xA786]);
  (0xA78C, [0xA78B]); (0xA791, [0xA790]); (0xA793, [0xA792]);
  (0xA794, [0xA7C4]); (0xA797, [0xA796]); (0xA799, [0xA798]);
  (0xA79B, [0xA79A]); (0xA79D, [0xA79C]); (0xA79F, [0xA79E]);
  (0xA7A1, [0xA7A0]); (0xA7A3, [0xA7A2]); (0xA7A5, [0xA7A4]);
  (0xA7A7, [0xA7A6]); (0xA7A9, [0xA7A8]); (0xA7B5, [0xA7B4]);
  (0xA7B7, [0xA7B6]); (0xA7B9, [0xA7B8]); (0xA7BB, [0xA7BA]);
  (0xA7BD, [0xA7BC]); (0xA7BF, [0xA7BE]); (0xA7C1, [0xA7C0]);
  (0xA7C3, [0xA7C2]); (0xA7C8, [0xA7C7]); (0xA7CA, [0xA7C9]);
  (0xA7D1, [0xA7D0]); (0xA7D7, [0xA7D6]); (0xA7D9, [0xA7D8]);
  (0xA7F6, [0xA7F5]); (0xAB53, [0xA7B3]); (0xAB70, [0x13A0]);
  (0xAB71, [0x13A1]); (0xAB72, [0x13A2]); (0xAB73, [0x13A3]);
  (0xAB74, [0x13A4]); (0xAB75, [0x13A5]); (0xAB76, [0x13A6]);
  (0xAB77, [0x13A7]); (0xAB78, [0x13A8]); (0xAB79, [0x13A9]);
  (0xAB7A, [0x13AA]); (0xAB7B, [0x13AB]); (0xAB7C, [0x13AC]);
  (0xAB7D, [0x13AD]); (0xAB7E, [0x13AE]); (0xAB7F, [0x13AF]);
  (0xAB80, [0x13B0]); (0xAB81, [0x13B1]); (0xAB82, [0x13B2]);
  (0xAB83, [0x13B3]); (0xAB84, [0x13B4]); (0xAB85, [0x13B5]);
  (0xAB86, [0x13B6]); (0xAB87, [0x13B7]); (0xAB88, [0x13B8]);
  (0xAB89, [0x13B9]); (0xAB8A, [0x13BA]); (0xAB8B, [0x13BB]);
  (0xAB8C, [0x13BC]); (0xAB8D, [0x13BD]); (0xAB8E, [0x13BE]);
  (0xAB8F, [0x13BF]); (0xAB90, [0x13C0]); (0xAB91, [0x13C1]);
  (0xAB92, [0x13C2]); (0xAB93, [0x13C3]); (0xAB94, [0x13C4]);
  (0xAB95, [0x13C5]); (0xAB96, [0x13C6]); (0xAB97, [0x13C7]);
  (0xAB98, [0x13C8]); (0xAB99, [0x13C9]); (0xAB9A, [0x13CA]);
  (0xAB9B, [0x13CB]); (0xAB9C, [0x13CC]); (0xAB9D, [0x13CD]);
  (0xAB9E, [0x13CE]); (0xAB9F, [0x13CF]); (0xABA0, [0x13D0]);
  (0xABA1, [0x13D1]); (0xABA2, [0x13D2]); (0xABA3, [0x13D3]);
  (0xABA4, [0x13D4]); (0xABA5, [0x13D5]); (0xABA6, [0x13D6]);
  (0xABA7, [0x13D7]); (0xABA8, [0x13D8]); (0xABA9, [0x13D9]);
  (0xABAA, [0x13DA]); (0xABAB, [0x13DB]); (0xABAC, [0x13DC]);
  (0xABAD, [0x13DD]); (0xABAE, [0x13DE]); (0xABAF, [0x13DF]);
  (0xABB0, [0x13E0]); (0xABB1, [0x13E1]); (0xABB2, [0x13E2]);
  (0xABB3, [0x13E3]); (0xABB4, [0x13E4]); (0xABB5, [0x13E5]);
  (0xABB6, [0x13E6]); (0xABB7, [0x13E7]); (0xABB8, [0x13E8]);
  (0xABB9, [0x13E9]); (0xABBA, [0x13EA]); (0xABBB, [0x13EB]);
  (0xABBC, [0x13EC]); (0xABBD, [0x13ED]); (0xABBE, [0x13EE]);
  (0xABBF, [0x13EF]); (0xFB00, [0x46; 0x46]); (0xFB01, [0x46; 0x49]);
  (0xFB02, [0x46; 0x4C]); (0xFB03, [0x46; 0x46; 0x49]);
  (0xFB04, [0x46; 0x46; 0x4C]); (0xFB05, [0x53; 0x54]);
  (0xFB06, [0x53; 0x54]); (0xFB13, [0x544; 0x546]);
  (0xFB14, [0x544; 0x535]); (0xFB15, [0x544; 0x53B]);
  (0xFB16, [0x54E; 0x546]); (0xFB17, [0x544; 0x53D]); (0xFF41, [0xFF21]);
  (0xFF42, [0xFF22]); (0xFF43, [0xFF23]); (0xFF44, [0xFF24]);
  (0xFF45, [0xFF25]); (0xFF46, [0xFF26]); (0xFF47, [0xFF27]);
  (0xFF48, [0xFF28]); (0xFF49, [0xFF29]); (0xFF4A, [0xFF2A]);
  (0xFF4B, [0xFF2B]); (0xFF4C, [0xFF2C]); (0xFF4D, [0xFF2D]);
  (0xFF4E, [0xFF2E]); (0xFF4F, [0xFF2F]); (0xFF50, [0xFF30]);
  (0xFF51, [0xFF31]); (0xFF52, [0xFF32]); (0xFF53, [0xFF33]);
  (0xFF54, [0xFF34]); (0xFF55, [0xFF35]); (0xFF56, [0xFF36]);
  (0xFF57, [0xFF37]); (0xFF58, [0xFF38]); (0xFF59, [0xFF39]);
  (0xFF5A, [0xFF3A]); (0x10428, [0x10400]); (0x10429, [0x10401]);
  (0x1042A, [0x10402]); (0x1042B, [0x10403]); (0x1042C, [0x10404]);
  (0x1042D, [0x10405]); (0x1042E, [0x10406]); (0x1042F, [0x10407]);
  (0x10430, [0x10408]); (0x10431, [0x10409]); (0x10432, [0x1040A]);
  (0x10433, [0x1040B]); (0x10434, [0x1040C]); (0x10435, [0x1040D]);
  (0x10436, [0x1040E]); (0x10437, [0x1040F]); (0x10438, [0x10410]);
  (0x10439, [0x10411]); (0x1043A, [0x10412]); (0x1043B, [0x10413]);
  (0x1043C, [0x10414]); (0x1043D, [0x10415]); (0x1043E, [0x10416]);
  (0x1043F, [0x10417]); (0x10440, [0x10418]); (0x10441, [0x10419]);
  (0x10442, [0x1041A]); (0x10443, [0x1041B]); (0x10444, [0x1041C]);
  (0x10445, [0x1041D]); (0x10446, [0x1041E]); (0x10447, [0x1041F]);
  (0x10448, [0x10420]); (0x10449, [0x10421]); (0x1044A, [0x10422]);
  (0x1044B, [0x10423]); (0x1044C, [0x10424]); (0x1044D, [0x10425]);
  (0x1044E, [0x10426]); (0x1044F, [0x10427]); (0x104D8, [0x104B0]);
  (0x104D9, [0x104B1]); (0x104DA, [0x104B2]); (0x104DB, [0x104B3]);
  (0x104DC, [0x104B4]); (0x104DD, [0x104B5]); (0x104DE, [0x104B6]);
  (0x104DF, [0x104B7]); (0x104E0, [0x104B8]); (0x104E1, [0x104B9]);
  (0x104E2, [0x104BA]); (0x104E3, [0x104BB]); (0x104E4, [0x104BC]);
  (0x104E5, [0x104BD]); (0x104E6, [0x104BE]); (0x104E7, [0x104BF]);
  (0x104E8, [0x104C0]); (0x104E9, [0x104C1]); (0x104EA, [0x104C2]);
  (0x104EB, [0x104C3]); (0x104EC, [0x104C4]); (0x104ED, [0x104C5]);
  (0x104EE, [0x104C6]); (0x104EF, [0x104C7]); (0x104F0, [0x104C8]);
  (0x104F1, [0x104C9]); (0x104F2, [0x104CA]); (0x104F3, [0x104CB]);
  (0x104F4, [0x104CC]); (0x104F5, [0x104CD]); (0x104F6, [0x104CE]);
  (0x104F7, [0x104CF]); (0x104F8, [0x104D0]); (0x104F9, [0x104D1]);
  (0x104FA, [0x104D2]); (0x104FB, [0x104D3]); (0x10597, [0x10570]);
  (0x10598, [0x10571]); (0x10599, [0x10572]); (0x1059A, [0x10573]);
  (0x1059B, [0x10574]); (0x1059C, [0x10575]); (0x1059D, [0x10576]);
  (0x1059E, [0x10577]); (0x1059F, [0x10578]); (0x105A0, [0x10579]);
  (0x105A1, [0x1057A]); (0x105A3, [0x1057C]); (0x105A4, [0x1057D]);
  (0x105A5, [0x1057E]); (0x105A6, [0x1057F]); (0x105A7, [0x10580]);
  (0x105A8, [0x10581]); (0x105A9, [0x10582]); (0x105AA, [0x10583]);
  (0x105AB, [0x10584]); (0x105AC, [0x10585]); (0x105AD, [0x10586]);
  (0x105AE, [0x10587]); (0x105AF, [0x10588]); (0x105B0, [0x10589]);
  (0x105B1, [0x1058A]); (0x105B3, [0x1058C]); (0x105B4, [0x1058D]);
  (0x105B5, [0x1058E]); (0x105B6, [0x1058F]); (0x105B7, [0x10590]);
  (0x105B8, [0x10591]); (0x105B9, [0x10592]); (0x105BB, [0x10594]);
  (0x105BC, [0x10595]); (0x10CC0, [0x10C80]); (0x10CC1, [0x10C81]);
  (0x10CC2, [0x10C82]); (0x10CC3, [0x10C83]); (0x10CC4, [0x10C84]);
  (0x10CC5, [0x10C85]); (0x10CC6, [0x10C86]); (0x10CC7, [0x10C87]);
  (0x10CC8, [0x10C88]); (0x10CC9, [0x10C89]); (0x10CCA, [0x10C8A]);
  (0x10CCB, [0x10C8B]); (0x10CCC, [0x10C8C]); (0x10CCD, [0x10C8D]);
  (0x10CCE, [0x10C8E]); (0x10CCF, [0x10C8F]); (0x10CD0, [0x10C90]);
  (0x10CD1, [0x10C91]); (0x10CD2, [0x10C92]); (0x10CD3, [0x10C93]);
  (0x10CD4, [0x10C94]); (0x10CD5, [0x10C95]); (0x10CD6, [0x10C96]);
  (0x10CD7, [0x10C97]); (0x10CD8, [0x10C98]); (0x10CD9, [0x10C99]);
  (0x10CDA, [0x10C9A]); (0x10CDB, [0x10C9B]); (0x10CDC, [0x10C9C]);
  (0x10CDD, [0x10C9D]); (0x10CDE, [0x10C9E]); (0x10CDF, [0x10C9F]);
  (0x10CE0, [0x10CA0]); (0x10CE1, [0x10CA1]); (0x10CE2, [0x10CA2]);
  (0x10CE3, [0x10CA3]); (0x10CE4, [0x10CA4]); (0x10CE5, [0x10CA5]);
  (0x10CE6, [0x10CA6]); (0x10CE7, [0x10CA7]); (0x10CE8, [0x10CA8]);
  (0x10CE9, [0x10CA9]); (0x10CEA, [0x10CAA]); (0x10CEB, [0x10CAB]);
  (0x10CEC, [0x10CAC]); (0x10CED, [0x10CAD]); (0x10CEE, [0x10CAE]);
  (0x10CEF, [0x10CAF]); (0x10CF0, [0x10CB0]); (0x10CF1, [0x10CB1]);
  (0x10CF2, [0x10CB2]); (0x118C0, [0x118A0]); (0x118C1, [0x118A1]);
  (0x118C2, [0x118A2]); (0x118C3, [0x118A3]); (0x118C4, [0x118A4]);
  (0x118C5, [0x118A5]); (0x118C6, [0x118A6]); (0x118C7, [0x118A7]);
  (0x118C8, [0x118A8]); (0x118C9, [0x118A9]); (0x118CA, [0x118AA]);
  (0x118CB, [0x118AB]); (0x118CC, [0x118AC]); (0x118CD, [0x118AD]);
  (0x118CE, [0x118AE]); (0x118CF, [0x118AF]); (0x118D0, [0x118B0]);
  (0x118D1, [0x118B1]); (0x118D2, [0x118B2]); (0x118D3, [0x118B3]);
  (0x118D4, [0x118B4]); (0x118D5, [0x118B5]); (0x118D6, [0x118B6]);
  (0x118D7, [0x118B7]); (0x118D8, [0x118B8]); (0x118D9, [0x118B9]);
  (0x118DA, [0x118BA]); (0x118DB, [0x118BB]); (0x118DC, [0x118BC]);
  (0x118DD, [0x118BD]); (0x118DE, [0x118BE]); (0x118DF, [0x118BF]);
  (0x16E60, [0x16E40]); (0x16E61, [0x16E41]); (0x16E62, [0x16E42]);
  (0x16E63, [0x16E43]); (0x16E64, [0x16E44]); (0x16E65, [0x16E45]);
  (0x16E66, [0x16E46]); (0x16E67, [0x16E47]); (0x16E68, [0x16E48]);
  (0x16E69, [0x16E49]); (0x16E6A, [0x16E4A]); (0x16E6B, [0x16E4B]);
  (0x16E6C, [0x16E4C]); (0x16E6D, [0x16E4D]); (0x16E6E, [0x16E4E]);
  (0x16E6F, [0x16E4F]); (0x16E70, [0x16E50]); (0x16E71, [0x16E51]);
  (0x16E72, [0x16E52]); (0x16E73, [0x16E53]); (0x16E74, [0x16E54]);
  (0x16E75, [0x16E55]); (0x16E76, [0x16E56]); (0x16E77, [0x16E57]);
  (0x16E78, [0x16E58]); (0x16E79, [0x16E59]); (0x16E7A, [0x16E5A]);
  (0x16E7B, [0x16E5B]); (0x16E7C, [0x16E5C]); (0x16E7D, [0x16E5D]);
  (0x16E7E, [0x16E5E]); (0x16E7F, [0x16E5F]); (0x1E922, [0x1E900]);
  (0x1E923, [0x1E901]); (0x1E924, [0x1E902]); (0x1E925, [0x1E903]);
  (0x1E926, [0x1E904]); (0x1E927, [0x1E905]); (0x1E928, [0x1E906]);
  (0x1E929, [0x1E907]); (0x1E92A, [0x1E908]); (0x1E92B, [0x1E909]);
  (0x1E92C, [0x1E90A]); (0x1E92D, [0x1E90B]); (0x1E92E, [0x1E90C]);
  (0x1E92F, [0x1E90D]); (0x1E930, [0x1E90E]); (0x1E931, [0x1E90F]);
  (0x1E932, [0x1E910]); (0x1E933, [0x1E911]); (0x1E934, [0x1E912]);
  (0x1E935, [0x1E913]); (0x1E936, [0x1E914]); (0x1E937, [0x1E915]);
  (0x1E938, [0x1E916]); (0x1E939, [0x1E917]); (0x1E93A, [0x1E918]);
  (0x1E93B, [0x1E919]); (0x1E93C, [0x1E91A]); (0x1E93D, [0x1E91B]);
  (0x1E93E, [0x1E91C]); (0x1E93F, [0x1E91D]); (0x1E940, [0x1E91E]);
  (0x1E941, [0x1E91F]); (0x1E942, [0x1E920]); (0x1E943, [0x1E921])
]%N.

(** The derived property [Cased], as ranges. *)
Definition casedRanges : list (codePoint * codePoint) := [
  (0x41, 0x5A); (0x61, 0x7A); (0xAA, 0xAA); (0xB5, 0xB5); (0xBA, 0xBA);
  (0xC0, 0xD6); (0xD8, 0xF6); (0xF8, 0x1BA); (0x1BC, 0x1BF); (0x1C4, 0x293);
  (0x295, 0x2B8); (0x2C0, 0x2C1); (0x2E0, 0x2E4); (0x345, 0x345);
  (0x370, 0x373); (0x376, 0x377); (0x37A, 0x37D); (0x37F, 0x37F);
  (0x386, 0x386); (0x388, 0x38A); (0x38C, 0x38C); (0x38E, 0x3A1);
  (0x3A3, 0x3F5); (0x3F7, 0x481); (0x48A, 0x52F); (0x531, 0x556);
  (0x560, 0x588); (0x10A0, 0x10C5); (0x10C7, 0x10C7); (0x10CD, 0x10CD);
  (0x10D0, 0x10FA); (0x10FD, 0x10FF); (0x13A0, 0x13F5); (0x13F8, 0x13FD);
  (0x1C80, 0x1C88); (0x1C90, 0x1CBA); (0x1CBD, 0x1CBF); (0x1D00, 0x1DBF);
  (0x1E00, 0x1F15); (0x1F18, 0x1F1D); (0x1F20, 0x1F45); (0x1F48, 0x1F4D);
  (0x1F50, 0x1F57); (0x1F59, 0x1F59); (0x1F5B, 0x1F5B); (0x1F5D, 0x1F5D);
  (0x1F5F, 0x1F7D); (0x1F80, 0x1FB4); (0x1FB6, 0x1FBC); (0x1FBE, 0x1FBE);
  (0x1FC2, 0x1FC4); (0x1FC6, 0x1FCC); (0x1FD0, 0x1FD3); (0x1FD6, 0x1FDB);
  (0x1FE0, 0x1FEC); (0x1FF2, 0x1FF4); (0x1FF6, 0x1FFC); (0x2071, 0x2071);
  (0x207F, 0x207F); (0x2090, 0x209C); (0x2102, 0x2102); (0x2107, 0x2107);
  (0x210A, 0x2113); (0x2115, 0x2115); (0x2119, 0x211D); (0x2124, 0x2124);
  (0x2126, 0x2126); (0x2128, 0x2128); (0x212A, 0x212D); (0x212F, 0x2134);
  (0x2139, 0x2139); (0x213C, 0x213F); (0x2145, 0x2149); (0x214E, 0x214E);
  (0x2160, 0x217F); (0x2183, 0x2184); (0x24B6, 0x24E9); (0x2C00, 0x2CE4);
  (0x2CEB, 0x2CEE); (0x2CF2, 0x2CF3); (0x2D00, 0x2D25); (0x2D27, 0x2D27);
  (0x2D2D, 0x2D2D); (0xA640, 0xA66D); (0xA680, 0xA69D); (0xA722, 0xA787);
  (0xA78B, 0xA78E); (0xA790, 0xA7CA); (0xA7D0, 0xA7D1); (0xA7D3, 0xA7D3);
  (0xA7D5, 0xA7D9); (0xA7F5, 0xA7F6); (0xA7F8, 0xA7FA); (0xAB30, 0xAB5A);
  (0xAB5C, 0xAB68); (0xAB70, 0xABBF); (0xFB00, 0xFB06); (0xFB13, 0xFB17);
  (0xFF21, 0xFF3A); (0xFF41, 0xFF5A); (0x10400, 0x1044F);
  (0x104B0, 0x104D3); (0x104D8, 0x104FB); (0x10570, 0x1057A);
  (0x1057C, 0x1058A); (0x1058C, 0x10592); (0x10594, 0x10595);
  (0x10597, 0x105A1); (0x105A3, 0x105B1); (0x105B3, 0x105B9);
  (0x105BB, 0x105BC); (0x10780, 0x10780); (0x10783, 0x10785);
  (0x10787, 0x107B0); (0x107B2, 0x107BA); (0x10C80, 0x10CB2);
  (0x10CC0, 0x10CF2); (0x118A0, 0x118DF); (0x16E40, 0x16E7F);
  (0x1D400, 0x1D454); (0x1D456, 0x1D49C); (0x1D49E, 0x1D49F);
  (0x1D4A2, 0x1D4A2); (0x1D4A5, 0x1D4A6); (0x1D4A9, 0x1D4AC);
  (0x1D4AE, 0x1D4B9); (0x1D4BB, 0x1D4BB); (0x1D4BD, 0x1D4C3);
  (0x1D4C5, 0x1D505); (0x1D507, 0x1D50A); (0x1D50D, 0x1D514);
  (0x1D516, 0x1D51C); (0x1D51E, 0x1D539); (0x1D53B, 0x1D53E);
  (0x1D540, 0x1D544); (0x1D546, 0x1D546); (0x1D54A, 0x1D550);
  (0x1D552, 0x1D6A5); (0x1D6A8, 0x1D6C0); (0x1D6C2, 0x1D6DA);
  (0x1D6DC, 0x1D6FA); (0x1D6FC, 0x1D714); (0x1D716, 0x1D734);
  (0x1D736, 0x1D74E); (0x1D750, 0x1D76E); (0x1D770, 0x1D788);
  (0x1D78A, 0x1D7A8); (0x1D7AA, 0x1D7C2); (0x1D7C4, 0x1D7CB);
  (0x1DF00, 0x1DF09); (0x1DF0B, 0x1DF1E); (0x1E900, 0x1E943);
  (0x1F130, 0x1F149); (0x1F150, 0x1F169); (0x1F170, 0x1F189)
]%N.

(** The derived property [Case_Ignorable], as ranges. *)
Definition caseIgnorableRanges : list (codePoint * codePoint) := [
  (0x27, 0x27); (0x2E, 0x2E); (0x3A, 0x3A); (0x5E, 0x5E); (0x60, 0x60);
  (0xA8, 0xA8); (0xAD, 0xAD); (0xAF, 0xAF); (0xB4, 0xB4); (0xB7, 0xB8);
  (0x2B0, 0x36F); (0x374, 0x375); (0x37A, 0x37A); (0x384, 0x385);
  (0x387, 0x387); (0x483, 0x489); (0x559, 0x559); (0x55F, 0x55F);
  (0x591, 0x5BD); (0x5BF, 0x5BF); (0x5C1, 0x5C2); (0x5C4, 0x5C5);
  (0x5C7, 0x5C7); (0x5F4, 0x5F4); (0x600, 0x605); (0x610, 0x61A);
  (0x61C, 0x61C); (0x640, 0x640); (0x64B, 0x65F); (0x670, 0x670);
  (0x6D6, 0x6DD); (0x6DF, 0x6E8); (0x6EA, 0x6ED); (0x70F, 0x70F);
  (0x711, 0x711); (0x730, 0x74A); (0x7A6, 0x7B0); (0x7EB, 0x7F5);
  (0x7FA, 0x7FA); (0x7FD, 0x7FD); (0x816, 0x82D); (0x859, 0x85B);
  (0x888, 0x888); (0x890, 0x891); (0x898, 0x89F); (0x8C9, 0x902);
  (0x93A, 0x93A); (0x93C, 0x93C); (0x941, 0x948); (0x94D, 0x94D);
  (0x951, 0x957); (0x962, 0x963); (0x971, 0x971); (0x981, 0x981);
  (0x9BC, 0x9BC); (0x9C1, 0x9C4); (0x9CD, 0x9CD); (0x9E2, 0x9E3);
  (0x9FE, 0x9FE); (0xA01, 0xA02); (0xA3C, 0xA3C); (0xA41, 0xA42);
  (0xA47, 0xA48); (0xA4B, 0xA4D); (0xA51, 0xA51); (0xA70, 0xA71);
  (0xA75, 0xA75); (0xA81, 0xA82); (0xABC, 0xABC); (0xAC1, 0xAC5);
  (0xAC7, 0xAC8); (0xACD, 0xACD); (0xAE2, 0xAE3); (0xAFA, 0xAFF);
  (0xB01, 0xB01); (0xB3C, 0xB3C); (0xB3F, 0xB3F); (0xB41, 0xB44);
  (0xB4D, 0xB4D); (0xB55, 0xB56); (0xB62, 0xB63); (0xB82, 0xB82);
  (0xBC0, 0xBC0); (0xBCD, 0xBCD); (0xC00, 0xC00); (0xC04, 0xC04);
  (0xC3C, 0xC3C); (0xC3E, 0xC40); (0xC46, 0xC48); (0xC4A, 0xC4D);
  (0xC55, 0xC56); (0xC62, 0xC63); (0xC81, 0xC81); (0xCBC, 0xCBC);
  (0xCBF, 0xCBF); (0xCC6, 0xCC6); (0xCCC, 0xCCD); (0xCE2, 0xCE3);
  (0xD00, 0xD01); (0xD3B, 0xD3C); (0xD41, 0xD44); (0xD4D, 0xD4D);
  (0xD62, 0xD63); (0xD81, 0xD81); (0xDCA, 0xDCA); (0xDD2, 0xDD4);
  (0xDD6, 0xDD6); (0xE31, 0xE31); (0xE34, 0xE3A); (0xE46, 0xE4E);
  (0xEB1, 0xEB1); (0xEB4, 0xEBC); (0xEC6, 0xEC6); (0xEC8, 0xECD);
  (0xF18, 0xF19); (0xF35, 0xF35); (0xF37, 0xF37); (0xF39, 0xF39);
  (0xF71, 0xF7E); (0xF80, 0xF84); (0xF86, 0xF87); (0xF8D, 0xF97);
  (0xF99, 0xFBC); (0xFC6, 0xFC6); (0x102D, 0x1030); (0x1032, 0x1037);
  (0x1039, 0x103A); (0x103D, 0x103E); (0x1058, 0x1059); (0x105E, 0x1060);
  (0x1071, 0x1074); (0x1082, 0x1082); (0x1085, 0x1086); (0x108D, 0x108D);
  (0x109D, 0x109D); (0x10FC, 0x10FC); (0x135D, 0x135F); (0x1712, 0x1714);
  (0x1732, 0x1733); (0x1752, 0x1753); (0x1772, 0x1773); (0x17B4, 0x17B5);
  (0x17B7, 0x17BD); (0x17C6, 0x17C6); (0x17C9, 0x17D3); (0x17D7, 0x17D7);
  (0x17DD, 0x17DD); (0x180B, 0x180F); (0x1843, 0x1843); (0x1885, 0x1886);
  (0x18A9, 0x18A9); (0x1920, 0x1922); (0x1927, 0x1928); (0x1932, 0x1932);
  (0x1939, 0x193B); (0x1A17, 0x1A18); (0x1A1B, 0x1A1B); (0x1A56, 0x1A56);
  (0x1A58, 0x1A5E); (0x1A60, 0x1A60); (0x1A62, 0x1A62); (0x1A65, 0x1A6C);
  (0x1A73, 0x1A7C); (0x1A7F, 0x1A7F); (0x1AA7, 0x1AA7); (0x1AB0, 0x1ACE);
  (0x1B00, 0x1B03); (0x1B34, 0x1B34); (0x1B36, 0x1B3A); (0x1B3C, 0x1B3C);
  (0x1B42, 0x1B42); (0x1B6B, 0x1B73); (0x1B80, 0x1B81); (0x1BA2, 0x1BA5);
  (0x1BA8, 0x1BA9); (0x1BAB, 0x1BAD); (0x1BE6, 0x1BE6); (0x1BE8, 0x1BE9);
  (0x1BED, 0x1BED); (0x1BEF, 0x1BF1); (0x1C2C, 0x1C33); (0x1C36, 0x1C37);
  (0x1C78, 0x1C7D); (0x1CD0, 0x1CD2); (0x1CD4, 0x1CE0); (0x1CE2, 0x1CE8);
  (0x1CED, 0x1CED); (0x1CF4, 0x1CF4); (0x1CF8, 0x1CF9); (0x1D2C, 0x1D6A);
  (0x1D78, 0x1D78); (0x1D9B, 0x1DFF); (0x1FBD, 0x1FBD); (0x1FBF, 0x1FC1);
  (0x1FCD, 0x1FCF); (0x1FDD, 0x1FDF); (0x1FED, 0x1FEF); (0x1FFD, 0x1FFE);
  (0x200B, 0x200F); (0x2018, 0x2019); (0x2024, 0x2024); (0x2027, 0x2027);
  (0x202A, 0x202E); (0x2060, 0x2064); (0x2066, 0x206F); (0x2071, 0x2071);
  (0x207F, 0x207F); (0x2090, 0x209C); (0x20D0, 0x20F0); (0x2C7C, 0x2C7D);
  (0x2CEF, 0x2CF1); (0x2D6F, 0x2D6F); (0x2D7F, 0x2D7F); (0x2DE0, 0x2DFF);
  (0x2E2F, 0x2E2F); (0x3005, 0x3005); (0x302A, 0x302D); (0x3031, 0x3035);
  (0x303B, 0x303B); (0x3099, 0x309E); (0x30FC, 0x30FE); (0xA015, 0xA015);
  (0xA4F8, 0xA4FD); (0xA60C, 0xA60C); (0xA66F, 0xA672); (0xA674, 0xA67D);
  (0xA67F, 0xA67F); (0xA69C, 0xA69F); (0xA6F0, 0xA6F1); (0xA700, 0xA721);
  (0xA770, 0xA770); (0xA788, 0xA78A); (0xA7F2, 0xA7F4); (0xA7F8, 0xA7F9);
  (0xA802, 0xA802); (0xA806, 0xA806); (0xA80B, 0xA80B); (0xA825, 0xA826);
  (0xA82C, 0xA82C); (0xA8C4, 0xA8C5); (0xA8E0, 0xA8F1); (0xA8FF, 0xA8FF);
  (0xA926, 0xA92D); (0xA947, 0xA951); (0xA980, 0xA982); (0xA9B3, 0xA9B3);
  (0xA9B6, 0xA9B9); (0xA9BC, 0xA9BD); (0xA9CF, 0xA9CF); (0xA9E5, 0xA9E6);
  (0xAA29, 0xAA2E); (0xAA31, 0xAA32); (0xAA35, 0xAA36); (0xAA43, 0xAA43);
  (0xAA4C, 0xAA4C); (0xAA70, 0xAA70); (0xAA7C, 0xAA7C); (0xAAB0, 0xAAB0);
  (0xAAB2, 0xAAB4); (0xAAB7, 0xAAB8); (0xAABE, 0xAABF); (0xAAC1, 0xAAC1);
  (0xAADD, 0xAADD); (0xAAEC, 0xAAED); (0xAAF3, 0xAAF4); (0xAAF6, 0xAAF6);
  (0xAB5B, 0xAB5F); (0xAB69, 0xAB6B); (0xABE5, 0xABE5); (0xABE8, 0xABE8);
  (0xABED, 0xABED); (0xFB1E, 0xFB1E); (0xFBB2, 0xFBC2); (0xFE00, 0xFE0F);
  (0xFE13, 0xFE13); (0xFE20, 0xFE2F); (0xFE52, 0xFE52); (0xFE55, 0xFE55);
  (0xFEFF, 0xFEFF); (0xFF07, 0xFF07); (0xFF0E, 0xFF0E); (0xFF1A, 0xFF1A);
  (0xFF3E, 0xFF3E); (0xFF40, 0xFF40); (0xFF70, 0xFF70); (0xFF9E, 0xFF9F);
  (0xFFE3, 0xFFE3); (0xFFF9, 0xFFFB); (0x101FD, 0x101FD);
  (0x102E0, 0x102E0); (0x10376, 0x1037A); (0x10780, 0x10785);
  (0x10787, 0x107B0); (0x107B2, 0x107BA); (0x10A01, 0x10A03);
  (0x10A05, 0x10A06); (0x10A0C, 0x10A0F); (0x10A38, 0x10A3A);
  (0x10A3F, 0x10A3F); (0x10AE5, 0x10AE6); (0x10D24, 0x10D27);
  (0x10EAB, 0x10EAC); (0x10F46, 0x10F50); (0x10F82, 0x10F85);
  (0x11001, 0x11001); (0x11038, 0x11046); (0x11070, 0x11070);
  (0x11073, 0x11074); (0x1107F, 0x11081); (0x110B3, 0x110B6);
  (0x110B9, 0x110BA); (0x110BD, 0x110BD); (0x110C2, 0x110C2);
  (0x110CD, 0x110CD); (0x11100, 0x11102); (0x11127, 0x1112B);
  (0x1112D, 0x11134); (0x11173, 0x11173); (0x11180, 0x11181);
  (0x111B6, 0x111BE); (0x111C9, 0x111CC); (0x111CF, 0x111CF);
  (0x1122F, 0x11231); (0x11234, 0x11234); (0x11236, 0x11237);
  (0x1123E, 0x1123E); (0x112DF, 0x112DF); (0x112E3, 0x112EA);
  (0x11300, 0x11301); (0x1133B, 0x1133C); (0x11340, 0x11340);
  (0x11366, 0x1136C); (0x11370, 0x11374); (0x11438, 0x1143F);
  (0x11442, 0x11444); (0x11446, 0x11446); (0x1145E, 0x1145E);
  (0x114B3, 0x114B8); (0x114BA, 0x114BA); (0x114BF, 0x114C0);
  (0x114C2, 0x114C3); (0x115B2, 0x115B5); (0x115BC, 0x115BD);
  (0x115BF, 0x115C0); (0x115DC, 0x115DD); (0x11633, 0x1163A);
  (0x1163D, 0x1163D); (0x1163F, 0x11640); (0x116AB, 0x116AB);
  (0x116AD, 0x116AD); (0x116B0, 0x116B5); (0x116B7, 0x116B7);
  (0x1171D, 0x1171F); (0x11722, 0x11725); (0x11727, 0x1172B);
  (0x1182F, 0x11837); (0x11839, 0x1183A); (0x1193B, 0x1193C);
  (0x1193E, 0x1193E); (0x11943, 0x11943); (0x119D4, 0x119D7);
  (0x119DA, 0x119DB); (0x119E0, 0x119E0); (0x11A01, 0x11A0A);
  (0x11A33, 0x11A38); (0x11A3B, 0x11A3E); (0x11A47, 0x11A47);
  (0x11A51, 0x11A56); (0x11A59, 0x11A5B); (0x11A8A, 0x11A96);
  (0x11A98, 0x11A99); (0x11C30, 0x11C36); (0x11C38, 0x11C3D);
  (0x11C3F, 0x11C3F); (0x11C92, 0x11CA7); (0x11CAA, 0x11CB0);
  (0x11CB2, 0x11CB3); (0x11CB5, 0x11CB6); (0x11D31, 0x11D36);
  (0x11D3A, 0x11D3A); (0x11D3C, 0x11D3D); (0x11D3F, 0x11D45);
  (0x11D47, 0x11D47); (0x11D90, 0x11D91); (0x11D95, 0x11D95);
  (0x11D97, 0x11D97); (0x11EF3, 0x11EF4); (0x13430, 0x13438);
  (0x16AF0, 0x16AF4); (0x16B30, 0x16B36); (0x16B40, 0x16B43);
  (0x16F4F, 0x16F4F); (0x16F8F, 0x16F9F); (0x16FE0, 0x16FE1);
  (0x16FE3, 0x16FE4); (0x1AFF0, 0x1AFF3); (0x1AFF5, 0x1AFFB);
  (0x1AFFD, 0x1AFFE); (0x1BC9D, 0x1BC9E); (0x1BCA0, 0x1BCA3);
  (0x1CF00, 0x1CF2D); (0x1CF30, 0x1CF46); (0x1D167, 0x1D169);
  (0x1D173, 0x1D182); (0x1D185, 0x1D18B); (0x1D1AA, 0x1D1AD);
  (0x1D242, 0x1D244); (0x1DA00, 0x1DA36); (0x1DA3B, 0x1DA6C);
  (0x1DA75, 0x1DA75); (0x1DA84, 0x1DA84); (0x1DA9B, 0x1DA9F);
  (0x1DAA1, 0x1DAAF); (0x1E000, 0x1E006); (0x1E008, 0x1E018);
  (0x1E01B, 0x1E021); (0x1E023, 0x1E024); (0x1E026, 0x1E02A);
  (0x1E130, 0x1E13D); (0x1E2AE, 0x1E2AE); (0x1E2EC, 0x1E2EF);
  (0x1E8D0, 0x1E8D6); (0x1E944, 0x1E94B); (0x1F3FB, 0x1F3FF);
  (0xE0001, 0xE0001); (0xE0020, 0xE007F); (0xE0100, 0xE01EF)
]%N.

Fixpoint assoc (t : list (codePoint * list codePoint)) (c : codePoint)
  : option (list codePoint) :=
  match t with
  | [] => None
  | (k, v) :: t' => if (k =? c)%N then Some v else assoc t' c
  end.

Definition inRanges (r : list (codePoint * codePoint)) (c : codePoint) : bool :=
  existsb (fun lh => inRange (fst lh) (snd lh) c) r.

Definition isCased (c : codePoint) : bool := inRanges casedRanges c.
Definition isCaseIgnorable (c : codePoint) : bool :=
  inRanges caseIgnorableRanges c.

Definition lowerMapping (c : codePoint) : list codePoint :=
  match assoc lowerTable c with Some v => v | None => [c] end.
Definition upperMapping (c : codePoint) : list codePoint :=
  match assoc upperTable c with Some v => v | None => [c] end.

(** The first code point of [l] that is not case-ignorable exists and is
    cased.  A code point that is case-ignorable is passed over also when
    it is cased (a modifier letter such as U+02B0), as the engines do. *)
Fixpoint casedAfterIgnorable (l : list codePoint) : bool :=
  match l with
  | [] => false
  | c :: l' => if isCaseIgnorable c then casedAfterIgnorable l' else isCased c
  end.

(** The condition [Final_Sigma] of SpecialCasing.txt: a cased letter
    comes before the sigma and none comes after it, case-ignorable code
    points in between apart.  [before] holds the code points before the
    sigma, the nearest first. *)
Definition finalSigma (before after : list codePoint) : bool :=
  casedAfterIgnorable before && negb (casedAfterIgnorable after).

(** [toLowercase] of the default case conversion: U+03A3 becomes U+03C2
    in the condition [Final_Sigma] and U+03C3 otherwise. *)
Fixpoint toLowercase (before l : list codePoint) : list codePoint :=
  match l with
  | [] => []
  | c :: after =>
      (if (c =? 931)%N
       then (if finalSigma before after then [962%N] else [963%N])
       else lowerMapping c)
      ++ toLowercase (c :: before) after
  end.

(** [toUppercase] of the default case conversion. *)
Definition toUppercase (l : list codePoint) : list codePoint :=
  flat_map upperMapping l.

End Unicode.

Definition toLowerCase (s : jsstring) : jsstring :=
  CodePointsToString (Unicode.toLowercase [] (codePoints s)).
Definition toUpperCase (s : jsstring) : jsstring :=
  CodePointsToString (Unicode.toUppercase (codePoints s)).
Arguments toLowerCase : simpl never.
Arguments toUpperCase : simpl never.

Fixpoint dropWhile (p : codeUnit -> bool) (s : jsstring) : jsstring :=
  match s with
  | [] => []
  | c :: s' => if p c then dropWhile p s' else s
  end.

Fixpoint takeWhile (p : codeUnit -> bool) (s : jsstring) : jsstring :=
  match s with
  | [] => []
  | c :: s' => if p c then c :: takeWhile p s' else []
  end.

(** [String.prototype.trim] *)
Definition trimStart (s : jsstring) : jsstring := dropWhile isWhiteSpace s.
Definition trimEnd (s : jsstring) : jsstring :=
  rev (dropWhile isWhiteSpace (rev s)).
Definition trim (s : jsstring) : jsstring := trimEnd (trimStart s).

(** Truthiness of a string: non-empty. *)
Definition truthy (s : jsstring) : bool :=
  match s with [] => false | _ => true end.

(** [s.split('')], [a.reverse()], [a.join('')] *)
Definition splitUnits (s : jsstring) : list jsstring := map (fun c => [c]) s.
Definition reverse {A} (a : list A) : list A := rev a.
Definition joinEmpty (a : list jsstring) : jsstring := concat a.

(** [s.charAt(0)] and [s.substr(1)] *)
Definition charAt0 (s : jsstring) : jsstring := firstn 1 s.
Definition substr1 (s : jsstring) : jsstring := skipn 1 s.

(** ** Regular expressions *)

Module RegExp.

Inductive regex : Type :=
| Class (p : codeUnit -> bool)     (* a character class or escape *)
| Bol                              (* ^ without the multiline flag *)
| WordB (negated : bool)           (* \b, and \B when negated *)
| Look (negated : bool) (r : regex)  (* (?=r), and (?!r) when negated *)
| Cat (r1 r2 : regex)
| Alt (r1 r2 : regex)
| Star (r : regex).                (* greedy r* *)

Definition Plus (r : regex) : regex := Cat r (Star r).

(** A position is the code unit before it ([None] at the start of the
    input) and the input that is left.  A continuation receives the
    position after a sub-match and answers with what is left after the
    whole match. *)
Definition cont := option codeUnit -> jsstring -> option jsstring.

Definition isBoundary (prev : option codeUnit) (s : jsstring) : bool :=
  xorb (match prev with Some c => isWordChar c | None => false end)
       (match s with c :: _ => isWordChar c | [] => false end).

Fixpoint matchK (r : regex) (prev : option codeUnit) (s : jsstring) (k : cont)
  {struct r} : option jsstring :=
  match r with
  | Class p =>
      match s with
      | c :: s' => if p c then k (Some c) s' else None
      | [] => None
      end
  | Bol => match prev with None => k prev s | Some _ => None end
  | WordB negated =>
      if xorb negated (isBoundary prev s) then k prev s else None
  | Look negated r1 =>
      match matchK r1 prev s (fun _ s' => Some s') with
      | Some _ => if negated then None else k prev s
      | None => if negated then k prev s else None
      end
  | Cat r1 r2 => matchK r1 prev s (fun p' s' => matchK r2 p' s' k)
  | Alt r1 r2 =>
      match matchK r1 prev s k with
      | Some e => Some e
      | None => matchK r2 prev s k
      end
  | Star r1 =>
      (fix iter (fuel : nat) (prev : option codeUnit) (s : jsstring)
         {struct fuel} : option jsstring :=
         match fuel with
         | O => k prev s
         | S fuel' =>
             match matchK r1 prev s
                     (fun p' s' =>
                        if length s' <? length s then iter fuel' p' s'
                        else None) with
             | Some e => Some e
             | None => k prev s
             end
         end) (length s) prev s
  end.

(** One match attempt at the current position: what is left after the
    match, if there is one. *)
Definition matchAt (r : regex) (prev : option codeUnit) (s : jsstring)
  : option jsstring :=
  matchK r prev s (fun _ s' => Some s').

(** [String.prototype.replace] with a global regular expression and a
    replacer function of the matched text and of its index.  Every round
    either consumes a match or copies one code unit, so [S (length s)]
    rounds are enough. *)
Fixpoint replaceLoop (fuel : nat) (r : regex)
  (f : jsstring -> nat -> jsstring)
  (prev : option codeUnit) (idx : nat) (s : jsstring) : jsstring :=
  match fuel with
  | O => s
  | S fuel' =>
      let copy :=
        match s with
        | [] => []
        | c :: s' => c :: replaceLoop fuel' r f (Some c) (S idx) s'
        end in
      match matchAt r prev s with
      | Some rest =>
          match length s - length rest with
          | O => f [] idx ++ copy
          | n =>
              let m := firstn n s in
              f m idx ++ replaceLoop fuel' r f (Some (last m 0%N)) (idx + n) rest
          end
      | None => copy
      end
  end.

Definition replaceAll (r : regex) (f : jsstring -> nat -> jsstring)
  (s : jsstring) : jsstring :=
  replaceLoop (S (length s)) r f None 0 s.

(** A replacement string without [$] patterns. *)
Definition replaceAllWith (r : regex) (by_ : jsstring) (s : jsstring)
  : jsstring :=
  replaceAll r (fun _ _ => by_) s.

(** [String.prototype.split] with a regular expression without capture
    groups.  [seg] is the text between the end of the last separator and
    the current position. *)
Fixpoint splitLoop (fuel : nat) (r : regex) (prev : option codeUnit)
  (seg : jsstring) (s : jsstring) : list jsstring :=
  match fuel with
  | O => [seg ++ s]
  | S fuel' =>
      match s with
      | [] => [seg]
      | c :: s' =>
          match matchAt r prev s with
          | Some rest =>
              match length s - length rest, seg with
              | O, [] => splitLoop fuel' r (Some c) [c] s'
              | O, _ => seg :: splitLoop fuel' r (Some c) [c] s'
              | n, _ =>
                  seg :: splitLoop fuel' r (Some (last (firstn n s) 0%N)) [] rest
              end
          | None => splitLoop fuel' r (Some c) (seg ++ [c]) s'
          end
      end
  end.

Definition split (r : regex) (s : jsstring) : list jsstring :=
  match s with
  | [] => match matchAt r None [] with Some _ => [] | None => [[]] end
  | _ => splitLoop (S (length s)) r None [] s
  end.

End RegExp.
Import RegExp.

Definition isChar (a : ascii) (c : codeUnit) : bool := (c =? N_of_ascii a)%N.
Arguments isChar a%_char c.

(** ** The conversion tables of [App.jsx] *)

Module Conversions.

(** [/(^\w|\.\s+\w)/g] *)
Definition reSentenceStart : regex :=
  Alt (Cat Bol (Class isWordChar))
      (Cat (Class (isChar "."))
           (Cat (Plus (Class isWhiteSpace)) (Class isWordChar))).

(** [/\w\S*/g] *)
Definition reTitleWord : regex :=
  Cat (Class isWordChar) (Star (Class isNonSpace)).

(** [/(?:^\w|[A-Z]|\b\w)/g] *)
Definition reCamel : regex :=
  Alt (Cat Bol (Class isWordChar))
      (Alt (Class isUpper) (Cat (WordB false) (Class isWordChar))).

(** [/\s+/g], [/\s/g], [/\n/g], [/[,\s]/g], [/\b\w/g] *)
Definition reSpaces : regex := Plus (Class isWhiteSpace).
Definition reSpace : regex := Class isWhiteSpace.
Definition reNewline : regex := Class (fun c => (c =? 10)%N).
Definition reCommaOrSpace : regex :=
  Class (fun c => isChar "," c || isWhiteSpace c).
Definition reWordStart : regex := Cat (WordB false) (Class isWordChar).

(** [/(\d),(\d)/g] and [/(\d)\.(\d)/g] *)
Definition reDigitSepDigit (sep : ascii) : regex :=
  Cat (Class isDigit) (Cat (Class (isChar sep)) (Class isDigit)).

(** [/\B(?=(\d{3})+(?!\d))/g] *)
Definition reThousands : regex :=
  let d3 := Cat (Class isDigit) (Cat (Class isDigit) (Class isDigit)) in
  Cat (WordB true)
      (Look false (Cat (Plus d3) (Look true (Class isDigit)))).

Definition sentenceCase (text : jsstring) : jsstring :=
  replaceAll reSentenceStart (fun m _ => toUpperCase m) (toLowerCase text).
Definition lowerCase (text : jsstring) : jsstring := toLowerCase text.
Definition upperCase (text : jsstring) : jsstring := toUpperCase text.
Definition titleCase (text : jsstring) : jsstring :=
  replaceAll reTitleWord
    (fun txt _ => toUpperCase (charAt0 txt) ++ toLowerCase (substr1 txt)) text.
Definition camelCase (text : jsstring) : jsstring :=
  replaceAllWith reSpaces []
    (replaceAll reCamel
       (fun word index =>
          if index =? 0 then toLowerCase word else toUpperCase word) text).
Definition pascalCase (text : jsstring) : jsstring :=
  replaceAllWith reSpaces []
    (replaceAll reCamel (fun word _ => toUpperCase word) text).
Definition snakeCase (text : jsstring) : jsstring :=
  replaceAllWith reSpaces (str "_") (toLowerCase text).
Definition kebabCase (text : jsstring) : jsstring :=
  replaceAllWith reSpaces (str "-") (toLowerCase text).

Fixpoint mapi {A B} (f : A -> nat -> B) (i : nat) (l : list A) : list B :=
  match l with
  | [] => []
  | x :: l' => f x i :: mapi f (S i) l'
  end.

Definition alternatingCase (text : jsstring) : jsstring :=
  joinEmpty
    (mapi (fun char index =>
             if index mod 2 =? 0 then toLowerCase char else toUpperCase char)
          0 (splitUnits text)).
Definition inverseCase (text : jsstring) : jsstring :=
  joinEmpty
    (mapi (fun char index =>
             if index mod 2 =? 1 then toLowerCase char else toUpperCase char)
          0 (splitUnits text)).
Definition reverseText (text : jsstring) : jsstring :=
  joinEmpty (reverse (splitUnits text)).
Definition capitalizedCase (text : jsstring) : jsstring :=
  replaceAll reWordStart (fun char _ => toUpperCase char) text.

(** ['$1.$2'] and ['$1,$2'] on a match [d1 sep d2]. *)
Definition swapSep (sep : ascii) (m : jsstring) : jsstring :=
  firstn 1 m ++ [N_of_ascii sep] ++ skipn 2 m.
Arguments swapSep sep%_char m.

Definition commaToPeriod (text : jsstring) : jsstring :=
  replaceAll (reDigitSepDigit ",") (fun m _ => swapSep "." m) text.
Definition periodToComma (text : jsstring) : jsstring :=
  replaceAll (reDigitSepDigit ".") (fun m _ => swapSep "," m) text.
Definition addThousandSeparators (text : jsstring) : jsstring :=
  replaceAllWith reThousands (str ",") text.
Definition removeSeparators (text : jsstring) : jsstring :=
  replaceAllWith reCommaOrSpace [] text.

Definition removeSpaces (text : jsstring) : jsstring :=
  replaceAllWith reSpace [] text.
Definition removeLineBreaks (text : jsstring) : jsstring :=
  replaceAllWith reNewline [] text.
Definition removeExtraSpaces (text : jsstring) : jsstring :=
  replaceAllWith reSpaces (str " ") text.
Definition trimWhitespace (text : jsstring) : jsstring := trim text.

(** The keys of [textConversions], [numberConversions] and
    [specialConversions]. *)
Inductive ConversionId : Set :=
| SentenceCase | LowerCase | UpperCase | TitleCase | CamelCase | PascalCase
| SnakeCase | KebabCase | AlternatingCase | InverseCase | ReverseText
| CapitalizedCase
| CommaToPeriod | PeriodToComma | AddThousandSeparators | RemoveSeparators
| RemoveSpaces | RemoveLineBreaks | RemoveExtraSpaces | TrimWhitespace.

Definition convert (id : ConversionId) : jsstring -> jsstring :=
  match id with
  | SentenceCase => sentenceCase
  | LowerCase => lowerCase
  | UpperCase => upperCase
  | TitleCase => titleCase
  | CamelCase => camelCase
  | PascalCase => pascalCase
  | SnakeCase => snakeCase
  | KebabCase => kebabCase
  | AlternatingCase => alternatingCase
  | InverseCase => inverseCase
  | ReverseText => reverseText
  | CapitalizedCase => capitalizedCase
  | CommaToPeriod => commaToPeriod
  | PeriodToComma => periodToComma
  | AddThousandSeparators => addThousandSeparators
  | RemoveSeparators => removeSeparators
  | RemoveSpaces => removeSpaces
  | RemoveLineBreaks => removeLineBreaks
  | RemoveExtraSpaces => removeExtraSpaces
  | TrimWhitespace => trimWhitespace
  end.

End Conversions.
Import Conversions.

(** ** ECMAScript numbers: IEEE 754 binary64 *)

Module Number.

Definition prec : Z := 53.
Definition emax : Z := 1024.
Definition number := spec_float.

Definition ofZ (z : Z) : number := binary_normalize prec emax z 0 false.
Definition ofNat (n : nat) : number := ofZ (Z.of_nat n).
Definition add : number -> number -> number := SFadd prec emax.
Definition sub : number -> number -> number := SFsub prec emax.
Definition mul : number -> number -> number := SFmul prec emax.
Definition div : number -> number -> number := SFdiv prec emax.

(** The value of the decimal literal [digits / scale] ([scale] a power of
    ten): the correctly rounded quotient of two exact integers. *)
Definition decimal (digits scale : Z) : number := div (ofZ digits) (ofZ scale).

(** [x > y] *)
Definition gt (x y : number) : bool := SFltb y x.

(** [Math.round]: the nearest integer, ties towards +infinity. *)
Definition mathRound (x : number) : number :=
  match x with
  | S754_finite s m e =>
      if (0 <=? e)%Z then x
      else
        let d := Z.pow 2 (- e) in
        let v := cond_Zopp s (Zpos m) in
        binary_normalize prec emax ((2 * v + d) / (2 * d))%Z 0 s
  | _ => x
  end.

(** [Math.ceil] *)
Definition mathCeil (x : number) : number :=
  match x with
  | S754_finite s m e =>
      if (0 <=? e)%Z then x
      else
        let d := Z.pow 2 (- e) in
        let v := cond_Zopp s (Zpos m) in
        binary_normalize prec emax (- ((- v) / d))%Z 0 s
  | _ => x
  end.

(** [Math.max] and [Math.min] of two numbers. *)
Definition mathMax (x y : number) : number :=
  match SFcompare x y with
  | Some Lt => y
  | Some Gt => x
  | Some Eq => match x with S754_zero true => y | _ => x end
  | None => S754_nan
  end.
Definition mathMin (x y : number) : number :=
  match SFcompare x y with
  | Some Lt => x
  | Some Gt => y
  | Some Eq => match x with S754_zero false => y | _ => x end
  | None => S754_nan
  end.

(** [x || 0]: zero and NaN are falsy. *)
Definition orZero (x : number) : number :=
  match x with
  | S754_zero _ | S754_nan => S754_zero false
  | _ => x
  end.

End Number.
Import Number.

(** ** Plain objects used as counters *)

Module JSObject.

Fixpoint eqs (a b : jsstring) : bool :=
  match a, b with
  | [], [] => true
  | x :: a', y :: b' => (x =? y)%N && eqs a' b'
  | _, _ => false
  end.

(** Own properties, in creation order. *)
Definition obj := list (jsstring * nat).

Fixpoint getOwn (o : obj) (k : jsstring) : option nat :=
  match o with
  | [] => None
  | (k', v) :: o' => if eqs k' k then Some v else getOwn o' k
  end.

(** Writing a property: an existing one keeps its place, a new one is
    created last. *)
Fixpoint setOwn (o : obj) (k : jsstring) (v : nat) : obj :=
  match o with
  | [] => [(k, v)]
  | (k', v') :: o' =>
      if eqs k' k then (k', v) :: o' else (k', v') :: setOwn o' k v
  end.

(** What [Object.prototype] contributes to a property read. *)
Inductive inherited := Accessor | Method | Nothing.

Definition protoMethods : list jsstring :=
  [str "constructor"; str "hasOwnProperty"; str "isPrototypeOf";
   str "propertyIsEnumerable"; str "toLocaleString"; str "toString";
   str "valueOf"; str "__defineGetter__"; str "__defineSetter__";
   str "__lookupGetter__"; str "__lookupSetter__"].

Definition fromPrototype (k : jsstring) : inherited :=
  if eqs k (str "__proto__") then Accessor
  else if existsb (eqs k) protoMethods then Method
  else Nothing.

(** [o[k] = (o[k] || 0) + 1] on an object literal.  A key that reads the
    [__proto__] accessor yields an object, the sum is a string and the
    setter drops it.  A key that reads an inherited method makes the sum a
    string that is stored as the count: [None], the counter is no longer
    numeric. *)
Definition increment (o : obj) (k : jsstring) : option obj :=
  match fromPrototype k with
  | Accessor => Some o
  | _ =>
      match getOwn o k with
      | Some v => Some (setOwn o k (v + 1))
      | None =>
          match fromPrototype k with
          | Method => None
          | _ => Some (setOwn o k 1)
          end
      end
  end.

Definition digitsValue (k : jsstring) : N :=
  fold_left (fun acc c => (10 * acc + (c - 48))%N) k 0%N.

(** An array index: the canonical decimal form of an integer below
    [2^32 - 1]. *)
Definition isArrayIndex (k : jsstring) : bool :=
  match k with
  | [] => false
  | c :: k' =>
      forallb isDigit k
      && (negb (c =? 48)%N || (length k' =? 0))
      && (digitsValue k <? 4294967295)%N
  end.

Fixpoint insertIndex (e : jsstring * nat) (l : list (jsstring * nat))
  : list (jsstring * nat) :=
  match l with
  | [] => [e]
  | e' :: l' =>
      if (digitsValue (fst e) <? digitsValue (fst e'))%N then e :: l
      else e' :: insertIndex e l'
  end.

(** [Object.entries]: array indices in ascending numeric order, then the
    other keys in creation order. *)
Definition entries (o : obj) : list (jsstring * nat) :=
  fold_right insertIndex [] (filter (fun e => isArrayIndex (fst e)) o)
  ++ filter (fun e => negb (isArrayIndex (fst e))) o.

(** [.sort(([,a], [,b]) => b - a)]: the sort by descending count.
    [Array.prototype.sort] is stable (ECMAScript 2019), and every stable
    sort gives the list that this insertion sort gives. *)
Fixpoint insertDesc (e : jsstring * nat) (l : list (jsstring * nat))
  : list (jsstring * nat) :=
  match l with
  | [] => [e]
  | e' :: l' =>
      if snd e' <=? snd e then e :: l else e' :: insertDesc e l'
  end.

Definition sortDesc (l : list (jsstring * nat)) : list (jsstring * nat) :=
  fold_right insertDesc [] l.

End JSObject.
Import JSObject.

(** ** The [analysis] memo of the [TextAnalysis] component *)

Module Analysis.

Inductive complexity : Set := Simple | Moderate | Complex.

Record report : Type := {
  characters : nat;
  charactersNoSpaces : nat;
  words : nat;
  sentences : nat;
  paragraphs : nat;
  averageWordsPerSentence : number;
  readingTime : number;
  readabilityScore : number;
  mostCommonWords : option (list (jsstring * nat));
  characterFrequency : obj;
  textComplexity : complexity;
  avgWordLength : option number
}.

Definition isTerminator (c : codeUnit) : bool :=
  isChar "." c || isChar "!" c || isChar "?" c.
Definition isVowel (c : codeUnit) : bool :=
  existsb (N.eqb c) (str "aeiouAEIOU").
Definition isNewline (c : codeUnit) : bool := (c =? 10)%N.

(** [/[.!?]+/], [/\n\s*\n/], [/[aeiouAEIOU]/], [/[^\w\s]/g], [/[a-z]/] *)
Definition reTerminators : regex := Plus (Class isTerminator).
Definition reBlankLine : regex :=
  Cat (Class isNewline) (Cat (Star (Class isWhiteSpace)) (Class isNewline)).
Definition reVowel : regex := Class isVowel.
Definition rePunctuation : regex :=
  Class (fun c => negb (isWordChar c || isWhiteSpace c)).

Definition stopWords : list jsstring :=
  map str
    ["the"; "a"; "an"; "and"; "or"; "but"; "in"; "on"; "at"; "to"; "for";
     "of"; "with"; "by"; "is"; "are"; "was"; "were"; "be"; "been"; "have";
     "has"; "had"; "do"; "does"; "did"; "will"; "would"; "could"; "should";
     "may"; "might"; "must"; "can"; "this"; "that"; "these"; "those"; "i";
     "you"; "he"; "she"; "it"; "we"; "they"; "me"; "him"; "her"; "us";
     "them"]%string.

Definition has (set : list jsstring) (word : jsstring) : bool :=
  existsb (eqs word) set.

(** [s => s.trim().length > 0] *)
Definition nonBlank (s : jsstring) : bool := 0 <? length (trim s).

Definition emptyReport : report :=
  {| characters := 0;
     charactersNoSpaces := 0;
     words := 0;
     sentences := 0;
     paragraphs := 0;
     averageWordsPerSentence := ofNat 0;
     readingTime := ofNat 0;
     readabilityScore := ofNat 0;
     mostCommonWords := Some [];
     characterFrequency := [];
     textComplexity := Simple;
     avgWordLength := None |}.

(** The body of the [forEach] over the words. *)
Definition countWord (wordFreq : option obj) (word : jsstring) : option obj :=
  match wordFreq with
  | None => None
  | Some o =>
      if (2 <? length word) && negb (has stopWords word)
      then increment o word
      else Some o
  end.

Definition wordTokens (text : jsstring) : list jsstring :=
  split reSpaces (replaceAllWith rePunctuation [] (toLowerCase text)).

(** The body of the [forEach] over the characters. *)
Definition countChar (charFreq : option obj) (char : jsstring) : option obj :=
  match charFreq with
  | None => None
  | Some o =>
      if existsb isLower char then increment o char else Some o
  end.

Definition analysis (text : jsstring) : report :=
  if negb (truthy text) || (length (trim text) =? 0) then emptyReport
  else
    let characters := length text in
    let charactersNoSpaces := length (replaceAllWith reSpace [] text) in
    let words :=
      if truthy (trim text) then length (split reSpaces (trim text)) else 0 in
    let sentences := length (filter nonBlank (split reTerminators text)) in
    let paragraphs := length (filter nonBlank (split reBlankLine text)) in
    let averageWordsPerSentence :=
      if 0 <? sentences
      then div (mathRound (mul (div (ofNat words) (ofNat sentences))
                               (ofNat 10))) (ofNat 10)
      else ofNat 0 in
    let readingTime := mathCeil (div (ofNat words) (ofNat 200)) in
    let avgSentenceLength := averageWordsPerSentence in
    let avgSyllables :=
      if 0 <? words
      then div (ofNat (length (split reVowel text))) (ofNat words)
      else ofNat 0 in
    let readabilityScore :=
      mathMax (ofNat 0)
        (mathMin (ofNat 100)
           (sub (sub (decimal 206835 1000)
                     (mul (decimal 1015 1000) avgSentenceLength))
                (mul (decimal 846 10) avgSyllables))) in
    let wordFreq := fold_left countWord (wordTokens text) (Some []) in
    let mostCommonWords :=
      option_map (fun o => firstn 5 (sortDesc (entries o))) wordFreq in
    let charFreq :=
      fold_left countChar
        (splitUnits (replaceAllWith reSpace [] (toLowerCase text)))
        (Some []) in
    let characterFrequency :=
      match charFreq with
      | Some o =>
          fold_left (fun obj e => setOwn obj (fst e) (snd e))
            (firstn 5 (sortDesc (entries o))) []
      | None => []
      end in
    let avgWordLength :=
      orZero (div (ofNat charactersNoSpaces) (ofNat words)) in
    let textComplexity :=
      if gt avgSentenceLength (ofNat 20) || gt avgWordLength (ofNat 6)
      then Complex
      else if gt avgSentenceLength (ofNat 15) || gt avgWordLength (ofNat 5)
      then Moderate
      else Simple in
    {| characters := characters;
       charactersNoSpaces := charactersNoSpaces;
       words := words;
       sentences := sentences;
       paragraphs := paragraphs;
       averageWordsPerSentence := averageWordsPerSentence;
       readingTime := readingTime;
       readabilityScore := mathRound readabilityScore;
       mostCommonWords := mostCommonWords;
       characterFrequency := characterFrequency;
       textComplexity := textComplexity;
       avgWordLength :=
         Some (div (mathRound (mul avgWordLength (ofNat 10))) (ofNat 10)) |}.

End Analysis.
Import Analysis.

(** ** The state of [App] and [handleConversion] *)

Module App.

Record historyEntry : Type := {
  id : N;                 (* Date.now() *)
  input : jsstring;
  output : jsstring;
  type : jsstring;
  timestamp : jsstring    (* new Date().toLocaleTimeString() *)
}.

Record state : Type := {
  inputText : jsstring;
  outputText : jsstring;
  conversionHistory : list historyEntry
}.

Definition initial : state :=
  {| inputText := []; outputText := []; conversionHistory := [] |}.

(** What a call reads from the host clock. *)
Record clock : Type := { now : N; localeTimeString : jsstring }.

Definition mkEntry (conversionType : jsstring)
  (conversionFunction : jsstring -> jsstring) (env : clock) (st : state)
  : historyEntry :=
  {| id := now env;
     input := inputText st;
     output := conversionFunction (inputText st);
     type := conversionType;
     timestamp := localeTimeString env |}.

Definition handleConversion (conversionType : jsstring)
  (conversionFunction : jsstring -> jsstring) (env : clock) (st : state)
  : state :=
  if negb (truthy (trim (inputText st))) then st
  else
    let result := conversionFunction (inputText st) in
    let historyEntry := mkEntry conversionType conversionFunction env st in
    {| inputText := inputText st;
       outputText := result;
       conversionHistory := historyEntry :: firstn 9 (conversionHistory st) |}.

Definition setInputText (value : jsstring) (st : state) : state :=
  {| inputText := value;
     outputText := outputText st;
     conversionHistory := conversionHistory st |}.

Definition clearAll (st : state) : state :=
  {| inputText := [];
     outputText := [];
     conversionHistory := conversionHistory st |}.

(** The user actions that touch the three state cells. *)
Inductive event : Type :=
| Change (value : jsstring)
| Conversion (conversionType : jsstring)
    (conversionFunction : jsstring -> jsstring) (env : clock)
| Clear.

Definition step (st : state) (ev : event) : state :=
  match ev with
  | Change value => setInputText value st
  | Conversion ty f env => handleConversion ty f env st
  | Clear => clearAll st
  end.

Definition run (st : state) (evs : list event) : state :=
  fold_left step evs st.

(** The entries created along a run, oldest first. *)
Fixpoint created (st : state) (evs : list event) : list historyEntry :=
  match evs with
  | [] => []
  | ev :: evs' =>
      match ev with
      | Conversion ty f env =>
          if truthy (trim (inputText st)) then [mkEntry ty f env st] else []
      | _ => []
      end ++ created (step st ev) evs'
  end.

End App.
Import App.

(** ** Surrogate pairs *)

Fixpoint surrogatePairs (s : jsstring) : nat :=
  match s with
  | [] => 0
  | c :: s' =>
      match s' with
      | d :: s'' =>
          if isHighSurrogate c && isLowSurrogate d
          then S (surrogatePairs s'')
          else surrogatePairs s'
      | [] => 0
      end
  end.

(** ** Scans over the code units

    What the expressions of the program compute, written as direct
    recursions; the properties below relate them to the matcher. *)

Definition consHead (c : codeUnit) (l : list jsstring) : list jsstring :=
  match l with
  | h :: t => (c :: h) :: t
  | [] => [[c]]
  end.

Definition prependSeg (seg : jsstring) (l : list jsstring) : list jsstring :=
  match l with
  | h :: t => (seg ++ h) :: t
  | [] => [seg]
  end.

Section ScanDefinitions.

Variable p : codeUnit -> bool.

(** [p*] followed by [k]: take the longest run, give back one code unit
    at a time while [k] fails. *)
Fixpoint greedy (k : cont) (prev : option codeUnit) (s : jsstring)
  : option jsstring :=
  match s with
  | c :: s' =>
      if p c then
        match greedy k (Some c) s' with
        | Some e => Some e
        | None => k prev s
        end
      else k prev s
  | [] => k prev s
  end.

(** The pieces between the code units of the class. *)
Fixpoint fields (s : jsstring) : list jsstring :=
  match s with
  | [] => [[]]
  | c :: s' => if p c then [] :: fields s' else consHead c (fields s')
  end.

(** The pieces between the maximal runs of code units of the class;
    [inSep] tells that the scan is inside such a run. *)
Fixpoint runs (inSep : bool) (s : jsstring) : list jsstring :=
  match s with
  | [] => [[]]
  | c :: s' =>
      if p c then (if inSep then runs true s' else [] :: runs true s')
      else consHead c (runs false s')
  end.

(** Every maximal run of the class replaced by [by_]. *)
Fixpoint squeeze (by_ : jsstring) (inRun : bool) (s : jsstring) : jsstring :=
  match s with
  | [] => []
  | c :: s' =>
      if p c then (if inRun then squeeze by_ true s'
                   else by_ ++ squeeze by_ true s')
      else c :: squeeze by_ false s'
  end.

End ScanDefinitions.

Definition headOutside (p : codeUnit -> bool) (s : jsstring) : Prop :=
  match s with
  | c :: _ => p c = false
  | [] => True
  end.


(** A text in which every code unit of the class is [sp] and no two of
    them are adjacent; [afterSep] tells that the code unit before is of
    the class. *)
Fixpoint squeezed (p : codeUnit -> bool) (sp : codeUnit) (afterSep : bool)
  (t : jsstring) : bool :=
  match t with
  | [] => true
  | c :: t' =>
      if p c then negb afterSep && (c =? sp)%N && squeezed p sp true t'
      else squeezed p sp false t'
  end.

(** [titleCase] as a scan.  Inside a match of [\w\S*], [token] holds
    the code units of the match read after its first one: a match starts
    at a word character and ends before the next white space; its first
    code unit goes to upper case and the others, taken together, to lower
    case. *)
Fixpoint titleScan (token : option jsstring) (s : jsstring) : jsstring :=
  match s with
  | [] => match token with Some t => toLowerCase t | None => [] end
  | c :: s' =>
      match token with
      | Some t =>
          if isWhiteSpace c then toLowerCase t ++ c :: titleScan None s'
          else titleScan (Some (t ++ [c])) s'
      | None =>
          if isWordChar c then upperUnit c :: titleScan (Some []) s'
          else c :: titleScan None s'
      end
  end.

(** Title case word by word, in the words of the specification: the
    first code unit of every maximal run of word characters in upper case,
    the rest of the run in lower case, every other code unit as it is. *)
Fixpoint titleWords (inWord : bool) (s : jsstring) : jsstring :=
  match s with
  | [] => []
  | c :: s' =>
      if isWordChar c
      then (if inWord then lowerUnit c else upperUnit c) :: titleWords true s'
      else c :: titleWords false s'
  end.

(** Where a scan for sentence starts stands. *)
Inductive sentencePos : Set :=
| AtStart            (* no code unit read yet *)
| AfterStop          (* just after a stop *)
| AfterStopSpace     (* after a stop and one or more white spaces *)
| Elsewhere.

(** Sentence capitalisation as a scan: a word character goes to upper
    case when it is the first code unit of the text, or when it comes
    after a [stop] code unit and one or more white spaces. *)
Fixpoint capitalize (stop : codeUnit -> bool) (pos : sentencePos)
  (s : jsstring) : jsstring :=
  match s with
  | [] => []
  | c :: s' =>
      if stop c then c :: capitalize stop AfterStop s'
      else
        match pos with
        | AtStart =>
            (if isWordChar c then upperUnit c else c)
            :: capitalize stop Elsewhere s'
        | AfterStop =>
            c :: capitalize stop
                   (if isWhiteSpace c then AfterStopSpace else Elsewhere) s'
        | AfterStopSpace =>
            if isWhiteSpace c then c :: capitalize stop AfterStopSpace s'
            else (if isWordChar c then upperUnit c else c)
                 :: capitalize stop Elsewhere s'
        | Elsewhere => c :: capitalize stop Elsewhere s'
        end
  end.

(** The stops of the specification's sentence case: [.] and [!]. *)
Definition isDotOrBang (c : codeUnit) : bool := isChar "." c || isChar "!" c.

(** What is left after [\s+\w], for the text that follows a [.]. *)
Definition afterDot (s : jsstring) : option jsstring :=
  match s with
  | d :: s' =>
      if isWhiteSpace d then
        match dropWhile isWhiteSpace s' with
        | x :: e => if isWordChar x then Some e else None
        | [] => None
        end
      else None
  | [] => None
  end.

(** The maximal white-space-delimited tokens of a text: the non-empty
    pieces between its white-space code units. *)
Definition tokens (s : jsstring) : list jsstring :=
  filter truthy (fields isWhiteSpace s).

(** A piece of text with a code unit outside the white space. *)
Definition hasNonSpace (s : jsstring) : bool := existsb isNonSpace s.

(** The last code unit, if any, is outside the class. *)
Definition lastOutside (p : codeUnit -> bool) (s : jsstring) : Prop :=
  headOutside p (rev s).

(** The readability formula of the specification:
    [clamp(206.835 - 1.015*asl - 84.6*asw, 0, 100)] rounded. *)
Definition clamp (x lo hi : number) : number := mathMax lo (mathMin hi x).

Definition fleschScore (avgSentenceLength avgSyllables : number) : number :=
  mathRound
    (clamp (sub (sub (decimal 206835 1000)
                     (mul (decimal 1015 1000) avgSentenceLength))
                (mul (decimal 846 10) avgSyllables))
           (ofNat 0) (ofNat 100)).

(** ** The ranking of the most common words *)

(** The tokens that the word counter counts: longer than two code units
    and not a stop word. *)
Definition counted (w : jsstring) : bool :=
  (2 <? length w) && negb (has stopWords w).

Definition keptWords (text : jsstring) : list jsstring :=
  filter counted (wordTokens text).

Definition countOf (w : jsstring) (l : list jsstring) : nat :=
  length (filter (eqs w) l).

(** The position of the first occurrence ([length l] when there is none). *)
Fixpoint firstIndex (w : jsstring) (l : list jsstring) : nat :=
  match l with
  | [] => 0
  | x :: l' => if eqs x w then 0 else S (firstIndex w l')
  end.

(** The order of the own property keys of the counter: array indices
    first, by value, then the other keys by first occurrence. *)
Definition keyBefore (T : list jsstring) (x y : jsstring) : Prop :=
  match isArrayIndex x, isArrayIndex y with
  | true, true => (digitsValue x <= digitsValue y)%N
  | true, false => True
  | false, true => False
  | false, false => firstIndex x T < firstIndex y T
  end.

(** Higher count first; among equal counts, property order. *)
Definition rankedBefore (T : list jsstring) (a b : jsstring * nat) : Prop :=
  snd b < snd a \/ (snd a = snd b /\ keyBefore T (fst a) (fst b)).

(** The order of the specification: higher count first; among equal
    counts, first occurrence in the text. *)
Definition firstSeenBefore (T : list jsstring) (a b : jsstring * nat) : Prop :=
  snd b < snd a \/
  (snd a = snd b /\ firstIndex (fst a) T < firstIndex (fst b) T).

(** One more occurrence of [w] in a numeric counter. *)
Definition tally (o : obj) (w : jsstring) : obj :=
  setOwn o w (match getOwn o w with Some v => v + 1 | None => 1 end).

(** What the counter holds after the words [P] have been counted. *)
Definition counterOf (P : list jsstring) (o : obj) : Prop :=
  NoDup (map fst o) /\
  (forall k, getOwn o k =
             if countOf k P =? 0 then None else Some (countOf k P)) /\
  StronglySorted (fun a b => firstIndex a P < firstIndex b P) (map fst o).

(** Ascending numeric order of the keys. *)
Definition indexLe (a b : jsstring * nat) : Prop :=
  (digitsValue (fst a) <= digitsValue (fst b))%N.

(** Higher count first; among equal counts, the order [Q] that the
    entries had before the sort. *)
Definition ranked (Q : jsstring * nat -> jsstring * nat -> Prop)
  (a b : jsstring * nat) : Prop :=
  snd b < snd a \/ (snd a = snd b /\ Q a b).

(** Capitalisation word by word: the first code unit of every maximal
    run of word characters in upper case, every other code unit as it is.
    [inWord] tells that the code unit before is a word character. *)
Fixpoint capWords (inWord : bool) (s : jsstring) : jsstring :=
  match s with
  | [] => []
  | c :: s' =>
      if isWordChar c
      then (if inWord then c else upperUnit c) :: capWords true s'
      else c :: capWords false s'
  end.

(** The code unit before a position is a word character. *)
Definition prevWord (prev : option codeUnit) : bool :=
  match prev with
  | Some p => isWordChar p
  | None => false
  end.

(** The loop of a greedy star over an arbitrary sub-matcher [m]; the
    matcher of [Star r] is this loop over the matcher of [r]. *)
Section StarLoop.

Variable m : option codeUnit -> jsstring -> cont -> option jsstring.
Variable k : cont.

Fixpoint starIter (fuel : nat) (prev : option codeUnit) (s : jsstring)
  {struct fuel} : option jsstring :=
  match fuel with
  | O => k prev s
  | S fuel' =>
      match m prev s
              (fun p' s' =>
                 if length s' <? length s then starIter fuel' p' s'
                 else None) with
      | Some e => Some e
      | None => k prev s
      end
  end.

End StarLoop.

(** [(\d{3})*] followed by [k]: take groups of three digits as long as
    there are, give back one group at a time while [k] fails. *)
Fixpoint greedy3 (k : cont) (prev : option codeUnit) (s : jsstring)
  : option jsstring :=
  match s with
  | a :: b :: c :: s' =>
      if isDigit a && isDigit b && isDigit c then
        match greedy3 k (Some c) s' with
        | Some e => Some e
        | None => k prev s
        end
      else k prev s
  | _ => k prev s
  end.

(** The digits at the start of [s] form one or more groups of three. *)
Definition digitGroups (s : jsstring) : bool :=
  let n := length (takeWhile isDigit s) in
  (3 <=? n) && (n mod 3 =? 0).

(** Thousands separators as a scan: a comma goes before a code unit when
    the code unit before it is a word character and the digits starting
    there form groups of three.  [afterWord] tells that the code unit
    before is a word character. *)
Fixpoint thousandsScan (afterWord : bool) (s : jsstring) : jsstring :=
  match s with
  | [] => []
  | c :: s' =>
      (if afterWord && digitGroups s then str "," else [])
      ++ c :: thousandsScan (isWordChar c) s'
  end.

Definition isComma (c : codeUnit) : bool := isChar "," c.

(** [\d{3}] *)
Definition digits3 : regex :=
  Cat (Class isDigit) (Cat (Class isDigit) (Class isDigit)).

(** [(?!\d)] *)
Definition notDigitNext : cont :=
  fun _ s =>
    match s with
    | c :: _ => if isDigit c then None else Some s
    | [] => Some s
    end.

Definition isSome {A} (o : option A) : bool :=
  match o with Some _ => true | None => false end.

(** Swapping a separator between two digits, as a scan from the left:
    where a digit, [from], a digit are read, [from] becomes [to] and the
    scan goes on after the second digit. *)
Fixpoint sepScan (from to : codeUnit) (s : jsstring) : jsstring :=
  match s with
  | [] => []
  | a :: t =>
      match t with
      | b :: c :: r =>
          if isDigit a && (b =? from)%N && isDigit c
          then a :: to :: c :: sepScan from to r
          else a :: sepScan from to t
      | _ => a :: sepScan from to t
      end
  end.

(** ** The statistics line of [App] *)

Module AppStats.

(** [s.split('\n')]: splitting at a separator of one code unit. *)
Fixpoint splitOnUnit (sep : codeUnit) (s : jsstring) : list jsstring :=
  match s with
  | [] => [[]]
  | c :: s' =>
      if (c =? sep)%N then [] :: splitOnUnit sep s'
      else consHead c (splitOnUnit sep s')
  end.

Record stats : Set := { characters : nat; words : nat; lines : nat }.

(** The effect that recomputes [stats] when [inputText] changes. *)
Definition computeStats (inputText : jsstring) : stats :=
  {| characters := length inputText;
     words :=
       if truthy (trim inputText)
       then length (split Conversions.reSpaces (trim inputText)) else 0;
     lines := length (splitOnUnit 10%N inputText) |}.

End AppStats.

(** The readings of the clock by the conversion events of a run. *)
Fixpoint clockReadings (evs : list event) : list N :=
  match evs with
  | [] => []
  | Conversion _ _ env :: evs' => now env :: clockReadings evs'
  | _ :: evs' => clockReadings evs'
  end.

(** ** Keyboard shortcuts *)

Module Shortcuts.

(** What [handleKeyDown] reads from a [keydown] event. *)
Record keyEvent : Type := {
  targetTagName : jsstring;
  key : jsstring;
  ctrlKey : bool;
  shiftKey : bool
}.

(** What one [keydown] does: whether the default action is prevented,
    the calls of [onConversion], and the flag of the shortcuts panel. *)
Record outcome : Type := {
  prevented : bool;
  calls : list jsstring;
  showShortcuts : bool
}.

(** The [switch] under [ctrlKey && !shiftKey]. *)
Definition conversionKey (k : jsstring) : option jsstring :=
  if eqs k (str "u") then Some (str "upperCase")
  else if eqs k (str "l") then Some (str "lowerCase")
  else if eqs k (str "t") then Some (str "titleCase")
  else if eqs k (str "c") then Some (str "camelCase")
  else if eqs k (str "p") then Some (str "pascalCase")
  else if eqs k (str "s") then Some (str "snakeCase")
  else if eqs k (str "k") then Some (str "kebabCase")
  else if eqs k (str "r") then Some (str "reverseText")
  else None.

(** The [switch] under [ctrlKey && shiftKey]. *)
Definition actionKey (k : jsstring) : option jsstring :=
  if eqs k (str "c") then Some (str "copy")
  else if eqs k (str "d") then Some (str "download")
  else if eqs k (str "x") then Some (str "clear")
  else None.

Definition toList {A} (o : option A) : list A :=
  match o with Some x => [x] | None => [] end.

Definition handleKeyDown (showShortcuts : bool) (e : keyEvent) : outcome :=
  if eqs (targetTagName e) (str "TEXTAREA")
     || eqs (targetTagName e) (str "INPUT")
  then {| prevented := false; calls := []; showShortcuts := showShortcuts |}
  else if eqs (key e) (str "?") && negb (ctrlKey e) && negb (shiftKey e)
  then {| prevented := true; calls := [];
          showShortcuts := negb showShortcuts |}
  else
    let conversion :=
      if ctrlKey e && negb (shiftKey e)
      then conversionKey (toLowerCase (key e)) else None in
    let action :=
      if ctrlKey e && shiftKey e
      then actionKey (toLowerCase (key e)) else None in
    {| prevented := isSome conversion || isSome action;
       calls := toList conversion ++ toList action;
       showShortcuts :=
         if eqs (key e) (str "Escape") then false else showShortcuts |}.

(** The object literal [textConversions] of [App], key by key. *)
Definition textConversions : list (jsstring * (jsstring -> jsstring)) :=
  [(str "sentenceCase", sentenceCase);
   (str "lowerCase", lowerCase);
   (str "upperCase", upperCase);
   (str "titleCase", titleCase);
   (str "camelCase", camelCase);
   (str "pascalCase", pascalCase);
   (str "snakeCase", snakeCase);
   (str "kebabCase", kebabCase);
   (str "alternatingCase", alternatingCase);
   (str "inverseCase", inverseCase);
   (str "reverseText", reverseText);
   (str "capitalizedCase", capitalizedCase)].

Fixpoint lookup {V} (table : list (jsstring * V)) (k : jsstring) : option V :=
  match table with
  | [] => None
  | (k', v) :: table' => if eqs k' k then Some v else lookup table' k
  end.

(** What leaves the application through [copyToClipboard] and
    [downloadText]. *)
Inductive effect : Type :=
| NoEffect
| ClipboardWrite (text : jsstring)
| Download (filename content : jsstring).

(** [handleShortcutAction].  An action that is no key of
    [textConversions] but names a member of [Object.prototype] reads a
    value that is no conversion: [None]. *)
Definition handleShortcutAction (action : jsstring) (env : clock)
  (st : state) : option (state * effect) :=
  if eqs action (str "copy") then
    Some (st, if truthy (outputText st)
              then ClipboardWrite (outputText st) else NoEffect)
  else if eqs action (str "download") then
    Some (st, if truthy (outputText st)
              then Download (str "converted-text.txt") (outputText st)
              else NoEffect)
  else if eqs action (str "clear") then Some (clearAll st, NoEffect)
  else
    match lookup textConversions action with
    | Some f => Some (handleConversion action f env st, NoEffect)
    | None =>
        match fromPrototype action with
        | Nothing => Some (st, NoEffect)
        | _ => None
        end
    end.

(** The conversions that have a shortcut. *)
Definition shortcutConversions : list (jsstring * ConversionId) :=
  [(str "upperCase", UpperCase); (str "lowerCase", LowerCase);
   (str "titleCase", TitleCase); (str "camelCase", CamelCase);
   (str "pascalCase", PascalCase); (str "snakeCase", SnakeCase);
   (str "kebabCase", KebabCase); (str "reverseText", ReverseText)].

End Shortcuts.

(** ** The readability badge of the analysis panel *)

Module Panel.

Record readability : Set := { level : jsstring; color : jsstring }.

(** [x >= y] *)
Definition ge (x y : number) : bool := SFleb y x.

Definition getReadabilityLevel (score : number) : readability :=
  if ge score (ofNat 90)
  then {| level := str "Very Easy"; color := str "bg-green-500" |}
  else if ge score (ofNat 80)
  then {| level := str "Easy"; color := str "bg-green-400" |}
  else if ge score (ofNat 70)
  then {| level := str "Fairly Easy"; color := str "bg-yellow-400" |}
  else if ge score (ofNat 60)
  then {| level := str "Standard"; color := str "bg-orange-400" |}
  else if ge score (ofNat 50)
  then {| level := str "Fairly Difficult"; color := str "bg-orange-500" |}
  else if ge score (ofNat 30)
  then {| level := str "Difficult"; color := str "bg-red-400" |}
  else {| level := str "Very Difficult"; color := str "bg-red-500" |}.

End Panel.

(** The bands of the badge, on whole scores. *)
Definition levelOfScore (n : nat) : jsstring :=
  if 90 <=? n then str "Very Easy"
  else if 80 <=? n then str "Easy"
  else if 70 <=? n then str "Fairly Easy"
  else if 60 <=? n then str "Standard"
  else if 50 <=? n then str "Fairly Difficult"
  else if 30 <=? n then str "Difficult"
  else str "Very Difficult".

(** The letters that the character counter counts, as one-code-unit
    keys: the code units a-z of the lowercased text. *)
Definition letters (text : jsstring) : list jsstring :=
  map (fun c => [c]) (filter isLower (toLowerCase text)).

(** ** File upload *)

Module Upload.

(** What [handleFiles] reads from a [File]. *)
Record file : Type := {
  fileName : jsstring;     (* file.name *)
  fileType : jsstring;     (* file.type *)
  fileSize : N             (* file.size *)
}.

(** What the host gives while one file is processed: the outcome of
    [readFileAsText] ([None] when the read is rejected), [Date.now()],
    [Math.random()] and the time string. *)
Record reading : Type := {
  text : option jsstring;
  now : N;
  random : number;
  localeTimeString : jsstring
}.

Record fileData : Type := {
  id : number;
  name : jsstring;
  size : N;
  content : jsstring;
  timestamp : jsstring
}.

(** [s.endsWith(suffix)] *)
Definition endsWith (s suffix : jsstring) : bool :=
  (length suffix <=? length s)
  && eqs (skipn (length s - length suffix) s) suffix.

(** The filter of [handleFiles]. *)
Definition isTextFile (f : file) : bool :=
  eqs (fileType f) (str "text/plain")
  || endsWith (fileName f) (str ".txt")
  || endsWith (fileName f) (str ".md")
  || endsWith (fileName f) (str ".csv").

(** The body of the [for] loop: a rejected read is logged and skipped. *)
Definition processFile (processedFiles : list fileData)
  (fr : file * reading) : list fileData :=
  match text (snd fr) with
  | Some t =>
      processedFiles ++
      [{| id := add (ofZ (Z.of_N (now (snd fr)))) (random (snd fr));
          name := fileName (fst fr);
          size := fileSize (fst fr);
          content := t;
          timestamp := localeTimeString (snd fr) |}]
  | None => processedFiles
  end.

(** What [handleFiles] does: the new [uploadedFiles], the text passed to
    [onTextLoaded] if it is called, and whether the alert is shown. *)
Record result : Type := {
  uploadedFiles : list fileData;
  loaded : option jsstring;
  alerted : bool
}.

Definition handleFiles (files : list (file * reading))
  (prev : list fileData) : result :=
  let textFiles := filter (fun fr => isTextFile (fst fr)) files in
  if length textFiles =? 0 then
    {| uploadedFiles := prev; loaded := None; alerted := true |}
  else
    let processedFiles := fold_left processFile textFiles [] in
    {| uploadedFiles := prev ++ processedFiles;
       loaded := option_map content (hd_error processedFiles);
       alerted := false |}.

End Upload.

(** ** Auxiliary definitions for the case conversion *)

(** No high surrogate of the list is followed by a low one. *)
Fixpoint noPair (l : list N) : bool :=
  match l with
  | [] => true
  | c :: l' =>
      match l' with
      | d :: _ => negb (isHighSurrogate c && isLowSurrogate d) && noPair l'
      | [] => true
      end
  end.

Definition headLow (l : list N) : bool :=
  match l with
  | d :: _ => isLowSurrogate d
  | [] => false
  end.

(** A code point that a conversion leaves as it is. *)
Definition stable (t : list (N * list N)) (x : N) : bool :=
  match Unicode.assoc t x with Some _ => false | None => true end.

(** What the conversions need of an entry: key and image hold no
    surrogate and no white space, and the image is not empty and is left
    as it is by the table. *)
Definition entryOk (t : list (N * list N)) (kv : N * list N) : bool :=
  negb (isSurrogate (fst kv)) && negb (isWhiteSpace (fst kv))
  && negb (length (snd kv) =? 0)
  && forallb (fun x => stable t x && negb (isSurrogate x)
                       && negb (isWhiteSpace x)) (snd kv).

(** The image [v] of the code point [c] under a conversion with table [t]. *)
Definition imageOk (t : list (N * list N)) (c : N) (v : list N) : Prop :=
  v <> [] /\
  forallb (stable t) v = true /\
  (isSurrogate c = true -> v = [c]) /\
  (isSurrogate c = false -> forallb (fun x => negb (isSurrogate x)) v = true) /\
  (isWhiteSpace c = true -> v = [c]) /\
  (isWhiteSpace c = false -> forallb (fun x => negb (isWhiteSpace x)) v = true).

(** [l'] is made of an image for every code point of [l], in order. *)
Inductive images (t : list (N * list N)) : list N -> list N -> Prop :=
| images_nil : images t [] []
| images_cons c v l l' :
    imageOk t c v -> images t l l' -> images t (c :: l) (v ++ l').

(** A code unit that is an ASCII character or a white space. *)
Definition isPlain (c : codeUnit) : bool := (c <? 128)%N || isWhiteSpace c.

(** * Properties *)

(** ** Elementary facts about strings *)

Lemma eqs_eq (a b : jsstring) : eqs a b = true <-> a = b.
Proof.
  revert b; induction a as [|x a IH]; intros [|y b]; simpl;
    try (split; [discriminate | congruence]); try tauto.
  rewrite andb_true_iff, N.eqb_eq, IH. split.
  - intros [-> ->]; reflexivity.
  - intros H; injection H; auto.
Qed.

Lemma takeWhile_dropWhile p s : takeWhile p s ++ dropWhile p s = s.
Proof.
  induction s as [|c s IH]; simpl; [reflexivity|].
  destruct (p c); simpl; [now rewrite IH | reflexivity].
Qed.

Lemma dropWhile_length p s : length (dropWhile p s) <= length s.
Proof.
  induction s as [|c s IH]; simpl; [lia|]. destruct (p c); simpl; lia.
Qed.

Lemma takeWhile_firstn p s :
  firstn (length s - length (dropWhile p s)) s = takeWhile p s.
Proof.
  rewrite <- (takeWhile_dropWhile p s) at 1 3.
  rewrite length_app.
  replace (_ + _ - _) with (length (takeWhile p s) + 0) by lia.
  rewrite firstn_app_2, firstn_O, app_nil_r. reflexivity.
Qed.

Lemma takeWhile_all p s : forallb p (takeWhile p s) = true.
Proof.
  induction s as [|c s IH]; simpl; [reflexivity|].
  destruct (p c) eqn:E; simpl; [now rewrite E | reflexivity].
Qed.

Lemma dropWhile_all p s : forallb p s = true -> dropWhile p s = [].
Proof.
  induction s as [|c s IH]; simpl; [reflexivity|].
  destruct (p c); simpl; [assumption | discriminate].
Qed.

Lemma dropWhile_nil_all p s : dropWhile p s = [] -> forallb p s = true.
Proof.
  induction s as [|c s IH]; simpl; [reflexivity|].
  destruct (p c); simpl; [assumption | discriminate].
Qed.

Lemma dropWhile_idem p s : dropWhile p (dropWhile p s) = dropWhile p s.
Proof.
  induction s as [|c s IH]; simpl; [reflexivity|].
  destruct (p c) eqn:E; simpl; [assumption | now rewrite E].
Qed.

(** ** The matcher on the expressions of the program *)

Lemma matchK_cat r1 r2 prev s k :
  matchK (Cat r1 r2) prev s k =
  matchK r1 prev s (fun p' s' => matchK r2 p' s' k).
Proof. reflexivity. Qed.

Lemma matchK_alt r1 r2 prev s k :
  matchK (Alt r1 r2) prev s k =
  match matchK r1 prev s k with
  | Some e => Some e
  | None => matchK r2 prev s k
  end.
Proof. reflexivity. Qed.

Lemma matchK_class p prev s k :
  matchK (Class p) prev s k =
  match s with
  | c :: s' => if p c then k (Some c) s' else None
  | [] => None
  end.
Proof. reflexivity. Qed.

Lemma matchK_bol prev s k :
  matchK Bol prev s k = match prev with None => k prev s | Some _ => None end.
Proof. reflexivity. Qed.

Section Greedy.

Variable p : codeUnit -> bool.

Lemma matchK_star_class k prev s :
  matchK (Star (Class p)) prev s k = greedy p k prev s.
Proof.
  simpl.
  assert (H : forall fuel s prev, length s <= fuel ->
    (fix iter (fuel : nat) (prev : option codeUnit) (s : jsstring)
       {struct fuel} : option jsstring :=
       match fuel with
       | O => k prev s
       | S fuel' =>
           match match s with
                 | [] => None
                 | c :: s' =>
                     if p c
                     then if length s' <? length s then iter fuel' (Some c) s'
                          else None
                     else None
                 end with
           | Some e => Some e
           | None => k prev s
           end
       end) fuel prev s = greedy p k prev s).
  { induction fuel as [|fuel IH]; intros [|c t] q Hl; simpl in *;
      try reflexivity; try lia.
    destruct (p c); [|reflexivity].
    replace (length t <? S (length t)) with true
      by (symmetry; apply Nat.ltb_lt; lia).
    rewrite IH by lia. reflexivity. }
  apply H. lia.
Qed.

Lemma greedy_total prev s :
  greedy p (fun _ s' => Some s') prev s = Some (dropWhile p s).
Proof.
  revert prev; induction s as [|c s IH]; intros prev; simpl; [reflexivity|].
  destruct (p c); [now rewrite IH | reflexivity].
Qed.

(** When the continuation wants a code unit outside the class, only the
    longest run can be followed by it. *)
Lemma greedy_then_class (q : codeUnit -> bool) prev s :
  (forall c, p c = true -> q c = false) ->
  greedy p (fun p' s' => matchK (Class q) p' s' (fun _ e => Some e)) prev s =
  match dropWhile p s with
  | c :: e => if q c then Some e else None
  | [] => None
  end.
Proof.
  intros D. revert prev; induction s as [|c s IH]; intros prev; simpl;
    [reflexivity|].
  destruct (p c) eqn:E; [|reflexivity].
  rewrite IH. destruct (dropWhile p s) as [|d e].
  - now rewrite (D c E).
  - destruct (q d); [reflexivity | now rewrite (D c E)].
Qed.

(** [p+] at a position. *)
Lemma matchAt_plus_class prev s :
  matchAt (Plus (Class p)) prev s =
  match s with
  | c :: s' => if p c then Some (dropWhile p s') else None
  | [] => None
  end.
Proof.
  unfold matchAt, Plus. rewrite matchK_cat, matchK_class.
  destruct s as [|c s]; [reflexivity|].
  destruct (p c); [|reflexivity].
  rewrite matchK_star_class. apply greedy_total.
Qed.

Lemma matchAt_class prev s :
  matchAt (Class p) prev s =
  match s with
  | c :: s' => if p c then Some s' else None
  | [] => None
  end.
Proof. reflexivity. Qed.

End Greedy.

Lemma replaceLoop_S fuel r f prev idx s :
  replaceLoop (S fuel) r f prev idx s =
  match matchAt r prev s with
  | Some rest =>
      match length s - length rest with
      | O =>
          f [] idx ++
          match s with
          | [] => []
          | c :: s' => c :: replaceLoop fuel r f (Some c) (S idx) s'
          end
      | n =>
          f (firstn n s) idx ++
          replaceLoop fuel r f (Some (last (firstn n s) 0%N)) (idx + n) rest
      end
  | None =>
      match s with
      | [] => []
      | c :: s' => c :: replaceLoop fuel r f (Some c) (S idx) s'
      end
  end.
Proof. reflexivity. Qed.

Lemma splitLoop_S fuel r prev seg s :
  splitLoop (S fuel) r prev seg s =
  match s with
  | [] => [seg]
  | c :: s' =>
      match matchAt r prev s with
      | Some rest =>
          match length s - length rest, seg with
          | O, [] => splitLoop fuel r (Some c) [c] s'
          | O, _ => seg :: splitLoop fuel r (Some c) [c] s'
          | n, _ =>
              seg :: splitLoop fuel r (Some (last (firstn n s) 0%N)) [] rest
          end
      | None => splitLoop fuel r (Some c) (seg ++ [c]) s'
      end
  end.
Proof. reflexivity. Qed.

Section Scans.

Variable p : codeUnit -> bool.

Lemma runs_not_nil b s : runs p b s <> [].
Proof.
  revert b; induction s as [|c s IH]; intros b; simpl; [discriminate|].
  destruct (p c); [destruct b; [apply IH | discriminate]|].
  specialize (IH false). destruct (runs p false s); [contradiction|discriminate].
Qed.

Lemma fields_not_nil s : fields p s <> [].
Proof.
  induction s as [|c s IH]; simpl; [discriminate|].
  destruct (p c); [discriminate|].
  destruct (fields p s); [contradiction|discriminate].
Qed.

Lemma runs_true_dropWhile s : runs p true s = runs p false (dropWhile p s).
Proof.
  induction s as [|c s IH]; simpl; [reflexivity|].
  destruct (p c) eqn:E; [assumption | simpl; now rewrite E].
Qed.

Lemma squeeze_true_dropWhile by_ s :
  squeeze p by_ true s = squeeze p by_ false (dropWhile p s).
Proof.
  induction s as [|c s IH]; simpl; [reflexivity|].
  destruct (p c) eqn:E; [assumption | simpl; now rewrite E].
Qed.

Lemma prependSeg_consHead seg c l :
  l <> [] -> prependSeg seg (consHead c l) = prependSeg (seg ++ [c]) l.
Proof.
  destruct l as [|h t]; [contradiction|]. intros _. simpl.
  now rewrite <- app_assoc.
Qed.

Lemma splitLoop_plus_class fuel prev seg s :
  length s < fuel ->
  splitLoop fuel (Plus (Class p)) prev seg s = prependSeg seg (runs p false s).
Proof.
  revert prev seg s; induction fuel as [|fuel IH]; intros prev seg s Hl;
    [lia|].
  rewrite splitLoop_S. destruct s as [|c s]; [simpl; now rewrite app_nil_r|].
  rewrite matchAt_plus_class. simpl runs. simpl in Hl.
  destruct (p c) eqn:E.
  - pose proof (dropWhile_length p s) as Hd.
    destruct (length (c :: s) - length (dropWhile p s)) eqn:En;
      [cbn [length] in En; lia|].
    rewrite IH by lia. simpl. rewrite app_nil_r, runs_true_dropWhile.
    destruct seg; destruct (runs p false (dropWhile p s)) eqn:Er;
      try reflexivity; now apply runs_not_nil in Er.
  - rewrite IH by lia. symmetry. apply prependSeg_consHead, runs_not_nil.
Qed.

Lemma split_plus_class s : split (Plus (Class p)) s = runs p false s.
Proof.
  destruct s as [|c s]; [reflexivity|].
  unfold split. rewrite splitLoop_plus_class by lia.
  destruct (runs p false (c :: s)) eqn:E; [now apply runs_not_nil in E|].
  reflexivity.
Qed.

Lemma splitLoop_class fuel prev seg s :
  length s < fuel ->
  splitLoop fuel (Class p) prev seg s = prependSeg seg (fields p s).
Proof.
  revert prev seg s; induction fuel as [|fuel IH]; intros prev seg s Hl;
    [lia|].
  rewrite splitLoop_S. destruct s as [|c s]; [simpl; now rewrite app_nil_r|].
  rewrite matchAt_class. simpl fields. simpl in Hl.
  destruct (p c) eqn:E.
  - destruct (length (c :: s) - length s) eqn:En; [cbn [length] in En; lia|].
    rewrite IH by lia. simpl. rewrite app_nil_r.
    destruct seg; destruct (fields p s) eqn:Er;
      try reflexivity; now apply fields_not_nil in Er.
  - rewrite IH by lia. symmetry. apply prependSeg_consHead, fields_not_nil.
Qed.

Lemma split_class s : split (Class p) s = fields p s.
Proof.
  destruct s as [|c s]; [reflexivity|].
  unfold split. rewrite splitLoop_class by lia.
  destruct (fields p (c :: s)) eqn:E; [now apply fields_not_nil in E|].
  reflexivity.
Qed.

Lemma fields_length s : length (fields p s) = S (length (filter p s)).
Proof.
  induction s as [|c s IH]; simpl; [reflexivity|].
  destruct (p c); simpl; [now rewrite IH|].
  destruct (fields p s); simpl in *; lia.
Qed.

Lemma replaceLoop_plus_class fuel by_ prev idx s :
  length s < fuel ->
  replaceLoop fuel (Plus (Class p)) (fun _ _ => by_) prev idx s =
  squeeze p by_ false s.
Proof.
  revert prev idx s; induction fuel as [|fuel IH]; intros prev idx s Hl;
    [lia|].
  rewrite replaceLoop_S, matchAt_plus_class.
  destruct s as [|c s]; [reflexivity|]. simpl in Hl. simpl squeeze.
  destruct (p c) eqn:E.
  - pose proof (dropWhile_length p s) as Hd.
    destruct (length (c :: s) - length (dropWhile p s)) eqn:En;
      [cbn [length] in En; lia|].
    cbv beta iota zeta. rewrite IH by lia. now rewrite squeeze_true_dropWhile.
  - now rewrite IH by lia.
Qed.

Lemma replaceAllWith_plus_class by_ s :
  replaceAllWith (Plus (Class p)) by_ s = squeeze p by_ false s.
Proof. apply replaceLoop_plus_class. lia. Qed.

Lemma replaceLoop_class_nil fuel prev idx s :
  length s < fuel ->
  replaceLoop fuel (Class p) (fun _ _ => []) prev idx s =
  filter (fun c => negb (p c)) s.
Proof.
  revert prev idx s; induction fuel as [|fuel IH]; intros prev idx s Hl;
    [lia|].
  rewrite replaceLoop_S, matchAt_class.
  destruct s as [|c s]; [reflexivity|]. simpl in Hl. simpl filter.
  destruct (p c) eqn:E; simpl negb; cbv iota.
  - destruct (length (c :: s) - length s) eqn:En; [cbn [length] in En; lia|].
    cbv beta iota zeta. rewrite IH by lia. reflexivity.
  - now rewrite IH by lia.
Qed.

Lemma replaceAllWith_class_nil s :
  replaceAllWith (Class p) [] s = filter (fun c => negb (p c)) s.
Proof. apply replaceLoop_class_nil. lia. Qed.

End Scans.

(** ** Character classes *)

Ltac units :=
  unfold lowerUnit, upperUnit, isWordChar, isNonSpace in *;
  unfold isWhiteSpace, isUpper, isLower, isDigit, isSurrogate,
    isHighSurrogate, isLowSurrogate, isChar in *;
  unfold inRange in *;
  simpl in *;
  repeat (match goal with
          | |- context [(?a <=? ?b)%N] => destruct (N.leb_spec a b)
          | |- context [(?a =? ?b)%N] => destruct (N.eqb_spec a b)
          | H : context [(?a <=? ?b)%N] |- _ => destruct (N.leb_spec a b)
          | H : context [(?a =? ?b)%N] |- _ => destruct (N.eqb_spec a b)
          end; simpl in *);
  try reflexivity; try discriminate; try lia.

(** * Properties of the case conversion *)

#[local] Arguments Unicode.lowerMapping : simpl never.
#[local] Arguments Unicode.upperMapping : simpl never.
#[local] Arguments Unicode.isCased : simpl never.
#[local] Arguments Unicode.isCaseIgnorable : simpl never.
#[local] Arguments UTF16EncodeCodePoint : simpl never.

(** ** Code points and their encoding *)

Lemma codePoints_cons2 c d s :
  codePoints (c :: d :: s) =
  if isHighSurrogate c && isLowSurrogate d
  then (65536 + (c - 55296) * 1024 + (d - 56320))%N :: codePoints s
  else c :: codePoints (d :: s).
Proof. reflexivity. Qed.

Lemma above_surrogates x :
  (57344 <= x)%N ->
  isHighSurrogate x = false /\ isLowSurrogate x = false /\
  isSurrogate x = false.
Proof. intros H. repeat split; units. Qed.

Lemma pair_above c d : (57344 <= 65536 + (c - 55296) * 1024 + (d - 56320))%N.
Proof. lia. Qed.

Lemma noPair_cons c l :
  noPair (c :: l) = negb (isHighSurrogate c && headLow l) && noPair l.
Proof.
  destruct l as [|d l]; [|reflexivity].
  simpl. now rewrite andb_false_r.
Qed.

Lemma headLow_codePoints s : headLow (codePoints s) = true -> headLow s = true.
Proof.
  destruct s as [|c [|d s]]; [discriminate|now simpl|].
  rewrite codePoints_cons2.
  destruct (isHighSurrogate c && isLowSurrogate d) eqn:E; [|easy].
  unfold headLow at 1.
  now rewrite (proj1 (proj2 (above_surrogates _ (pair_above c d)))).
Qed.

Lemma noPair_codePoints n : forall s, length s <= n -> noPair (codePoints s) = true.
Proof.
  induction n as [|n IH]; intros s Hl.
  - now destruct s.
  - destruct s as [|c [|d s]]; [reflexivity|reflexivity|].
    rewrite codePoints_cons2.
    destruct (isHighSurrogate c && isLowSurrogate d) eqn:E.
    + rewrite noPair_cons, IH by (simpl in *; lia).
      now rewrite (proj1 (above_surrogates _ (pair_above c d))).
    + rewrite noPair_cons, IH by (simpl in *; lia).
      destruct (isHighSurrogate c) eqn:H; [|reflexivity].
      simpl in E.
      destruct (headLow (codePoints (d :: s))) eqn:L; [|reflexivity].
      apply headLow_codePoints in L. simpl in L. congruence.
Qed.

Lemma headLow_encode l : headLow (CodePointsToString l) = headLow l.
Proof.
  destruct l as [|c l]; [reflexivity|].
  unfold CodePointsToString. simpl flat_map. unfold UTF16EncodeCodePoint.
  destruct (N.leb_spec c 65535); [reflexivity|].
  destruct (N.leb_spec c 1114111); unfold app, headLow.
  - assert (Q : ((c - 65536) / 1024 < 1024)%N)
      by (apply N.Div0.div_lt_upper_bound; lia).
    generalize dependent ((c - 65536) / 1024)%N. intros q Q.
    transitivity false; [clear -Q|clear -H]; units.
  - transitivity false; [|symmetry]; apply above_surrogates; lia.
Qed.

(** Decoding undoes encoding. *)
Lemma codePoints_encode l :
  noPair l = true -> codePoints (CodePointsToString l) = l.
Proof.
  induction l as [|c l IH]; [reflexivity|].
  rewrite noPair_cons. intros H. apply andb_prop in H as [H N].
  specialize (IH N).
  change (CodePointsToString (c :: l))
    with (UTF16EncodeCodePoint c ++ CodePointsToString l).
  pose proof (headLow_encode l) as HL.
  unfold UTF16EncodeCodePoint.
  destruct (N.leb_spec c 65535) as [B|B].
  - simpl app. destruct (CodePointsToString l) as [|d r] eqn:E.
    + simpl. now rewrite <- IH.
    + rewrite codePoints_cons2, IH. simpl in HL. rewrite HL.
      apply negb_true_iff in H. now rewrite H.
  - destruct (N.leb_spec c 1114111) as [B'|B'].
    + simpl app. rewrite codePoints_cons2, IH.
      assert (Q : ((c - 65536) / 1024 < 1024)%N)
        by (apply N.Div0.div_lt_upper_bound; lia).
      pose proof (N.mod_upper_bound (c - 65536) 1024 ltac:(lia)) as R.
      pose proof (N.div_mod (c - 65536) 1024 ltac:(lia)) as D.
      generalize dependent ((c - 65536) / 1024)%N. intros q Q D.
      generalize dependent ((c - 65536) mod 1024)%N. intros m R D.
      replace (isHighSurrogate (q + 55296)%N) with true by (clear -Q; units).
      replace (isLowSurrogate (m + 56320)%N) with true by (clear -R; units).
      simpl andb. cbv iota. f_equal. lia.
    + simpl app. destruct (CodePointsToString l) as [|d r] eqn:E.
      * simpl. now rewrite <- IH.
      * rewrite codePoints_cons2, IH.
        now rewrite (proj1 (above_surrogates c ltac:(lia))).
Qed.

(** ** The mapping tables *)

Lemma assoc_In t c v : Unicode.assoc t c = Some v -> In (c, v) t.
Proof.
  induction t as [|[k w] t IH]; [discriminate|]. simpl.
  destruct (N.eqb_spec k c) as [->|_].
  - intros [= ->]. now left.
  - intros H. right. now apply IH.
Qed.

Lemma lowerTable_ok :
  forallb (entryOk Unicode.lowerTable) Unicode.lowerTable = true.
Proof. vm_compute. reflexivity. Qed.

Lemma upperTable_ok :
  forallb (entryOk Unicode.upperTable) Unicode.upperTable = true.
Proof. vm_compute. reflexivity. Qed.

Lemma table_image t c :
  forallb (entryOk t) t = true ->
  imageOk t c (match Unicode.assoc t c with Some v => v | None => [c] end).
Proof.
  intros Ok. destruct (Unicode.assoc t c) as [v|] eqn:E.
  - apply assoc_In in E. rewrite forallb_forall in Ok.
    specialize (Ok _ E). unfold entryOk in Ok. simpl fst in Ok. simpl snd in Ok.
    apply andb_prop in Ok as [Ok F]. apply andb_prop in Ok as [Ok Ne].
    apply andb_prop in Ok as [Sk Wk].
    apply negb_true_iff in Sk, Wk.
    assert (F1 : forallb (stable t) v = true).
    { rewrite forallb_forall in *. intros x Hx. specialize (F x Hx).
      apply andb_prop in F as [F _]. now apply andb_prop in F as [F _]. }
    assert (F2 : forallb (fun x => negb (isSurrogate x)) v = true).
    { rewrite forallb_forall in *. intros x Hx. specialize (F x Hx).
      apply andb_prop in F as [F _]. now apply andb_prop in F as [_ F]. }
    assert (F3 : forallb (fun x => negb (isWhiteSpace x)) v = true).
    { rewrite forallb_forall in *. intros x Hx. specialize (F x Hx).
      now apply andb_prop in F as [_ F]. }
    repeat split; try congruence.
    intros ->. discriminate.
  - repeat split; try discriminate.
    + simpl. unfold stable. now rewrite E.
    + intros H. simpl. now rewrite H.
    + intros H. simpl. now rewrite H.
Qed.

Lemma lowerMapping_image c :
  imageOk Unicode.lowerTable c (Unicode.lowerMapping c).
Proof. apply table_image, lowerTable_ok. Qed.

Lemma upperMapping_image c :
  imageOk Unicode.upperTable c (Unicode.upperMapping c).
Proof. apply table_image, upperTable_ok. Qed.

Lemma sigma_image (b : bool) :
  imageOk Unicode.lowerTable 931 (if b then [962%N] else [963%N]).
Proof.
  destruct b; repeat split; try discriminate; vm_compute; reflexivity.
Qed.

Lemma stable_lowerMapping x :
  stable Unicode.lowerTable x = true ->
  Unicode.lowerMapping x = [x] /\ (x =? 931)%N = false.
Proof.
  unfold stable, Unicode.lowerMapping. intros H.
  destruct (Unicode.assoc Unicode.lowerTable x) eqn:E; [discriminate|].
  split; [reflexivity|].
  destruct (N.eqb_spec x 931) as [->|]; [|reflexivity].
  vm_compute in E. discriminate.
Qed.

Lemma stable_upperMapping x :
  stable Unicode.upperTable x = true -> Unicode.upperMapping x = [x].
Proof.
  unfold stable, Unicode.upperMapping. intros H.
  now destruct (Unicode.assoc Unicode.upperTable x).
Qed.

(** ** Conversion of a list of code points *)

Lemma toLowercase_images l : forall before,
  images Unicode.lowerTable l (Unicode.toLowercase before l).
Proof.
  induction l as [|c l IH]; intros before; simpl; constructor; [|apply IH].
  destruct (N.eqb_spec c 931) as [->|_].
  - apply sigma_image.
  - apply lowerMapping_image.
Qed.

Lemma toUppercase_images l :
  images Unicode.upperTable l (Unicode.toUppercase l).
Proof.
  induction l as [|c l IH]; simpl; constructor; [|apply IH].
  apply upperMapping_image.
Qed.

Lemma images_stable t l l' :
  images t l l' -> forallb (stable t) l' = true.
Proof.
  induction 1 as [|c v l l' (_ & S & _) _ IH]; [reflexivity|].
  now rewrite forallb_app, S, IH.
Qed.

Lemma surrogate_parts x :
  isSurrogate x = false ->
  isHighSurrogate x = false /\ isLowSurrogate x = false.
Proof. intros H. split; units. Qed.

Lemma low_is_surrogate x : isLowSurrogate x = true -> isSurrogate x = true.
Proof. intros H. units. Qed.

Lemma images_headLow t l l' : images t l l' -> headLow l' = headLow l.
Proof.
  destruct 1 as [|c v l l' (Ne & _ & Sc & Pc & _) _]; [reflexivity|].
  destruct (isSurrogate c) eqn:E.
  - now rewrite (Sc eq_refl).
  - specialize (Pc eq_refl). destruct v as [|x v]; [easy|].
    simpl in *. apply andb_prop in Pc as [Px _].
    apply negb_true_iff in Px.
    rewrite (proj2 (surrogate_parts x Px)).
    now rewrite (proj2 (surrogate_parts c E)).
Qed.

Lemma noPair_app_plain v l :
  forallb (fun x => negb (isSurrogate x)) v = true ->
  noPair (v ++ l) = noPair l.
Proof.
  induction v as [|x v IH]; [reflexivity|]. simpl app.
  intros H. simpl in H. apply andb_prop in H as [Hx H].
  apply negb_true_iff in Hx.
  rewrite noPair_cons, (proj1 (surrogate_parts x Hx)). now apply IH.
Qed.

Lemma images_noPair t l l' :
  images t l l' -> noPair l = true -> noPair l' = true.
Proof.
  induction 1 as [|c v l l' (Ne & _ & Sc & Pc & _) I IH]; [reflexivity|].
  rewrite noPair_cons. intros H. apply andb_prop in H as [H N].
  destruct (isSurrogate c) eqn:E.
  - rewrite (Sc eq_refl). simpl app.
    now rewrite noPair_cons, (images_headLow _ _ _ I), H, IH.
  - rewrite noPair_app_plain by now apply Pc. now apply IH.
Qed.

Lemma toLowercase_stable l : forall before,
  forallb (stable Unicode.lowerTable) l = true ->
  Unicode.toLowercase before l = l.
Proof.
  induction l as [|c l IH]; intros before H; [reflexivity|].
  simpl in H. apply andb_prop in H as [Hc H].
  apply stable_lowerMapping in Hc as [M S].
  simpl. now rewrite S, M, IH.
Qed.

Lemma toUppercase_stable l :
  forallb (stable Unicode.upperTable) l = true -> Unicode.toUppercase l = l.
Proof.
  induction l as [|c l IH]; intros H; [reflexivity|].
  simpl in H. apply andb_prop in H as [Hc H].
  unfold Unicode.toUppercase in *. simpl.
  now rewrite (stable_upperMapping c Hc), IH.
Qed.

(** ** Conversion of a string *)

Lemma toLowerCase_noPair s :
  noPair (Unicode.toLowercase [] (codePoints s)) = true.
Proof.
  apply (images_noPair _ _ _ (toLowercase_images _ _)).
  now apply (noPair_codePoints (length s)).
Qed.

Lemma toUpperCase_noPair s :
  noPair (Unicode.toUppercase (codePoints s)) = true.
Proof.
  apply (images_noPair _ _ _ (toUppercase_images _)).
  now apply (noPair_codePoints (length s)).
Qed.

Lemma toUpperCase_idem s : toUpperCase (toUpperCase s) = toUpperCase s.
Proof.
  unfold toUpperCase.
  rewrite codePoints_encode by apply toUpperCase_noPair.
  f_equal. apply toUppercase_stable.
  apply (images_stable _ _ _ (toUppercase_images _)).
Qed.

Lemma toLowerCase_idem s : toLowerCase (toLowerCase s) = toLowerCase s.
Proof.
  unfold toLowerCase.
  rewrite codePoints_encode by apply toLowerCase_noPair.
  f_equal. apply toLowercase_stable.
  apply (images_stable _ _ _ (toLowercase_images _ _)).
Qed.

(** ** ASCII and white space *)

Lemma codePoints_bmp s :
  forallb (fun c => negb (isSurrogate c)) s = true -> codePoints s = s.
Proof.
  induction s as [|c s IH]; [reflexivity|]. simpl forallb.
  intros H. apply andb_prop in H as [Hc H]. specialize (IH H).
  destruct s as [|d s]; [reflexivity|].
  rewrite codePoints_cons2, IH.
  apply negb_true_iff in Hc.
  now rewrite (proj1 (surrogate_parts c Hc)).
Qed.

Lemma below_128 c : (c < 128)%N -> In c (map N.of_nat (seq 0 128)).
Proof.
  intros H. rewrite <- (N2Nat.id c). apply in_map, in_seq. lia.
Qed.

Lemma ascii_mappings :
  forallb (fun c =>
    (if list_eq_dec N.eq_dec (Unicode.lowerMapping c) [lowerUnit c]
     then true else false)
    && (if list_eq_dec N.eq_dec (Unicode.upperMapping c) [upperUnit c]
        then true else false))
    (map N.of_nat (seq 0 128)) = true.
Proof. vm_compute. reflexivity. Qed.

Lemma plain_mappings c :
  isPlain c = true ->
  Unicode.lowerMapping c = [lowerUnit c] /\
  Unicode.upperMapping c = [upperUnit c] /\
  (c =? 931)%N = false /\ (c <=? 65535)%N = true /\
  isSurrogate c = false.
Proof.
  unfold isPlain. intros H.
  destruct (N.ltb_spec c 128) as [A|A].
  - pose proof ascii_mappings as M. rewrite forallb_forall in M.
    specialize (M c (below_128 c A)). apply andb_prop in M as [L U].
    destruct (list_eq_dec N.eq_dec (Unicode.lowerMapping c) [lowerUnit c]);
      [|discriminate].
    destruct (list_eq_dec N.eq_dec (Unicode.upperMapping c) [upperUnit c]);
      [|discriminate].
    repeat split; try assumption; clear -A; units.
  - simpl in H.
    destruct (lowerMapping_image c) as (_ & _ & _ & _ & L & _).
    destruct (upperMapping_image c) as (_ & _ & _ & _ & U & _).
    rewrite (L H), (U H).
    repeat split; clear -H; units.
Qed.

Lemma encode_bmp l :
  forallb (fun c => (c <=? 65535)%N) l = true -> CodePointsToString l = l.
Proof.
  induction l as [|c l IH]; [reflexivity|]. simpl forallb.
  intros H. apply andb_prop in H as [Hc H].
  change (CodePointsToString (c :: l))
    with (UTF16EncodeCodePoint c ++ CodePointsToString l).
  unfold UTF16EncodeCodePoint. rewrite Hc, IH by assumption. reflexivity.
Qed.

Lemma plain_lowerUnit c : isPlain c = true -> (lowerUnit c <=? 65535)%N = true.
Proof.
  intros H. destruct (plain_mappings c H) as (_ & _ & _ & B & _).
  clear H. units.
Qed.

Lemma plain_upperUnit c : isPlain c = true -> (upperUnit c <=? 65535)%N = true.
Proof.
  intros H. destruct (plain_mappings c H) as (_ & _ & _ & B & _).
  clear H. units.
Qed.

Lemma plain_bmp s :
  forallb isPlain s = true ->
  forallb (fun c => negb (isSurrogate c)) s = true.
Proof.
  induction s as [|c s IH]; [reflexivity|]. simpl.
  intros H. apply andb_prop in H as [Hc H].
  destruct (plain_mappings c Hc) as (_ & _ & _ & _ & S).
  now rewrite S, IH.
Qed.

(** On a string of ASCII characters and white space the conversions work
    code unit by code unit, on the letters A-Z and a-z. *)
Lemma toLowerCase_plain s :
  forallb isPlain s = true -> toLowerCase s = map lowerUnit s.
Proof.
  intros H. unfold toLowerCase. rewrite (codePoints_bmp s (plain_bmp s H)).
  assert (M : forall before, Unicode.toLowercase before s = map lowerUnit s).
  { induction s as [|c s IH]; intros before; [reflexivity|].
    simpl in H. apply andb_prop in H as [Hc H].
    destruct (plain_mappings c Hc) as (L & _ & S & _).
    simpl. now rewrite S, L, IH. }
  rewrite M. apply encode_bmp.
  clear M. induction s as [|c s IH]; [reflexivity|].
  simpl in H. apply andb_prop in H as [Hc H].
  simpl. now rewrite (plain_lowerUnit c Hc), IH.
Qed.

Lemma toUpperCase_plain s :
  forallb isPlain s = true -> toUpperCase s = map upperUnit s.
Proof.
  intros H. unfold toUpperCase. rewrite (codePoints_bmp s (plain_bmp s H)).
  assert (M : Unicode.toUppercase s = map upperUnit s).
  { induction s as [|c s IH]; [reflexivity|].
    simpl in H. apply andb_prop in H as [Hc H].
    destruct (plain_mappings c Hc) as (_ & U & _).
    unfold Unicode.toUppercase in *. simpl. now rewrite U, IH. }
  rewrite M. apply encode_bmp.
  clear M. induction s as [|c s IH]; [reflexivity|].
  simpl in H. apply andb_prop in H as [Hc H].
  simpl. now rewrite (plain_upperUnit c Hc), IH.
Qed.

Lemma word_is_plain c : isWordChar c = true -> isPlain c = true.
Proof.
  unfold isPlain. intros H. apply orb_true_iff. left. apply N.ltb_lt. units.
Qed.

Lemma space_is_plain c : isWhiteSpace c = true -> isPlain c = true.
Proof. unfold isPlain. intros ->. apply orb_true_r. Qed.

Lemma toUpperCase_word c :
  isWordChar c = true -> toUpperCase [c] = [upperUnit c].
Proof.
  intros H. apply (toUpperCase_plain [c]). simpl.
  now rewrite (word_is_plain c H).
Qed.

Lemma toLowerCase_word c :
  isWordChar c = true -> toLowerCase [c] = [lowerUnit c].
Proof.
  intros H. apply (toLowerCase_plain [c]). simpl.
  now rewrite (word_is_plain c H).
Qed.

(** A code unit of an encoded list is one of its code points or comes
    from a code point above the BMP, and is then not below the
    surrogates. *)
Lemma encode_units l c :
  In c (CodePointsToString l) -> In c l \/ (55296 <= c)%N.
Proof.
  unfold CodePointsToString. rewrite in_flat_map. intros (x & Hx & Hc).
  unfold UTF16EncodeCodePoint in Hc.
  destruct (N.leb_spec x 65535).
  - destruct Hc as [<- | []]. now left.
  - right. destruct (N.leb_spec x 1114111).
    + destruct Hc as [<- | [<- | []]].
      * generalize ((x - 65536) / 1024)%N. intros; lia.
      * generalize ((x - 65536) mod 1024)%N. intros; lia.
    + destruct Hc as [<- | []]. lia.
Qed.

Lemma stable_not_upper x :
  stable Unicode.lowerTable x = true -> isUpper x = false.
Proof.
  intros H. apply stable_lowerMapping in H as [M _].
  destruct (isUpper x) eqn:U; [|reflexivity].
  assert (P : isPlain x = true).
  { unfold isPlain. apply orb_true_iff. left. apply N.ltb_lt.
    clear -U. units. }
  destruct (plain_mappings x P) as (L & _). rewrite M in L.
  injection L as L. clear -U L. units.
Qed.

(** The lower case of a string has none of the letters A-Z. *)
Lemma toLowerCase_no_upper text c :
  In c (toLowerCase text) -> isUpper c = false.
Proof.
  intros H. apply encode_units in H as [H | H].
  - apply stable_not_upper.
    pose proof (images_stable _ _ _
                  (toLowercase_images (codePoints text) [])) as S.
    rewrite forallb_forall in S. now apply S.
  - clear -H. units.
Qed.



Lemma upperUnit_idem c : upperUnit (upperUnit c) = upperUnit c.
Proof. units. Qed.

Lemma lowerUnit_idem c : lowerUnit (lowerUnit c) = lowerUnit c.
Proof. units. Qed.

Lemma space_not_word c : isWhiteSpace c = true -> isWordChar c = false.
Proof. intros H. units. Qed.

Lemma upperUnit_not_lower c : isLower c = false -> upperUnit c = c.
Proof. intros H. unfold upperUnit. now rewrite H. Qed.

Lemma upperUnit_space c : isWhiteSpace c = true -> upperUnit c = c.
Proof. intros H. units. Qed.

Lemma lowerUnit_space c : isWhiteSpace c = true -> lowerUnit c = c.
Proof. intros H. units. Qed.

Lemma lowerUnit_isWhiteSpace c : isWhiteSpace (lowerUnit c) = isWhiteSpace c.
Proof. units. Qed.

(** ** Trimming *)

Lemma dropWhile_headOutside p s : headOutside p (dropWhile p s).
Proof.
  induction s as [|c s IH]; simpl; [exact I|].
  destruct (p c) eqn:E; [assumption | exact E].
Qed.

Lemma headOutside_dropWhile p s : headOutside p s -> dropWhile p s = s.
Proof. destruct s as [|c s]; simpl; [reflexivity | now intros ->]. Qed.

Lemma trimEnd_split s :
  s = trimEnd s ++ rev (takeWhile isWhiteSpace (rev s)).
Proof.
  unfold trimEnd. rewrite <- rev_app_distr, takeWhile_dropWhile.
  now rewrite rev_involutive.
Qed.

Lemma trimEnd_headOutside s :
  headOutside isWhiteSpace s -> headOutside isWhiteSpace (trimEnd s).
Proof.
  intros H. rewrite (trimEnd_split s) in H.
  destruct (trimEnd s); [exact I | exact H].
Qed.

Lemma trimEnd_idem s : trimEnd (trimEnd s) = trimEnd s.
Proof. unfold trimEnd. now rewrite rev_involutive, dropWhile_idem. Qed.

Lemma trim_headOutside s : headOutside isWhiteSpace (trim s).
Proof. apply trimEnd_headOutside, dropWhile_headOutside. Qed.

Lemma trim_idem s : trim (trim s) = trim s.
Proof.
  unfold trim at 1. unfold trimStart.
  rewrite headOutside_dropWhile by apply trim_headOutside.
  apply trimEnd_idem.
Qed.

Lemma forallb_rev (p : codeUnit -> bool) s : forallb p (rev s) = forallb p s.
Proof.
  induction s as [|c s IH]; simpl; [reflexivity|].
  rewrite forallb_app, IH. simpl. rewrite andb_true_r. apply andb_comm.
Qed.

Lemma trim_nil_iff s : trim s = [] <-> forallb isWhiteSpace s = true.
Proof.
  split; intros H.
  - apply dropWhile_nil_all.
    pose proof (dropWhile_headOutside isWhiteSpace s) as Hh.
    unfold trim, trimEnd, trimStart in H.
    assert (Hr : dropWhile isWhiteSpace (rev (dropWhile isWhiteSpace s)) = []).
    { rewrite <- (rev_involutive (dropWhile _ (rev _))), H. reflexivity. }
    apply dropWhile_nil_all in Hr. rewrite forallb_rev in Hr.
    destruct (dropWhile isWhiteSpace s) as [|c u]; [reflexivity|].
    simpl in Hh, Hr. rewrite Hh in Hr. discriminate.
  - unfold trim, trimStart. now rewrite (dropWhile_all _ _ H).
Qed.

Lemma existsb_nonSpace s :
  existsb isNonSpace s = negb (forallb isWhiteSpace s).
Proof.
  induction s as [|c s IH]; simpl; [reflexivity|].
  rewrite IH. unfold isNonSpace. now destruct (isWhiteSpace c).
Qed.

(** The guard of [analysis] and of [handleConversion]: the text has no
    code unit outside the white space. *)
Lemma truthy_trim s : truthy (trim s) = existsb isNonSpace s.
Proof.
  rewrite existsb_nonSpace.
  destruct (forallb isWhiteSpace s) eqn:E.
  - apply trim_nil_iff in E. now rewrite E.
  - destruct (trim s) eqn:Et; [|reflexivity].
    apply trim_nil_iff in Et. congruence.
Qed.

Lemma guard_blank s :
  negb (truthy s) || (length (trim s) =? 0) = negb (existsb isNonSpace s).
Proof.
  rewrite <- truthy_trim.
  destruct s as [|c s]; [reflexivity|]. simpl truthy at 1. simpl negb at 1.
  simpl orb. now destruct (trim (c :: s)).
Qed.

(** ** Case conversion, trimming and space squeezing *)

Lemma squeezed_fixed p sp b t :
  p sp = true -> squeezed p sp b t = true -> squeeze p [sp] b t = t.
Proof.
  intros Hsp. revert b; induction t as [|c t IH]; intros b; simpl;
    [reflexivity|].
  destruct (p c) eqn:E.
  - destruct b; simpl; [discriminate|].
    rewrite andb_true_iff, N.eqb_eq. intros [-> H]. now rewrite IH.
  - intros H. now rewrite IH.
Qed.

Lemma squeeze_squeezed p sp b s :
  p sp = true -> squeezed p sp b (squeeze p [sp] b s) = true.
Proof.
  intros Hsp. revert b; induction s as [|c s IH]; intros b; simpl;
    [reflexivity|].
  destruct (p c) eqn:E.
  - destruct b; [apply IH|]. simpl. rewrite Hsp, N.eqb_refl. apply IH.
  - simpl. rewrite E. apply IH.
Qed.

Lemma removeExtraSpaces_squeeze s :
  removeExtraSpaces s = squeeze isWhiteSpace [32%N] false s.
Proof. apply replaceAllWith_plus_class. Qed.

(** C7: each of upperCase, lowerCase, trimWhitespace and
    removeExtraSpaces is idempotent, applying it twice gives what applying
    it once gives, on every string. *)
Theorem conversions_idempotent (s : jsstring) :
  convert UpperCase (convert UpperCase s) = convert UpperCase s /\
  convert LowerCase (convert LowerCase s) = convert LowerCase s /\
  convert TrimWhitespace (convert TrimWhitespace s) = convert TrimWhitespace s /\
  convert RemoveExtraSpaces (convert RemoveExtraSpaces s) =
    convert RemoveExtraSpaces s.
Proof.
  simpl convert. repeat split.
  - apply toUpperCase_idem.
  - apply toLowerCase_idem.
  - apply trim_idem.
  - rewrite !removeExtraSpaces_squeeze.
    apply squeezed_fixed; [reflexivity|]. now apply squeeze_squeezed.
Qed.

(** ** Reversal and code points *)

Lemma reverseText_rev s : reverseText s = rev s.
Proof.
  unfold reverseText, joinEmpty, reverse, splitUnits.
  induction s as [|c s IH]; simpl; [reflexivity|].
  rewrite concat_app, IH. simpl. reflexivity.
Qed.

Lemma codePoints_pairs_length n : forall s,
  length s <= n -> length (codePoints s) + surrogatePairs s = length s.
Proof.
  induction n as [|n IH]; intros [|c s] H; simpl in H; try reflexivity;
    try lia.
  destruct s as [|d s]; [reflexivity|].
  change (codePoints (c :: d :: s)) with
    (if isHighSurrogate c && isLowSurrogate d
     then (65536 + (c - 55296) * 1024 + (d - 56320))%N :: codePoints s
     else c :: codePoints (d :: s)).
  change (surrogatePairs (c :: d :: s)) with
    (if isHighSurrogate c && isLowSurrogate d
     then S (surrogatePairs s)
     else surrogatePairs (d :: s)).
  destruct (isHighSurrogate c && isLowSurrogate d).
  - simpl in H. simpl length. specialize (IH s). lia.
  - specialize (IH (d :: s) ltac:(simpl in *; lia)).
    cbn [length] in *. lia.
Qed.

(** C8 as it is written fails on a surrogate pair: the one code point
    U+1F600 is two code units, which [reverseText] swaps. *)
Lemma reverseText_code_points_counterexample :
  codePoints (convert ReverseText [55357; 56832]%N) <>
  rev (codePoints [55357; 56832]%N).
Proof. vm_compute. discriminate. Qed.

(** C8, amended: reverseText reverses the sequence of UTF-16 code units of
    every string; applied twice it gives the string back; "abc" becomes
    "cba"; and for a string without surrogate code units (ASCII strings
    among them) the result is the reversed code-point sequence. *)
Theorem reverseText_code_units (s : jsstring) :
  convert ReverseText s = rev s /\
  convert ReverseText (convert ReverseText s) = s /\
  convert ReverseText (str "abc") = str "cba" /\
  (forallb (fun c => negb (isSurrogate c)) s = true ->
   codePoints (convert ReverseText s) = rev (codePoints s)).
Proof.
  simpl convert. rewrite !reverseText_rev, rev_involutive.
  repeat split. intros H.
  rewrite (codePoints_bmp s H). apply codePoints_bmp.
  now rewrite forallb_rev.
Qed.

Lemma reverseText_code_units_witness :
  codePoints (convert ReverseText (str "a-Z")) = rev (codePoints (str "a-Z")).
Proof.
  apply (proj2 (proj2 (proj2 (reverseText_code_units (str "a-Z"))))).
  reflexivity.
Defined.

(** ** The guard of [analysis] *)

Lemma analysis_blank text :
  existsb isNonSpace text = false -> analysis text = emptyReport.
Proof.
  intros H. unfold analysis. now rewrite guard_blank, H.
Qed.

Lemma characters_analysis text :
  characters (analysis text) =
  if existsb isNonSpace text then length text else 0.
Proof.
  unfold analysis. rewrite guard_blank.
  now destruct (existsb isNonSpace text).
Qed.

(** C3 as it is written fails twice: on a text of one space the report
    counts no character, and on the one code point U+1F600 it counts two. *)
Lemma characters_code_points_counterexample :
  characters (analysis (str " ")) <> length (codePoints (str " ")) /\
  characters (analysis [55357; 56832]%N) <>
    length (codePoints [55357; 56832]%N).
Proof. split; vm_compute; discriminate. Qed.

(** C3, amended: for a text with a code unit outside the white space,
    [characters] is the number of UTF-16 code units of the text; for an
    empty or white-space-only text it is 0.  The number of code units is
    the number of code points plus the number of surrogate pairs. *)
Theorem characters_code_units (text : jsstring) :
  characters (analysis text) =
    (if existsb isNonSpace text then length text else 0) /\
  length text = length (codePoints text) + surrogatePairs text.
Proof.
  split; [apply characters_analysis|].
  symmetry. apply (codePoints_pairs_length (length text)). lia.
Qed.

(** ** The conversion history *)

Lemma handleConversion_blank ty f env st :
  existsb isNonSpace (inputText st) = false ->
  handleConversion ty f env st = st.
Proof.
  intros H. unfold handleConversion. now rewrite truthy_trim, H.
Qed.

Lemma handleConversion_nonblank ty f env st :
  existsb isNonSpace (inputText st) = true ->
  handleConversion ty f env st =
  {| inputText := inputText st;
     outputText := f (inputText st);
     conversionHistory := mkEntry ty f env st :: firstn 9 (conversionHistory st) |}.
Proof.
  intros H. unfold handleConversion. now rewrite truthy_trim, H.
Qed.

(** C10: a conversion invoked while the input is empty or white space
    only changes nothing: the state after [handleConversion] (output text
    and history included) is the state before, whatever the conversion.  *)
Theorem handleConversion_blank_input
  (conversionType : jsstring) (conversionFunction : jsstring -> jsstring)
  (env : clock) (st : state) :
  forallb isWhiteSpace (inputText st) = true ->
  handleConversion conversionType conversionFunction env st = st /\
  outputText (handleConversion conversionType conversionFunction env st) =
    outputText st /\
  conversionHistory (handleConversion conversionType conversionFunction env st) =
    conversionHistory st.
Proof.
  intros H.
  assert (E : handleConversion conversionType conversionFunction env st = st).
  { apply handleConversion_blank. rewrite existsb_nonSpace, H. reflexivity. }
  rewrite E. auto.
Qed.

Lemma handleConversion_blank_input_witness :
  let st := {| inputText := str "  ";
               outputText := str "OLD";
               conversionHistory := [] |} in
  handleConversion (str "upperCase") upperCase
    {| now := 0; localeTimeString := [] |} st = st.
Proof.
  intros st.
  apply (handleConversion_blank_input (str "upperCase") upperCase
           {| now := 0; localeTimeString := [] |} st).
  reflexivity.
Defined.

#[local] Arguments firstn : simpl never.

Lemma firstn_app_firstn {A} (l h : list A) : forall n m,
  n <= length l + m -> firstn n (l ++ firstn m h) = firstn n (l ++ h).
Proof.
  induction l as [|a l IH]; intros n m H; simpl in *.
  - rewrite firstn_firstn. f_equal. lia.
  - destruct n as [|n]; [reflexivity|]. rewrite !firstn_cons. f_equal.
    apply IH. lia.
Qed.

Lemma step_history_length st ev :
  length (conversionHistory st) <= 10 ->
  length (conversionHistory (step st ev)) <= 10.
Proof.
  intros H. destruct ev as [v|ty f env|]; simpl; try assumption.
  unfold handleConversion.
  destruct (negb (truthy (trim (inputText st)))); [assumption|].
  cbn [conversionHistory length]. rewrite length_firstn. lia.
Qed.

Lemma run_history st evs :
  length (conversionHistory st) <= 10 ->
  conversionHistory (run st evs) =
  firstn 10 (rev (created st evs) ++ conversionHistory st).
Proof.
  revert st; induction evs as [|ev evs IH]; intros st H.
  - simpl. symmetry. apply firstn_all2. exact H.
  - change (run st (ev :: evs)) with (run (step st ev) evs).
    rewrite IH by now apply step_history_length.
    simpl created. rewrite rev_app_distr, <- app_assoc.
    destruct ev as [v|ty f env|]; try (simpl; reflexivity).
    simpl step. unfold handleConversion.
    destruct (truthy (trim (inputText st))) eqn:E; simpl negb; cbv iota;
      [|simpl; reflexivity].
    cbn [conversionHistory rev app].
    change (mkEntry ty f env st :: firstn 9 (conversionHistory st))
      with (firstn 10 (mkEntry ty f env st :: conversionHistory st)).
    apply firstn_app_firstn. lia.
Qed.

Lemma firstn_removelast {A} (l : list A) n :
  length l = S n -> firstn n l = removelast l.
Proof.
  revert n; induction l as [|a l IH]; intros n H; [discriminate|].
  simpl in H. destruct l as [|b l].
  - simpl in H. now replace n with 0 by lia.
  - destruct n as [|n]; [simpl in H; lia|].
    change (a :: firstn n (b :: l) = a :: removelast (b :: l)).
    f_equal. apply IH. simpl in *. lia.
Qed.

(** C9: along every run of the application from its initial state the
    history holds at most 10 entries, namely the 10 most recently created
    ones, newest first; a conversion on an input that is not blank puts
    exactly one new entry in front, keeps the others in order, and drops
    the last (oldest) one when there were already 10. *)
Theorem history_bounded_newest_first (evs : list event) :
  let st := run initial evs in
  length (conversionHistory st) <= 10 /\
  conversionHistory st = firstn 10 (rev (created initial evs)) /\
  forall ty f env,
    existsb isNonSpace (inputText st) = true ->
    let h' := conversionHistory (handleConversion ty f env st) in
    h' = mkEntry ty f env st :: firstn 9 (conversionHistory st) /\
    (length (conversionHistory st) < 10 ->
     h' = mkEntry ty f env st :: conversionHistory st) /\
    (length (conversionHistory st) = 10 ->
     h' = mkEntry ty f env st :: removelast (conversionHistory st)).
Proof.
  intros st.
  assert (E : conversionHistory st = firstn 10 (rev (created initial evs))).
  { unfold st. rewrite run_history by (simpl; lia).
    simpl conversionHistory. now rewrite app_nil_r. }
  assert (L : length (conversionHistory st) <= 10).
  { rewrite E, length_firstn. lia. }
  repeat split; try assumption.
  - rewrite handleConversion_nonblank by assumption. reflexivity.
  - intros Hl. rewrite handleConversion_nonblank by assumption. simpl.
    f_equal. apply firstn_all2. lia.
  - intros Hl. rewrite handleConversion_nonblank by assumption. simpl.
    f_equal. now apply firstn_removelast.
Qed.

Lemma history_bounded_newest_first_witness :
  let evs := [Change (str "ab"); Conversion (str "upperCase") upperCase
                                   {| now := 7; localeTimeString := [] |}] in
  let st := run initial evs in
  conversionHistory
    (handleConversion (str "lowerCase") lowerCase
       {| now := 9; localeTimeString := [] |} st) =
  mkEntry (str "lowerCase") lowerCase {| now := 9; localeTimeString := [] |} st
  :: conversionHistory st.
Proof.
  intros evs st.
  apply (proj2 (proj2 (history_bounded_newest_first evs))
           (str "lowerCase") lowerCase {| now := 9; localeTimeString := [] |}).
  - reflexivity.
  - vm_compute. lia.
Defined.

(** ** Title case *)

Lemma matchAt_titleWord prev s :
  matchAt reTitleWord prev s =
  match s with
  | c :: s' => if isWordChar c then Some (dropWhile isNonSpace s') else None
  | [] => None
  end.
Proof.
  unfold matchAt, reTitleWord. rewrite matchK_cat, matchK_class.
  destruct s as [|c s]; [reflexivity|].
  destruct (isWordChar c); [|reflexivity].
  rewrite matchK_star_class. apply greedy_total.
Qed.

Lemma titleScan_token s : forall t,
  titleScan (Some t) s =
  toLowerCase (t ++ takeWhile isNonSpace s)
  ++ titleScan None (dropWhile isNonSpace s).
Proof.
  induction s as [|c s IH]; intros t.
  - simpl. now rewrite !app_nil_r.
  - simpl. unfold isNonSpace at 1 3.
    destruct (isWhiteSpace c) eqn:E; simpl.
    + now rewrite (space_not_word c E), app_nil_r.
    + now rewrite IH, <- app_assoc.
Qed.

Lemma replaceLoop_titleWord fuel prev idx s :
  length s < fuel ->
  replaceLoop fuel reTitleWord
    (fun txt _ => toUpperCase (charAt0 txt) ++ toLowerCase (substr1 txt))
    prev idx s =
  titleScan None s.
Proof.
  revert prev idx s; induction fuel as [|fuel IH]; intros prev idx s Hl;
    [lia|].
  rewrite replaceLoop_S, matchAt_titleWord.
  destruct s as [|c s]; [reflexivity|]. simpl in Hl. simpl titleScan.
  destruct (isWordChar c) eqn:E.
  - pose proof (dropWhile_length isNonSpace s) as Hd.
    destruct (length (c :: s) - length (dropWhile isNonSpace s)) eqn:En;
      [cbn [length] in En; lia|].
    cbv beta iota zeta.
    assert (n = length s - length (dropWhile isNonSpace s))
      by (cbn [length] in En; lia).
    subst n. rewrite firstn_cons, takeWhile_firstn.
    rewrite IH by lia. rewrite titleScan_token.
    unfold charAt0, substr1. rewrite firstn_cons, firstn_O, skipn_cons, skipn_O.
    now rewrite (toUpperCase_word c E).
  - now rewrite IH by lia.
Qed.

(** C5 as it is written fails when a word is glued to the one before by
    a punctuation mark: in "a-b" the [b] stays in lower case. *)
Lemma titleCase_words_counterexample :
  convert TitleCase (str "a-b") = str "A-b" /\
  titleWords false (str "a-b") = str "A-B" /\
  convert TitleCase (str "a-b") <> titleWords false (str "a-b").
Proof. repeat split. vm_compute. discriminate. Qed.

(** C5, amended: titleCase works on the matches of [\w\S*], that is from
    a word character up to the next white space: the first code unit of a
    match goes to upper case, all the others of the match (word characters
    or not) to lower case, and the code units outside the matches (white
    space, and punctuation before the first word character of a token)
    stay as they are. *)
Theorem titleCase_tokens (s : jsstring) :
  convert TitleCase s = titleScan None s.
Proof. apply replaceLoop_titleWord. lia. Qed.

(** ** Sentence case *)

Lemma matchAt_sentenceStart prev s :
  matchAt reSentenceStart prev s =
  match s with
  | c :: s' =>
      match prev with
      | None => if isWordChar c then Some s'
                else if isChar "." c then afterDot s' else None
      | Some _ => if isChar "." c then afterDot s' else None
      end
  | [] => None
  end.
Proof.
  unfold matchAt, reSentenceStart, Plus.
  rewrite matchK_alt, !matchK_cat, matchK_bol, !matchK_class.
  assert (D : forall s',
    matchK (Cat (Class isWhiteSpace) (Star (Class isWhiteSpace))) 
      (Some 46%N) s'
      (fun p' e => matchK (Class isWordChar) p' e (fun _ r => Some r)) =
    afterDot s').
  { intros s'. rewrite matchK_cat, matchK_class. unfold afterDot.
    destruct s' as [|d s']; [reflexivity|].
    destruct (isWhiteSpace d); [|reflexivity].
    rewrite matchK_star_class.
    apply (greedy_then_class isWhiteSpace isWordChar (Some d) s').
    apply space_not_word. }
  destruct s as [|c s]; [now destruct prev|].
  assert (C : (if isChar "." c
               then matchK (Cat (Class isWhiteSpace) (Star (Class isWhiteSpace)))
                      (Some c) s
                      (fun p' e =>
                         matchK (Class isWordChar) p' e (fun _ r => Some r))
               else None) =
              (if isChar "." c then afterDot s else None)).
  { destruct (isChar "." c) eqn:E; [|reflexivity].
    apply N.eqb_eq in E. subst c. apply D. }
  destruct prev as [q|].
  - exact C.
  - destruct (isWordChar c); [reflexivity | exact C].
Qed.

Lemma dot_not_word c : isChar "." c = true -> isWordChar c = false.
Proof. intros H. apply N.eqb_eq in H. subst c. reflexivity. Qed.

Lemma dot_not_space c : isChar "." c = true -> isWhiteSpace c = false.
Proof. intros H. apply N.eqb_eq in H. subst c. reflexivity. Qed.

Lemma capitalize_spaces s :
  capitalize (isChar ".") AfterStopSpace s =
  takeWhile isWhiteSpace s
  ++ capitalize (isChar ".") AfterStopSpace (dropWhile isWhiteSpace s).
Proof.
  induction s as [|c s IH]; [reflexivity|]. simpl.
  destruct (isWhiteSpace c) eqn:E; [|simpl; now rewrite E].
  destruct (isChar "." c) eqn:F;
    [apply dot_not_space in F; congruence|].
  simpl. now rewrite IH.
Qed.

(** After a stop that starts no match the scan goes on as anywhere else. *)
Lemma capitalize_no_start_space s :
  match dropWhile isWhiteSpace s with
  | x :: _ => isWordChar x = false
  | [] => True
  end ->
  capitalize (isChar ".") AfterStopSpace s =
  capitalize (isChar ".") Elsewhere s.
Proof.
  induction s as [|c s IH]; [reflexivity|]. simpl.
  destruct (isChar "." c); [reflexivity|].
  destruct (isWhiteSpace c); [intros H; now rewrite IH|].
  now intros ->.
Qed.

Lemma capitalize_no_start s :
  afterDot s = None ->
  capitalize (isChar ".") AfterStop s = capitalize (isChar ".") Elsewhere s.
Proof.
  destruct s as [|d s]; [reflexivity|]. simpl.
  destruct (isChar "." d); [reflexivity|].
  destruct (isWhiteSpace d); [|reflexivity].
  intros H. f_equal. apply capitalize_no_start_space.
  destruct (dropWhile isWhiteSpace s) as [|x e]; [exact I|].
  now destruct (isWordChar x).
Qed.

Lemma capitalize_dot_match pos c d s x e :
  isChar "." c = true -> isWhiteSpace d = true ->
  dropWhile isWhiteSpace s = x :: e -> isWordChar x = true ->
  capitalize (isChar ".") pos (c :: d :: s) =
  c :: d :: takeWhile isWhiteSpace s
  ++ upperUnit x :: capitalize (isChar ".") Elsewhere e.
Proof.
  intros F Ed Edrop Ex. simpl. rewrite F.
  destruct (isChar "." d) eqn:G; [apply dot_not_space in G; congruence|].
  rewrite Ed. do 2 f_equal.
  rewrite capitalize_spaces, Edrop. f_equal. simpl.
  destruct (isChar "." x) eqn:Gx; [apply dot_not_word in Gx; congruence|].
  destruct (isWhiteSpace x) eqn:Wx;
    [apply space_not_word in Wx; congruence|].
  now rewrite Ex.
Qed.

Lemma firstn_prefix {A} (a b : list A) :
  firstn (length (a ++ b) - length b) (a ++ b) = a.
Proof.
  rewrite length_app.
  replace (length a + length b - length b) with (length a + 0) by lia.
  now rewrite firstn_app_2, firstn_O, app_nil_r.
Qed.

Lemma upperUnit_spaces s :
  forallb isWhiteSpace s = true -> map upperUnit s = s.
Proof.
  induction s as [|c s IH]; [reflexivity|]. simpl.
  intros H. apply andb_true_iff in H as [Hc Hs].
  now rewrite IH, upperUnit_space.
Qed.

Lemma spaces_plain s :
  forallb isWhiteSpace s = true -> forallb isPlain s = true.
Proof.
  induction s as [|c s IH]; [reflexivity|]. simpl.
  intros H. apply andb_true_iff in H as [Hc Hs].
  now rewrite (space_is_plain c Hc), IH.
Qed.

Lemma replaceLoop_sentenceStart fuel prev idx s :
  length s < fuel ->
  replaceLoop fuel reSentenceStart (fun m _ => toUpperCase m) prev idx s =
  capitalize (isChar ".")
    (match prev with None => AtStart | Some _ => Elsewhere end) s.
Proof.
  revert prev idx s; induction fuel as [|fuel IH]; intros prev idx s Hl;
    [lia|].
  rewrite replaceLoop_S, matchAt_sentenceStart.
  destruct s as [|c s]; [reflexivity|]. simpl in Hl.
  assert (Copy : forall pos,
    (isChar "." c = true -> afterDot s = None) ->
    (pos = AtStart -> isWordChar c = false) ->
    pos = AtStart \/ pos = Elsewhere ->
    c :: replaceLoop fuel reSentenceStart (fun m _ => toUpperCase m)
           (Some c) (S idx) s =
    capitalize (isChar ".") pos (c :: s)).
  { intros pos Hdot Hw Hpos. rewrite IH by lia. simpl.
    destruct (isChar "." c) eqn:F.
    - now rewrite capitalize_no_start by auto.
    - destruct Hpos as [-> | ->]; [now rewrite Hw|reflexivity]. }
  assert (Dot : forall pos e,
    isChar "." c = true -> afterDot s = Some e ->
    match length (c :: s) - length e with
    | O => toUpperCase [] ++
           c :: replaceLoop fuel reSentenceStart (fun m _ => toUpperCase m)
                  (Some c) (S idx) s
    | n => toUpperCase (firstn n (c :: s)) ++
           replaceLoop fuel reSentenceStart (fun m _ => toUpperCase m)
             (Some (last (firstn n (c :: s)) 0%N)) (idx + n) e
    end = capitalize (isChar ".") pos (c :: s)).
  { intros pos e F Ha. unfold afterDot in Ha.
    destruct s as [|d s]; [discriminate|].
    destruct (isWhiteSpace d) eqn:Ed; [|discriminate].
    pose proof (takeWhile_dropWhile isWhiteSpace s) as Hs.
    pose proof (takeWhile_all isWhiteSpace s) as Hall.
    destruct (dropWhile isWhiteSpace s) as [|x e'] eqn:Edrop; [discriminate|].
    destruct (isWordChar x) eqn:Ex; [|discriminate].
    injection Ha as <-.
    rewrite (capitalize_dot_match pos c d s x e' F Ed Edrop Ex).
    assert (Hsplit :
      c :: d :: s = (c :: d :: takeWhile isWhiteSpace s ++ [x]) ++ e').
    { simpl. rewrite <- app_assoc. simpl. now rewrite Hs. }
    assert (Hlen : length e' < fuel).
    { apply (f_equal (@length _)) in Hsplit. rewrite length_app in Hsplit.
      simpl in Hsplit, Hl. lia. }
    rewrite Hsplit.
    destruct (length ((c :: d :: takeWhile isWhiteSpace s ++ [x]) ++ e')
              - length e') eqn:En;
      [rewrite length_app in En; cbn [length] in En; lia|].
    cbv beta iota zeta. rewrite <- En, firstn_prefix.
    rewrite IH by exact Hlen.
    rewrite toUpperCase_plain.
    2:{ cbn [forallb]. rewrite forallb_app, (spaces_plain _ Hall).
        cbn [forallb]. rewrite (space_is_plain d Ed), (word_is_plain x Ex).
        apply N.eqb_eq in F. subst c. reflexivity. }
    cbn [map]. rewrite map_app.
    rewrite (upperUnit_spaces _ Hall), (upperUnit_space d Ed).
    replace (upperUnit c) with c
      by (apply N.eqb_eq in F; subst c; reflexivity).
    simpl. rewrite <- app_assoc. reflexivity. }
  destruct prev as [q|].
  - destruct (isChar "." c) eqn:F.
    + destruct (afterDot s) as [e|] eqn:Ha.
      * now apply Dot.
      * apply Copy; auto. discriminate.
    + apply Copy; auto; discriminate.
  - destruct (isWordChar c) eqn:W.
    + destruct (length (c :: s) - length s) eqn:En;
        [cbn [length] in En; lia|].
      assert (n = 0) by (cbn [length] in En; lia). subst n.
      cbv beta iota zeta. rewrite IH by lia.
      rewrite firstn_cons, firstn_O, (toUpperCase_word c W). simpl.
      destruct (isChar "." c) eqn:F;
        [apply dot_not_word in F; congruence|].
      now rewrite W.
    + destruct (isChar "." c) eqn:F.
      * destruct (afterDot s) as [e|] eqn:Ha.
        -- now apply Dot.
        -- apply Copy; auto.
      * apply Copy; auto; discriminate.
Qed.

(** C6 as it is written fails after an exclamation mark: the word after
    "! " stays in lower case. *)
Lemma sentenceCase_bang_counterexample :
  convert SentenceCase (str "hi! there") = str "Hi! there" /\
  capitalize isDotOrBang AtStart (toLowerCase (str "hi! there")) =
    str "Hi! There" /\
  convert SentenceCase (str "hi! there") <>
    capitalize isDotOrBang AtStart (toLowerCase (str "hi! there")).
Proof. repeat split. vm_compute. discriminate. Qed.

(** C6, amended: sentenceCase first lowercases the whole string and then
    puts in upper case the first code unit of the string when it is a word
    character, and every word character that comes after a "." and one
    or more white spaces; "!" and "?" start no sentence. *)
Theorem sentenceCase_after_dot (s : jsstring) :
  convert SentenceCase s = capitalize (isChar ".") AtStart (toLowerCase s).
Proof.
  apply (replaceLoop_sentenceStart (S (length (toLowerCase s))) None 0).
  lia.
Qed.

(** ** Words and sentences *)

Lemma filter_truthy_consHead c l :
  l <> [] ->
  filter truthy (consHead c l) = (c :: hd [] l) :: filter truthy (tl l).
Proof. destruct l; [contradiction | reflexivity]. Qed.

Lemma runs_fields p s :
  (hd [] (runs p false s) = hd [] (fields p s) /\
   filter truthy (tl (runs p false s)) = filter truthy (tl (fields p s))) /\
  filter truthy (runs p true s) = filter truthy (fields p s).
Proof.
  induction s as [|c s [[Hh Ht] Hq]]; [now repeat split|]. simpl.
  destruct (p c); [now repeat split|].
  pose proof (runs_not_nil p false s) as N1.
  pose proof (fields_not_nil p s) as N2.
  rewrite !filter_truthy_consHead by assumption.
  destruct (runs p false s); [contradiction|].
  destruct (fields p s); [contradiction|].
  simpl in *. subst. repeat split; congruence.
Qed.

Lemma filter_truthy_runs p s :
  filter truthy (runs p false s) = filter truthy (fields p s).
Proof.
  destruct (runs_fields p s) as [[Hh Ht] _].
  pose proof (runs_not_nil p false s) as N1.
  pose proof (fields_not_nil p s) as N2.
  destruct (runs p false s); [contradiction|].
  destruct (fields p s); [contradiction|].
  simpl in *. subst. now rewrite Ht.
Qed.

Lemma lastOutside_tail p c s :
  s <> [] -> lastOutside p (c :: s) -> lastOutside p s.
Proof.
  unfold lastOutside. simpl. intros N H.
  destruct (rev s) eqn:E; [|exact H].
  apply (f_equal (@rev _)) in E. rewrite rev_involutive in E. contradiction.
Qed.

(** A text that ends outside the class has no empty piece after its
    first one, and none at all when it also starts outside the class. *)
Lemma runs_all_truthy p s :
  s <> [] -> lastOutside p s ->
  forallb truthy (runs p true s) = true /\
  forallb truthy (tl (runs p false s)) = true /\
  (headOutside p s -> forallb truthy (runs p false s) = true).
Proof.
  induction s as [|c s IH]; [contradiction|]. intros _ L.
  destruct s as [|d s].
  - unfold lastOutside in L. simpl in L. simpl. rewrite L. now repeat split.
  - destruct IH as (I1 & I2 & I3);
      [discriminate | now apply lastOutside_tail in L|].
    change (runs p true (c :: d :: s)) with
      (if p c then runs p true (d :: s)
       else consHead c (runs p false (d :: s))).
    change (runs p false (c :: d :: s)) with
      (if p c then [] :: runs p true (d :: s)
       else consHead c (runs p false (d :: s))).
    destruct (p c) eqn:E.
    + repeat split; try assumption. simpl. congruence.
    + pose proof (runs_not_nil p false (d :: s)) as N.
      destruct (runs p false (d :: s)); [contradiction|].
      simpl in *. now repeat split.
Qed.

Lemma filter_all_true {A} (f : A -> bool) l :
  forallb f l = true -> filter f l = l.
Proof.
  induction l as [|a l IH]; simpl; [reflexivity|].
  intros H. apply andb_true_iff in H as [-> H]. now rewrite IH.
Qed.

Lemma trim_lastOutside s : lastOutside isWhiteSpace (trim s).
Proof.
  unfold lastOutside, trim, trimEnd. rewrite rev_involutive.
  apply dropWhile_headOutside.
Qed.

Lemma words_analysis text :
  words (analysis text) =
  if existsb isNonSpace text
  then length (split reSpaces (trim text)) else 0.
Proof.
  unfold analysis. rewrite guard_blank.
  destruct (existsb isNonSpace text) eqn:E; [|reflexivity].
  simpl. now rewrite truthy_trim, E.
Qed.

Lemma tokens_spaces s : forallb isWhiteSpace s = true -> tokens s = [].
Proof.
  unfold tokens. induction s as [|c s IH]; simpl; [reflexivity|].
  intros H. apply andb_true_iff in H as [-> H]. simpl. now apply IH.
Qed.

Lemma words_tokens_trim text :
  words (analysis text) = length (tokens (trim text)).
Proof.
  rewrite words_analysis.
  destruct (existsb isNonSpace text) eqn:E.
  - unfold reSpaces. rewrite split_plus_class. unfold tokens.
    rewrite <- filter_truthy_runs.
    rewrite filter_all_true; [reflexivity|].
    apply runs_all_truthy.
    + rewrite <- truthy_trim in E. now destruct (trim text).
    + apply trim_lastOutside.
    + apply trim_headOutside.
  - rewrite tokens_spaces; [reflexivity|].
    apply trim_nil_iff. rewrite trim_idem.
    rewrite <- truthy_trim in E. now destruct (trim text).
Qed.

Lemma tokens_dropWhile s : tokens (dropWhile isWhiteSpace s) = tokens s.
Proof.
  unfold tokens. induction s as [|c s IH]; simpl; [reflexivity|].
  destruct (isWhiteSpace c) eqn:E; simpl; [exact IH|].
  now rewrite E.
Qed.

Lemma fields_app_spaces s w :
  forallb isWhiteSpace w = true ->
  hd [] (fields isWhiteSpace (s ++ w)) = hd [] (fields isWhiteSpace s) /\
  filter truthy (tl (fields isWhiteSpace (s ++ w))) =
  filter truthy (tl (fields isWhiteSpace s)).
Proof.
  intros Hw. induction s as [|c s [Hh Ht]].
  - simpl. destruct w as [|d w]; [now split|]. simpl in *.
    apply andb_true_iff in Hw as [-> Hw]. simpl. split; [reflexivity|].
    now apply (tokens_spaces w).
  - simpl. destruct (isWhiteSpace c).
    + simpl. split; [reflexivity|].
      pose proof (fields_not_nil isWhiteSpace (s ++ w)) as N1.
      pose proof (fields_not_nil isWhiteSpace s) as N2.
      destruct (fields isWhiteSpace (s ++ w)); [contradiction|].
      destruct (fields isWhiteSpace s); [contradiction|].
      simpl in *. subst. now rewrite Ht.
    + pose proof (fields_not_nil isWhiteSpace (s ++ w)) as N1.
      pose proof (fields_not_nil isWhiteSpace s) as N2.
      destruct (fields isWhiteSpace (s ++ w)); [contradiction|].
      destruct (fields isWhiteSpace s); [contradiction|].
      simpl in *. subst. now split.
Qed.

Lemma tokens_trimEnd s : tokens (trimEnd s) = tokens s.
Proof.
  rewrite (trimEnd_split s) at 2. unfold tokens.
  destruct (fields_app_spaces (trimEnd s)
              (rev (takeWhile isWhiteSpace (rev s)))) as [Hh Ht].
  { rewrite forallb_rev. apply takeWhile_all. }
  pose proof (fields_not_nil isWhiteSpace
                (trimEnd s ++ rev (takeWhile isWhiteSpace (rev s)))) as N1.
  pose proof (fields_not_nil isWhiteSpace (trimEnd s)) as N2.
  destruct (fields isWhiteSpace
              (trimEnd s ++ rev (takeWhile isWhiteSpace (rev s))));
    [contradiction|].
  destruct (fields isWhiteSpace (trimEnd s)); [contradiction|].
  simpl in *. subst. now rewrite Ht.
Qed.

Lemma tokens_trim s : tokens (trim s) = tokens s.
Proof. unfold trim, trimStart. now rewrite tokens_trimEnd, tokens_dropWhile. Qed.

Lemma nonBlank_hasNonSpace s : nonBlank s = hasNonSpace s.
Proof.
  unfold nonBlank, hasNonSpace. rewrite <- truthy_trim.
  now destruct (trim s).
Qed.

Lemma sentences_analysis text :
  sentences (analysis text) =
  if existsb isNonSpace text
  then length (filter nonBlank (split reTerminators text)) else 0.
Proof.
  unfold analysis. rewrite guard_blank.
  now destruct (existsb isNonSpace text).
Qed.

Lemma runs_units p b s seg c :
  In seg (runs p b s) -> In c seg -> In c s.
Proof.
  revert b seg; induction s as [|x s IH]; intros b seg; simpl.
  - intros [<- | []] [].
  - destruct (p x).
    + destruct b; [eauto|]. intros [<- | H]; [intros [] | eauto].
    + pose proof (runs_not_nil p false s) as N.
      destruct (runs p false s) as [|h t] eqn:E; [contradiction|].
      simpl. intros [<- | H] Hc.
      * destruct Hc as [-> | Hc]; [now left|].
        right. apply (IH false h); [rewrite E; now left | exact Hc].
      * right. apply (IH false seg); [rewrite E; now right | exact Hc].
Qed.

Lemma sentences_segments text :
  sentences (analysis text) =
  length (filter hasNonSpace (runs isTerminator false text)).
Proof.
  rewrite sentences_analysis.
  destruct (existsb isNonSpace text) eqn:E.
  - unfold reTerminators. rewrite split_plus_class.
    f_equal. apply filter_ext, nonBlank_hasNonSpace.
  - assert (H : forall seg, In seg (runs isTerminator false text) ->
                            hasNonSpace seg = false).
    { intros seg Hs. unfold hasNonSpace.
      destruct (existsb isNonSpace seg) eqn:F; [|reflexivity].
      apply existsb_exists in F as (c & Hc & Hn).
      assert (X : existsb isNonSpace text = true).
      { apply existsb_exists. exists c. split; [|exact Hn].
        eapply runs_units; eassumption. }
      congruence. }
    induction (runs isTerminator false text) as [|h t IH]; [reflexivity|].
    simpl. rewrite (H h) by now left. apply IH.
    intros seg Hs. apply H. now right.
Qed.

(** C1 as it is written fails on a text with white space after its last
    terminator: the piece after it is not empty, and yet it is not
    counted. *)
Lemma sentences_nonempty_counterexample :
  sentences (analysis (str "a. ")) = 1 /\
  length (filter truthy (runs isTerminator false (str "a. "))) = 2 /\
  sentences (analysis (str "a. ")) <>
    length (filter truthy (runs isTerminator false (str "a. "))).
Proof. repeat split. vm_compute. discriminate. Qed.

(** C1, amended: [words] is the number of maximal white-space-delimited
    tokens of the trimmed text (which are those of the text itself), and
    [sentences] is the number of pieces, after splitting at the runs of
    ".", "!", "?", that hold a code unit outside the white space (a
    piece of white space only does not count).  For
    "Hello world. This is a test." the report has 6 words, 2 sentences,
    3.0 words per sentence and complexity Simple. *)
Theorem analysis_words_sentences (text : jsstring) :
  words (analysis text) = length (tokens (trim text)) /\
  tokens (trim text) = tokens text /\
  sentences (analysis text) =
    length (filter hasNonSpace (runs isTerminator false text)) /\
  (let r := analysis (str "Hello world. This is a test.") in
   words r = 6 /\ sentences r = 2 /\
   averageWordsPerSentence r = decimal 30 10 /\
   textComplexity r = Simple).
Proof.
  split; [apply words_tokens_trim|].
  split; [apply tokens_trim|].
  split; [apply sentences_segments|].
  vm_compute. now repeat split.
Qed.

(** ** Readability *)

Lemma words_positive text :
  existsb isNonSpace text = true -> 0 < words (analysis text).
Proof.
  intros H. rewrite words_analysis, H. unfold reSpaces.
  rewrite split_plus_class.
  pose proof (runs_not_nil isWhiteSpace false (trim text)) as N.
  destruct (runs isWhiteSpace false (trim text)); [contradiction|].
  simpl. lia.
Qed.

Lemma readabilityScore_analysis text :
  existsb isNonSpace text = true ->
  readabilityScore (analysis text) =
  fleschScore (averageWordsPerSentence (analysis text))
    (if 0 <? words (analysis text)
     then div (ofNat (length (split reVowel text)))
              (ofNat (words (analysis text)))
     else ofNat 0).
Proof.
  intros H. unfold analysis. rewrite guard_blank, H. reflexivity.
Qed.

(** C2 as it is written fails on a text with two vowels in a row: "book"
    has one run of vowels, hence two pieces and a score of 37, where the
    code splits at each of the two vowels, finds three pieces, and
    scores 0. *)
Lemma readabilityScore_vowel_runs_counterexample :
  let r := analysis (str "book") in
  readabilityScore r = ofNat 0 /\
  fleschScore (averageWordsPerSentence r)
    (div (ofNat (length (runs isVowel false (str "book"))))
         (ofNat (words r))) = ofNat 37 /\
  readabilityScore r <>
  fleschScore (averageWordsPerSentence r)
    (div (ofNat (length (runs isVowel false (str "book"))))
         (ofNat (words r))).
Proof. vm_compute. repeat split. discriminate. Qed.

(** C2, amended: for a text with a code unit outside the white space the
    word count is positive and [readabilityScore] is
    [clamp(206.835 - 1.015*averageWordsPerSentence - 84.6*avgSyllables, 0, 100)]
    rounded to the nearest integer, computed in binary64, where
    avgSyllables is the number of pieces obtained by splitting the text
    at every single vowel (the number of vowels plus one, vowels in a row
    are not merged) divided by the word count. *)
Theorem readabilityScore_formula (text : jsstring) :
  existsb isNonSpace text = true ->
  0 < words (analysis text) /\
  length (split reVowel text) = S (length (filter isVowel text)) /\
  readabilityScore (analysis text) =
  fleschScore (averageWordsPerSentence (analysis text))
    (div (ofNat (S (length (filter isVowel text))))
         (ofNat (words (analysis text)))).
Proof.
  intros H. pose proof (words_positive text H) as W.
  assert (V : length (split reVowel text) = S (length (filter isVowel text))).
  { unfold reVowel. now rewrite split_class, fields_length. }
  repeat split; try assumption.
  rewrite readabilityScore_analysis by assumption.
  rewrite V. apply Nat.ltb_lt in W. now rewrite W.
Qed.

Lemma readabilityScore_formula_witness :
  readabilityScore (analysis (str "Hello world. This is a test.")) =
  fleschScore (decimal 30 10) (div (ofNat 8) (ofNat 6)).
Proof.
  apply (proj2 (proj2
    (readabilityScore_formula (str "Hello world. This is a test.")
       eq_refl))).
Defined.

(** ** Sorted lists *)

Section SortedFacts.

Context {A : Type}.

Lemma StronglySorted_app (R : A -> A -> Prop) l1 l2 :
  StronglySorted R l1 -> StronglySorted R l2 ->
  (forall a b, In a l1 -> In b l2 -> R a b) ->
  StronglySorted R (l1 ++ l2).
Proof.
  induction l1 as [|x l1 IH]; intros S1 S2 H; simpl; [exact S2|].
  apply StronglySorted_inv in S1 as [S1 F].
  constructor.
  - apply IH; auto. intros a b Ha Hb. apply H; [now right | exact Hb].
  - apply Forall_app. split; [exact F|].
    apply Forall_forall. intros b Hb. apply H; [now left | exact Hb].
Qed.

Lemma StronglySorted_weaken (R R' : A -> A -> Prop) l :
  StronglySorted R l ->
  (forall a b, In a l -> In b l -> R a b -> R' a b) ->
  StronglySorted R' l.
Proof.
  induction l as [|x l IH]; intros S H; [constructor|].
  apply StronglySorted_inv in S as [S F]. constructor.
  - apply IH; [exact S|]. intros a b Ha Hb. apply H; now right.
  - rewrite Forall_forall in *. intros b Hb.
    apply H; [now left | now right | now apply F].
Qed.

Lemma StronglySorted_filter (R : A -> A -> Prop) f l :
  StronglySorted R l -> StronglySorted R (filter f l).
Proof.
  induction l as [|x l IH]; intros S; [constructor|].
  apply StronglySorted_inv in S as [S F]. simpl.
  destruct (f x); [|now apply IH].
  constructor; [now apply IH|].
  rewrite Forall_forall in *. intros b Hb. apply F.
  now apply filter_In in Hb.
Qed.

Lemma StronglySorted_map {B} (g : A -> B) (R : B -> B -> Prop) l :
  StronglySorted R (map g l) ->
  StronglySorted (fun a b => R (g a) (g b)) l.
Proof.
  induction l as [|x l IH]; intros S; [constructor|].
  simpl in S. apply StronglySorted_inv in S as [S F]. constructor.
  - now apply IH.
  - rewrite Forall_forall in *. intros b Hb. apply F. now apply in_map.
Qed.

Lemma filter_partition_perm (f : A -> bool) l :
  Permutation (filter f l ++ filter (fun x => negb (f x)) l) l.
Proof.
  induction l as [|x l IH]; simpl; [constructor|].
  destruct (f x); simpl.
  - now constructor.
  - symmetry. apply Permutation_cons_app. now symmetry.
Qed.

End SortedFacts.

(** ** Counters *)

Lemma eqs_spec a b : reflect (a = b) (eqs a b).
Proof.
  destruct (eqs a b) eqn:E; constructor.
  - now apply eqs_eq.
  - intros H. apply eqs_eq in H. congruence.
Qed.

Lemma eqs_refl a : eqs a a = true.
Proof. now apply eqs_eq. Qed.

Lemma getOwn_setOwn o k v k' :
  getOwn (setOwn o k v) k' = if eqs k k' then Some v else getOwn o k'.
Proof.
  induction o as [|[x y] o IH]; simpl.
  - reflexivity.
  - destruct (eqs_spec x k); simpl.
    + subst x. now destruct (eqs_spec k k').
    + rewrite IH. destruct (eqs_spec x k'); [|reflexivity].
      subst x. destruct (eqs_spec k k'); congruence.
Qed.

Lemma keys_setOwn o k v :
  map fst (setOwn o k v) =
  match getOwn o k with
  | Some _ => map fst o
  | None => map fst o ++ [k]
  end.
Proof.
  induction o as [|[x y] o IH]; simpl; [reflexivity|].
  destruct (eqs_spec x k); simpl; [reflexivity|].
  rewrite IH. now destruct (getOwn o k).
Qed.

Lemma getOwn_In o k v : getOwn o k = Some v -> In (k, v) o.
Proof.
  induction o as [|[x y] o IH]; simpl; [discriminate|].
  destruct (eqs_spec x k).
  - intros [= <-]. subst. now left.
  - intros H. right. now apply IH.
Qed.

Lemma getOwn_None o k : getOwn o k = None <-> ~ In k (map fst o).
Proof.
  induction o as [|[x y] o IH]; simpl; [tauto|].
  destruct (eqs_spec x k).
  - split; [discriminate|]. intros H. exfalso. apply H. now left.
  - rewrite IH. tauto.
Qed.

Lemma In_getOwn o k v :
  NoDup (map fst o) -> In (k, v) o -> getOwn o k = Some v.
Proof.
  induction o as [|[x y] o IH]; simpl; [contradiction|].
  intros N H. apply NoDup_cons_iff in N as [Nx N].
  destruct (eqs_spec x k).
  - subst x. destruct H as [[= ->] | H]; [reflexivity|].
    exfalso. apply Nx. now apply (in_map fst) in H.
  - destruct H as [[= -> _] | H]; [contradiction|]. now apply IH.
Qed.

Lemma countOf_app w l1 l2 : countOf w (l1 ++ l2) = countOf w l1 + countOf w l2.
Proof. unfold countOf. now rewrite filter_app, length_app. Qed.

Lemma countOf_single k w : countOf k [w] = if eqs k w then 1 else 0.
Proof. unfold countOf. simpl. now destruct (eqs k w). Qed.

Lemma countOf_In w l : In w l <-> countOf w l <> 0.
Proof.
  unfold countOf. induction l as [|x l IH]; simpl; [tauto|].
  destruct (eqs_spec w x); simpl.
  - split; [lia | now left].
  - rewrite <- IH. split; [intros [H | H]; congruence | tauto].
Qed.

Lemma firstIndex_app_in w l1 l2 :
  In w l1 -> firstIndex w (l1 ++ l2) = firstIndex w l1.
Proof.
  induction l1 as [|x l1 IH]; simpl; [contradiction|].
  destruct (eqs_spec x w); [reflexivity|].
  intros [H | H]; [contradiction|]. now rewrite IH.
Qed.

Lemma firstIndex_lt w l : In w l -> firstIndex w l < length l.
Proof.
  induction l as [|x l IH]; simpl; [contradiction|].
  destruct (eqs_spec x w); [lia|].
  intros [H | H]; [contradiction|]. apply IH in H. lia.
Qed.

Lemma firstIndex_new w l1 l2 :
  ~ In w l1 -> firstIndex w (l1 ++ w :: l2) = length l1.
Proof.
  induction l1 as [|x l1 IH]; simpl.
  - now rewrite eqs_refl.
  - intros H. destruct (eqs_spec x w); [tauto|]. rewrite IH; tauto.
Qed.

Lemma counterOf_key P o k :
  counterOf P o -> In k (map fst o) -> In k P.
Proof.
  intros (_ & G & _) H. apply countOf_In. intros Z.
  specialize (G k). rewrite Z in G. simpl in G.
  now apply getOwn_None in G.
Qed.

Lemma counterOf_tally P o w :
  counterOf P o -> counterOf (P ++ [w]) (tally o w).
Proof.
  intros C. pose proof C as (N & G & Srt). unfold tally.
  assert (K : forall k, In k (map fst o) ->
              firstIndex k (P ++ [w]) = firstIndex k P).
  { intros k Hk. apply firstIndex_app_in. eapply counterOf_key; eauto. }
  assert (S' : StronglySorted
                 (fun a b => firstIndex a (P ++ [w]) < firstIndex b (P ++ [w]))
                 (map fst o)).
  { eapply StronglySorted_weaken; [exact Srt|].
    intros a b Ha Hb. now rewrite !K. }
  repeat split.
  - rewrite keys_setOwn. destruct (getOwn o w) eqn:E; [exact N|].
    apply NoDup_app; repeat split; [exact N | repeat constructor; auto |].
    intros k Hk [<- | []]. now apply getOwn_None in E.
  - intros k. rewrite getOwn_setOwn, countOf_app, countOf_single, !G.
    destruct (eqs_spec w k) as [<- | Hn].
    + rewrite eqs_refl.
      destruct (countOf w P) eqn:Z; reflexivity.
    + destruct (eqs_spec k w); [congruence|].
      now rewrite Nat.add_0_r.
  - rewrite keys_setOwn. destruct (getOwn o w) eqn:E; [exact S'|].
    apply StronglySorted_app; [exact S' | repeat constructor |].
    intros a b Ha [<- | []].
    assert (Hw : ~ In w P).
    { intros Hw. apply countOf_In in Hw. specialize (G w).
      rewrite E in G. apply Nat.eqb_neq in Hw. now rewrite Hw in G. }
    rewrite (firstIndex_new w P [] Hw), (K a Ha).
    apply firstIndex_lt. eapply counterOf_key; eauto.
Qed.

Lemma counterOf_fold K : forall P o,
  counterOf P o -> counterOf (P ++ K) (fold_left tally K o).
Proof.
  induction K as [|w K IH]; intros P o C; simpl.
  - now rewrite app_nil_r.
  - replace (P ++ w :: K) with ((P ++ [w]) ++ K)
      by now rewrite <- app_assoc.
    apply IH. now apply counterOf_tally.
Qed.

Lemma counterOf_nil : counterOf [] [].
Proof. repeat split; constructor. Qed.

(** ** [Object.entries] and the stable sort *)

Lemma insertIndex_perm e l : Permutation (insertIndex e l) (e :: l).
Proof.
  induction l as [|x l IH]; simpl; [reflexivity|].
  destruct (digitsValue (fst e) <? digitsValue (fst x))%N; [reflexivity|].
  rewrite IH. apply perm_swap.
Qed.

Lemma sortIndex_perm l : Permutation (fold_right insertIndex [] l) l.
Proof.
  induction l as [|x l IH]; simpl; [constructor|].
  rewrite insertIndex_perm. now constructor.
Qed.

Lemma insertIndex_sorted e l :
  StronglySorted indexLe l -> StronglySorted indexLe (insertIndex e l).
Proof.
  induction l as [|x l IH]; intros S; simpl; [repeat constructor|].
  pose proof S as S0. apply StronglySorted_inv in S as [S F].
  destruct (N.ltb_spec (digitsValue (fst e)) (digitsValue (fst x))).
  - constructor; [exact S0|]. constructor; [unfold indexLe; lia|].
    rewrite Forall_forall in *. intros b Hb. specialize (F b Hb).
    unfold indexLe in *. lia.
  - constructor; [now apply IH|].
    rewrite Forall_forall in *. intros b Hb.
    apply (Permutation_in _ (insertIndex_perm e l)) in Hb.
    destruct Hb as [<- | Hb]; [exact H | now apply F].
Qed.

Lemma sortIndex_sorted l : StronglySorted indexLe (fold_right insertIndex [] l).
Proof.
  induction l as [|x l IH]; simpl; [constructor|].
  now apply insertIndex_sorted.
Qed.

Lemma entries_perm o : Permutation (entries o) o.
Proof.
  unfold entries. rewrite sortIndex_perm.
  apply (filter_partition_perm (fun e => isArrayIndex (fst e))).
Qed.

Lemma entries_sorted T o :
  StronglySorted (fun a b => firstIndex a T < firstIndex b T) (map fst o) ->
  StronglySorted (fun a b => keyBefore T (fst a) (fst b)) (entries o).
Proof.
  intros S. apply StronglySorted_map in S. unfold entries.
  assert (I : forall a,
    In a (fold_right insertIndex []
            (filter (fun e => isArrayIndex (fst e)) o)) ->
    isArrayIndex (fst a) = true).
  { intros a Ha. apply (Permutation_in _ (sortIndex_perm _)) in Ha.
    now apply filter_In in Ha. }
  assert (J : forall b,
    In b (filter (fun e => negb (isArrayIndex (fst e))) o) ->
    isArrayIndex (fst b) = false).
  { intros b Hb. apply filter_In in Hb as [_ Hb].
    now apply negb_true_iff in Hb. }
  apply StronglySorted_app.
  - eapply StronglySorted_weaken; [apply sortIndex_sorted|].
    intros a b Ha Hb L. unfold keyBefore. now rewrite (I a Ha), (I b Hb).
  - eapply StronglySorted_weaken; [apply StronglySorted_filter, S|].
    intros a b Ha Hb L. unfold keyBefore. now rewrite (J a Ha), (J b Hb).
  - intros a b Ha Hb. unfold keyBefore. now rewrite (I a Ha), (J b Hb).
Qed.

Lemma insertDesc_perm e l : Permutation (insertDesc e l) (e :: l).
Proof.
  induction l as [|x l IH]; simpl; [reflexivity|].
  destruct (snd x <=? snd e); [reflexivity|].
  rewrite IH. apply perm_swap.
Qed.

Lemma sortDesc_perm l : Permutation (sortDesc l) l.
Proof.
  unfold sortDesc. induction l as [|x l IH]; simpl; [constructor|].
  rewrite insertDesc_perm. now constructor.
Qed.

Section Stable.

(** The order of the entries before the sort. *)
Variable Q : jsstring * nat -> jsstring * nat -> Prop.

Lemma insertDesc_ranked e l :
  StronglySorted (ranked Q) l -> (forall x, In x l -> Q e x) ->
  StronglySorted (ranked Q) (insertDesc e l).
Proof.
  induction l as [|x l IH]; intros S H; simpl; [repeat constructor|].
  pose proof S as S0. apply StronglySorted_inv in S as [S F].
  destruct (Nat.leb_spec (snd x) (snd e)) as [L | L].
  - constructor; [exact S0|].
    assert (Hx : ranked Q e x).
    { unfold ranked. destruct (Nat.eq_dec (snd x) (snd e)) as [E | E].
      - right. split; [now symmetry | apply H; now left].
      - left. lia. }
    constructor; [exact Hx|].
    rewrite Forall_forall in *. intros b Hb.
    specialize (F b Hb). unfold ranked in *.
    destruct (Nat.eq_dec (snd b) (snd e)) as [E | E].
    + right. split; [now symmetry | apply H; now right].
    + left. lia.
  - constructor.
    + apply IH; [exact S|]. intros y Hy. apply H. now right.
    + rewrite Forall_forall in *. intros b Hb.
      apply (Permutation_in _ (insertDesc_perm e l)) in Hb.
      destruct Hb as [<- | Hb]; [now left | now apply F].
Qed.

(** The sort is stable: it ranks by count and keeps the entries of equal
    count in the order they had. *)
Lemma sortDesc_ranked l :
  StronglySorted Q l -> StronglySorted (ranked Q) (sortDesc l).
Proof.
  unfold sortDesc. induction l as [|x l IH]; intros S; simpl; [constructor|].
  apply StronglySorted_inv in S as [S F].
  apply insertDesc_ranked; [now apply IH|].
  intros y Hy. apply (Permutation_in _ (sortDesc_perm l)) in Hy.
  rewrite Forall_forall in F. now apply F.
Qed.

End Stable.

(** ** The word counter *)

Lemma increment_tally o w :
  eqs w (str "__proto__") = false ->
  existsb (eqs w) protoMethods = false ->
  increment o w = Some (tally o w).
Proof.
  intros H1 H2. unfold increment, fromPrototype, tally.
  rewrite H1, H2. now destruct (getOwn o w).
Qed.

Lemma fold_countWord T : forall o,
  (forall w, In w T ->
     eqs w (str "__proto__") = false /\
     existsb (eqs w) protoMethods = false) ->
  fold_left countWord T (Some o) =
  Some (fold_left tally (filter counted T) o).
Proof.
  induction T as [|w T IH]; intros o H; [reflexivity|].
  assert (HT : forall w, In w T ->
            eqs w (str "__proto__") = false /\
            existsb (eqs w) protoMethods = false)
    by (intros; apply H; now right).
  change (fold_left countWord (w :: T) (Some o))
    with (fold_left countWord T
            (if (2 <? length w) && negb (has stopWords w)
             then increment o w else Some o)).
  simpl filter. unfold counted at 1.
  destruct ((2 <? length w) && negb (has stopWords w)) eqn:E1;
    [|now apply IH].
  destruct (H w (or_introl eq_refl)) as [H1 H2].
  rewrite increment_tally by assumption. now apply IH.
Qed.

Lemma runs_outside p b s seg c :
  In seg (runs p b s) -> In c seg -> p c = false.
Proof.
  revert b seg; induction s as [|x s IH]; intros b seg; simpl.
  - intros [<- | []] [].
  - destruct (p x) eqn:E.
    + destruct b; [eauto|]. intros [<- | H]; [intros [] | eauto].
    + pose proof (runs_not_nil p false s) as N.
      destruct (runs p false s) as [|h t] eqn:F; [contradiction|].
      simpl. intros [<- | H] Hc.
      * destruct Hc as [<- | Hc]; [exact E|].
        apply (IH false h); [rewrite F; now left | exact Hc].
      * apply (IH false seg); [rewrite F; now right | exact Hc].
Qed.

Lemma wordTokens_scan text :
  wordTokens text =
  runs isWhiteSpace false
    (filter (fun c => negb (negb (isWordChar c || isWhiteSpace c)))
       (toLowerCase text)).
Proof.
  unfold wordTokens, reSpaces, rePunctuation.
  now rewrite split_plus_class, replaceAllWith_class_nil.
Qed.

Lemma wordTokens_lower text w c :
  In w (wordTokens text) -> In c w -> isUpper c = false.
Proof.
  rewrite wordTokens_scan. intros Hw Hc.
  pose proof (runs_units _ _ _ _ _ Hw Hc) as H.
  apply filter_In in H as [H _]. now apply toLowerCase_no_upper in H.
Qed.

Lemma wordTokens_not_method text w :
  ~ In (str "constructor") (wordTokens text) ->
  In w (wordTokens text) -> existsb (eqs w) protoMethods = false.
Proof.
  intros Hc Hw. destruct (existsb (eqs w) protoMethods) eqn:E; [|reflexivity].
  apply existsb_exists in E as (x & Hx & Ex). apply eqs_eq in Ex. subst x.
  assert (L : forall c, In c w -> isUpper c = false)
    by (intros c; now apply (wordTokens_lower text w)).
  unfold protoMethods in Hx. simpl in Hx.
  repeat (destruct Hx as [Hx | Hx];
          [subst w; try contradiction;
           match goal with
           | L : forall c, In c ?l -> _ |- _ =>
               assert (X : forallb (fun c => negb (isUpper c)) l = true)
                 by (apply forallb_forall; intros c Hc';
                     now rewrite (L c Hc'));
               vm_compute in X; discriminate X
           end|]).
  contradiction.
Qed.

Lemma wordTokens_blank text :
  existsb isNonSpace text = false -> keptWords text = [].
Proof.
  intros H. unfold keptWords.
  assert (E : forall w, In w (wordTokens text) -> w = []).
  { intros w Hw. destruct w as [|c w]; [reflexivity|]. exfalso.
    rewrite wordTokens_scan in Hw.
    pose proof (runs_outside _ _ _ _ c Hw (or_introl eq_refl)) as O.
    pose proof (runs_units _ _ _ _ c Hw (or_introl eq_refl)) as U.
    apply filter_In in U as [U _].
    rewrite existsb_nonSpace in H. apply negb_false_iff in H.
    rewrite (toLowerCase_plain text (spaces_plain text H)) in U.
    apply in_map_iff in U as (c0 & <- & U).
    rewrite lowerUnit_isWhiteSpace in O.
    rewrite forallb_forall in H. specialize (H c0 U). congruence. }
  induction (wordTokens text) as [|w T IH]; [reflexivity|].
  simpl. rewrite (E w) by now left. simpl. apply IH.
  intros w' Hw'. apply E. now right.
Qed.

Lemma mostCommonWords_analysis text :
  mostCommonWords (analysis text) =
  if existsb isNonSpace text
  then option_map (fun o => firstn 5 (sortDesc (entries o)))
         (fold_left countWord (wordTokens text) (Some []))
  else Some [].
Proof.
  unfold analysis. rewrite guard_blank.
  now destruct (existsb isNonSpace text).
Qed.

Lemma keptWords_scan text :
  keptWords text =
  filter counted
    (runs isWhiteSpace false
       (filter (fun c => isWordChar c || isWhiteSpace c) (toLowerCase text))).
Proof.
  unfold keptWords. rewrite wordTokens_scan. do 2 f_equal.
  apply filter_ext. intros c. apply negb_involutive.
Qed.

Lemma has_false_not_In set word : has set word = false -> ~ In word set.
Proof.
  unfold has. intros H Hin.
  assert (X : existsb (eqs word) set = true).
  { apply existsb_exists. exists word. split; [exact Hin | apply eqs_refl]. }
  congruence.
Qed.

(** C4 as it is written fails on words that are array indices: in
    "200 100" both words occur once and "200" comes first, but the
    ranking lists "100" before "200". *)
Lemma mostCommonWords_first_seen_counterexample :
  let text := str "200 100" in
  keptWords text = [str "200"; str "100"] /\
  mostCommonWords (analysis text) = Some [(str "100", 1); (str "200", 1)] /\
  ~ StronglySorted (firstSeenBefore (keptWords text))
      [(str "100", 1); (str "200", 1)].
Proof.
  repeat split. intros H.
  apply StronglySorted_inv in H as [_ F]. apply Forall_inv in F.
  destruct F as [R | [_ R]]; vm_compute in R; lia.
Qed.

(** C4, amended: for a text in which the words "constructor" and
    "__proto__" do not occur, [mostCommonWords] is the first 5 entries
    of a ranking of word/count pairs, one pair for each distinct counted
    token, the counted tokens being the lowercased, punctuation-stripped,
    white-space-split tokens that are longer than 2 and not stop words;
    the count of a pair is the number of occurrences of its word; the
    ranking is by descending count, and among equal counts in the
    own-property order of the counter object: words that are array
    indices (canonical decimal integers below 2^32 - 1) first, in
    ascending numeric order, then the other words in the order of their
    first occurrence in the text. *)
Theorem mostCommonWords_ranking (text : jsstring) :
  has (wordTokens text) (str "constructor") = false ->
  has (wordTokens text) (str "__proto__") = false ->
  let K := keptWords text in
  K = filter counted
        (runs isWhiteSpace false
           (filter (fun c => isWordChar c || isWhiteSpace c)
              (toLowerCase text))) /\
  exists ranking,
    mostCommonWords (analysis text) = Some (firstn 5 ranking) /\
    length (firstn 5 ranking) <= 5 /\
    (forall w c, In (w, c) ranking <-> In w K /\ c = countOf w K) /\
    NoDup (map fst ranking) /\
    StronglySorted (rankedBefore K) ranking.
Proof.
  intros Hc Hp K.
  apply has_false_not_In in Hc. apply has_false_not_In in Hp.
  split; [apply keptWords_scan|].
  pose proof (counterOf_fold K [] [] counterOf_nil) as C.
  simpl app in C. destruct C as (N & G & Srt).
  exists (sortDesc (entries (fold_left tally K []))).
  assert (P : Permutation (sortDesc (entries (fold_left tally K [])))
                (fold_left tally K [])).
  { rewrite sortDesc_perm. apply entries_perm. }
  repeat split.
  - rewrite mostCommonWords_analysis.
    destruct (existsb isNonSpace text) eqn:E.
    + rewrite fold_countWord; [reflexivity|].
      intros w Hw. split; [|now apply (wordTokens_not_method text)].
      destruct (eqs_spec w (str "__proto__")); [congruence | reflexivity].
    + unfold K. now rewrite (wordTokens_blank text E).
  - rewrite length_firstn. lia.
  - apply countOf_In. intros Z.
    apply (Permutation_in _ P), (In_getOwn _ _ _ N) in H.
    rewrite G, Z in H. discriminate.
  - apply (Permutation_in _ P), (In_getOwn _ _ _ N) in H.
    rewrite G in H. destruct (countOf w K =? 0); congruence.
  - intros [Hw ->]. apply (Permutation_in _ (Permutation_sym P)).
    apply getOwn_In. rewrite G.
    apply countOf_In, Nat.eqb_neq in Hw. now rewrite Hw.
  - apply (Permutation_NoDup (Permutation_sym (Permutation_map fst P)) N).
  - apply (sortDesc_ranked (fun a b => keyBefore K (fst a) (fst b))).
    now apply entries_sorted.
Qed.

Lemma mostCommonWords_ranking_witness :
  exists ranking,
    mostCommonWords (analysis (str "the cat sat. Cat 200 100")) =
      Some (firstn 5 ranking) /\
    length (firstn 5 ranking) <= 5 /\
    (forall w c,
       In (w, c) ranking <->
       In w (keptWords (str "the cat sat. Cat 200 100")) /\
       c = countOf w (keptWords (str "the cat sat. Cat 200 100"))) /\
    NoDup (map fst ranking) /\
    StronglySorted (rankedBefore (keptWords (str "the cat sat. Cat 200 100")))
      ranking.
Proof.
  apply (proj2 (mostCommonWords_ranking (str "the cat sat. Cat 200 100")
                  eq_refl eq_refl)).
Defined.

(** The two inherited keys that a lowercased token can hit: "__proto__"
    is never recorded, and "constructor" turns the counter into
    something that is no longer numeric. *)
Example mostCommonWords_inherited_keys :
  mostCommonWords (analysis (str "zebra __proto__ __proto__")) =
    Some [(str "zebra", 1)] /\
  mostCommonWords (analysis (str "zebra constructor")) = None.
Proof. split; reflexivity. Qed.

(** * Further properties of the conversions *)

(** ** The empty text *)

(** Every conversion of the three tables maps the empty text to the
    empty text. *)
Theorem convert_empty (id : ConversionId) : convert id [] = [].
Proof. destruct id; reflexivity. Qed.

(** ** Replacing and deleting white space *)

Lemma squeeze_nil_filter p b s :
  squeeze p [] b s = filter (fun c => negb (p c)) s.
Proof.
  revert b; induction s as [|c s IH]; intros b; simpl; [reflexivity|].
  destruct (p c); simpl; [destruct b; apply IH | now rewrite IH].
Qed.

Lemma squeeze_outside p by_ b s :
  forallb (fun c => negb (p c)) by_ = true ->
  forallb (fun c => negb (p c)) (squeeze p by_ b s) = true.
Proof.
  intros H. revert b; induction s as [|c s IH]; intros b; simpl;
    [reflexivity|].
  destruct (p c) eqn:E.
  - destruct b; [apply IH|]. rewrite forallb_app, H. apply IH.
  - simpl. rewrite E. apply IH.
Qed.

Lemma squeeze_no_match p by_ b s :
  forallb (fun c => negb (p c)) s = true -> squeeze p by_ b s = s.
Proof.
  revert b; induction s as [|c s IH]; intros b; simpl; [reflexivity|].
  intros H. apply andb_true_iff in H as [Hc Hs].
  apply negb_true_iff in Hc. rewrite Hc. now rewrite IH.
Qed.

Lemma squeeze_filter_inside p by_ b s :
  forallb p by_ = true ->
  filter (fun c => negb (p c)) (squeeze p by_ b s) =
  filter (fun c => negb (p c)) s.
Proof.
  intros H.
  assert (F : filter (fun c => negb (p c)) by_ = []).
  { induction by_ as [|x l IH]; [reflexivity|]. simpl in *.
    apply andb_true_iff in H as [-> H]. simpl. now apply IH. }
  revert b; induction s as [|c s IH]; intros b; simpl; [reflexivity|].
  destruct (p c) eqn:E; simpl.
  - destruct b; [apply IH|]. rewrite filter_app, F. apply IH.
  - rewrite E. simpl. now rewrite IH.
Qed.

Lemma codePoints_units n : forall s x,
  length s <= n -> In x (codePoints s) -> In x s \/ (65536 <= x)%N.
Proof.
  induction n as [|n IH]; intros s x Hl.
  - destruct s; [intros [] | simpl in Hl; lia].
  - destruct s as [|c [|d s]]; [intros [] | now left |].
    rewrite codePoints_cons2.
    destruct (isHighSurrogate c && isLowSurrogate d).
    + intros [<- | H]; [right; lia|].
      apply IH in H; [|simpl in *; lia].
      destruct H as [H | H]; [left; now do 2 right | now right].
    + intros [<- | H]; [left; now left|].
      apply IH in H; [|simpl in *; lia].
      destruct H as [H | H]; [left; now right | now right].
Qed.

Lemma images_nonSpace t l l' :
  images t l l' ->
  forallb (fun c => negb (isWhiteSpace c)) l = true ->
  forallb (fun c => negb (isWhiteSpace c)) l' = true.
Proof.
  induction 1 as [|c v l l' (_ & _ & _ & _ & _ & W) _ IH]; [reflexivity|].
  intros H. simpl in H. apply andb_true_iff in H as [Hc H].
  apply negb_true_iff in Hc. rewrite forallb_app.
  apply andb_true_iff. split; [exact (W Hc) | now apply IH].
Qed.

Lemma encode_nonSpace c :
  isWhiteSpace c = false ->
  forallb (fun u => negb (isWhiteSpace u)) (UTF16EncodeCodePoint c) = true.
Proof.
  intros H. unfold UTF16EncodeCodePoint.
  destruct (N.leb_spec c 65535); [simpl; now rewrite H|].
  destruct (N.leb_spec c 1114111); [|simpl; now rewrite H].
  assert (Q : ((c - 65536) / 1024 < 1024)%N)
    by (apply N.Div0.div_lt_upper_bound; lia).
  pose proof (N.mod_upper_bound (c - 65536) 1024 ltac:(lia)) as R.
  generalize dependent ((c - 65536) / 1024)%N. intros q Q.
  generalize dependent ((c - 65536) mod 1024)%N. intros m R.
  cbn [forallb]. clear -Q R.
  replace (isWhiteSpace (q + 55296)%N) with false by units.
  replace (isWhiteSpace (m + 56320)%N) with false by units.
  reflexivity.
Qed.

Lemma encode_space c : isWhiteSpace c = true -> UTF16EncodeCodePoint c = [c].
Proof.
  intros H. unfold UTF16EncodeCodePoint.
  replace (c <=? 65535)%N with true; [reflexivity|].
  symmetry. apply N.leb_le. clear -H. units.
Qed.

Lemma encode_not_nil c : UTF16EncodeCodePoint c <> [].
Proof.
  unfold UTF16EncodeCodePoint.
  destruct (c <=? 65535)%N; [discriminate|].
  destruct (c <=? 1114111)%N; discriminate.
Qed.

Lemma encode_all_nonSpace l :
  forallb (fun c => negb (isWhiteSpace c)) l = true ->
  forallb (fun c => negb (isWhiteSpace c)) (CodePointsToString l) = true.
Proof.
  induction l as [|c l IH]; [reflexivity|]. simpl forallb.
  intros H. apply andb_true_iff in H as [Hc H].
  apply negb_true_iff in Hc.
  change (CodePointsToString (c :: l))
    with (UTF16EncodeCodePoint c ++ CodePointsToString l).
  now rewrite forallb_app, (encode_nonSpace c Hc), IH.
Qed.

(** The lower case of a text without white space has no white space. *)
Lemma toLowerCase_nonSpace s :
  forallb isNonSpace s = true ->
  forallb (fun c => negb (isWhiteSpace c)) (toLowerCase s) = true.
Proof.
  intros H. unfold toLowerCase. apply encode_all_nonSpace.
  apply (images_nonSpace _ _ _ (toLowercase_images _ _)).
  apply forallb_forall. intros x Hx.
  apply (codePoints_units (length s)) in Hx; [|lia].
  destruct Hx as [Hx | Hx].
  - rewrite forallb_forall in H. apply (H x Hx).
  - clear -Hx. units.
Qed.

Lemma squeeze_app_outside p by_ b u s :
  u <> [] -> forallb (fun c => negb (p c)) u = true ->
  squeeze p by_ b (u ++ s) = u ++ squeeze p by_ false s.
Proof.
  revert b; induction u as [|c u IH]; intros b Ne H; [contradiction|].
  simpl in H. apply andb_true_iff in H as [Hc H].
  apply negb_true_iff in Hc. simpl. rewrite Hc. f_equal.
  destruct u as [|d u]; [reflexivity|]. now apply IH.
Qed.

Lemma encode_app a b :
  CodePointsToString (a ++ b) = CodePointsToString a ++ CodePointsToString b.
Proof. apply flat_map_app. Qed.

(** Squeezing the white space of an encoded list of code points. *)
Lemma squeeze_encode by_ l : forall b,
  forallb (fun c => (c <=? 65535)%N) by_ = true ->
  squeeze isWhiteSpace by_ b (CodePointsToString l) =
  CodePointsToString (squeeze isWhiteSpace by_ b l).
Proof.
  intros b Hb. revert b. induction l as [|c l IH]; intros b; [reflexivity|].
  change (CodePointsToString (c :: l))
    with (UTF16EncodeCodePoint c ++ CodePointsToString l).
  simpl squeeze at 2. destruct (isWhiteSpace c) eqn:E.
  - rewrite (encode_space c E). simpl. rewrite E.
    destruct b; [apply IH|].
    now rewrite encode_app, (encode_bmp by_ Hb), IH.
  - rewrite squeeze_app_outside
      by (apply encode_not_nil || now apply encode_nonSpace).
    now rewrite IH.
Qed.

Lemma headLow_squeeze by_ l :
  by_ <> [] -> headLow by_ = false ->
  headLow (squeeze isWhiteSpace by_ false l) = true -> headLow l = true.
Proof.
  intros Ne Hb. destruct l as [|c l]; [simpl; discriminate|].
  simpl. destruct (isWhiteSpace c) eqn:E; [|easy].
  destruct by_ as [|x r]; [contradiction|]. simpl in *. congruence.
Qed.

Lemma noPair_squeeze by_ l : forall b,
  by_ <> [] ->
  forallb (fun x => negb (isSurrogate x)) by_ = true ->
  noPair l = true -> noPair (squeeze isWhiteSpace by_ b l) = true.
Proof.
  intros b Ne Hb. revert b. induction l as [|c l IH]; intros b; [reflexivity|].
  rewrite noPair_cons. intros H. apply andb_true_iff in H as [H N].
  simpl. destruct (isWhiteSpace c) eqn:E.
  - destruct b; [now apply IH|].
    rewrite noPair_app_plain by assumption. now apply IH.
  - rewrite noPair_cons, (IH false N), andb_true_r.
    destruct (isHighSurrogate c) eqn:Hc; [|reflexivity]. simpl in *.
    destruct (headLow (squeeze isWhiteSpace by_ false l)) eqn:L;
      [|reflexivity].
    assert (Hh : headLow by_ = false).
    { destruct by_ as [|x r]; [reflexivity|]. simpl in *.
      apply andb_true_iff in Hb as [Hx _]. apply negb_true_iff in Hx.
      apply surrogate_parts in Hx. tauto. }
    rewrite (headLow_squeeze by_ l Ne Hh L) in H. discriminate.
Qed.

Lemma stable_squeeze t by_ l : forall b,
  forallb (stable t) by_ = true ->
  forallb (stable t) l = true ->
  forallb (stable t) (squeeze isWhiteSpace by_ b l) = true.
Proof.
  intros b Hb. revert b. induction l as [|c l IH]; intros b; [reflexivity|].
  intros H. simpl in H. apply andb_true_iff in H as [Hc H].
  cbn [squeeze]. destruct (isWhiteSpace c).
  - destruct b; [now apply IH|]. rewrite forallb_app.
    apply andb_true_iff. split; [exact Hb | now apply IH].
  - cbn [forallb]. apply andb_true_iff. split; [exact Hc | now apply IH].
Qed.

(** A string that encodes code points which the conversion leaves as
    they are is its own lower case. *)
Lemma toLowerCase_fixed m :
  noPair m = true -> forallb (stable Unicode.lowerTable) m = true ->
  toLowerCase (CodePointsToString m) = CodePointsToString m.
Proof.
  intros N S. unfold toLowerCase.
  now rewrite codePoints_encode, toLowercase_stable.
Qed.

Lemma snakeCase_squeeze s :
  snakeCase s = squeeze isWhiteSpace (str "_") false (toLowerCase s).
Proof. apply replaceAllWith_plus_class. Qed.

Lemma kebabCase_squeeze s :
  kebabCase s = squeeze isWhiteSpace (str "-") false (toLowerCase s).
Proof. apply replaceAllWith_plus_class. Qed.

Lemma joined_idem by_ s :
  by_ <> [] ->
  forallb (fun x => stable Unicode.lowerTable x && negb (isSurrogate x)
                    && negb (isWhiteSpace x) && (x <=? 65535)%N) by_ = true ->
  let t := squeeze isWhiteSpace by_ false (toLowerCase s) in
  squeeze isWhiteSpace by_ false (toLowerCase t) = t.
Proof.
  intros Ne Hb t.
  assert (B1 : forallb (stable Unicode.lowerTable) by_ = true
               /\ forallb (fun x => negb (isSurrogate x)) by_ = true
               /\ forallb (fun x => negb (isWhiteSpace x)) by_ = true
               /\ forallb (fun x => (x <=? 65535)%N) by_ = true).
  { clear -Hb. induction by_ as [|x r IH]; [now repeat split|].
    simpl in Hb. apply andb_true_iff in Hb as [Hx Hr].
    destruct (IH Hr) as (I1 & I2 & I3 & I4).
    apply andb_true_iff in Hx as [Hx H4]. apply andb_true_iff in Hx as [Hx H3].
    apply andb_true_iff in Hx as [H1 H2].
    simpl. now rewrite H1, H2, H3, H4, I1, I2, I3, I4. }
  destruct B1 as (S & P & W & B).
  assert (T : toLowerCase t = t).
  { assert (Et : t = CodePointsToString
                       (squeeze isWhiteSpace by_ false
                          (Unicode.toLowercase [] (codePoints s))))
      by (unfold t, toLowerCase; now apply squeeze_encode).
    rewrite Et. apply toLowerCase_fixed.
    - apply noPair_squeeze; try assumption. apply toLowerCase_noPair.
    - apply stable_squeeze; [assumption|].
      apply (images_stable _ _ _ (toLowercase_images _ _)). }
  rewrite T. unfold t.
  apply squeeze_no_match. now apply squeeze_outside.
Qed.

(** snakeCase and kebabCase leave no white space in their result, turn a
    text without white space into its lower case, and are idempotent. *)
Theorem snake_kebab_no_space (s : jsstring) :
  forallb isNonSpace (convert SnakeCase s) = true /\
  forallb isNonSpace (convert KebabCase s) = true /\
  (forallb isNonSpace s = true ->
   convert SnakeCase s = toLowerCase s /\
   convert KebabCase s = toLowerCase s) /\
  convert SnakeCase (convert SnakeCase s) = convert SnakeCase s /\
  convert KebabCase (convert KebabCase s) = convert KebabCase s.
Proof.
  simpl convert. rewrite !snakeCase_squeeze, !kebabCase_squeeze.
  repeat split.
  - now apply (squeeze_outside isWhiteSpace).
  - now apply (squeeze_outside isWhiteSpace).
  - apply squeeze_no_match. now apply toLowerCase_nonSpace.
  - apply squeeze_no_match. now apply toLowerCase_nonSpace.
  - now apply joined_idem.
  - now apply joined_idem.
Qed.

Lemma snake_kebab_no_space_witness :
  convert SnakeCase (str "a-B") = toLowerCase (str "a-B") /\
  convert KebabCase (str "a-B") = toLowerCase (str "a-B").
Proof.
  apply (proj1 (proj2 (proj2 (snake_kebab_no_space (str "a-B"))))).
  reflexivity.
Defined.

Lemma removeSpaces_filter s : removeSpaces s = filter isNonSpace s.
Proof. apply replaceAllWith_class_nil. Qed.

Lemma filter_nonSpace_trim s : filter isNonSpace (trim s) = filter isNonSpace s.
Proof.
  assert (Z : forall w, forallb isWhiteSpace w = true ->
                        filter isNonSpace w = []).
  { induction w as [|c w IH]; [reflexivity|]. simpl. intros H.
    apply andb_true_iff in H as [Hc Hw]. unfold isNonSpace at 1.
    rewrite Hc. simpl. now apply IH. }
  assert (A : forall u,
            filter isNonSpace (dropWhile isWhiteSpace u) = filter isNonSpace u).
  { induction u as [|c u IH]; [reflexivity|]. simpl.
    destruct (isWhiteSpace c) eqn:E.
    - rewrite IH. unfold isNonSpace at 2. now rewrite E.
    - simpl. reflexivity. }
  unfold trim, trimStart. rewrite <- (A s).
  transitivity
    (filter isNonSpace
       (trimEnd (dropWhile isWhiteSpace s)
        ++ rev (takeWhile isWhiteSpace (rev (dropWhile isWhiteSpace s))))).
  - rewrite filter_app, (Z (rev _)), app_nil_r; [reflexivity|].
    rewrite forallb_rev. apply takeWhile_all.
  - f_equal. symmetry. apply trimEnd_split.
Qed.

(** removeSpaces deletes exactly the white-space code units and keeps
    the others in order; it is idempotent, and it gives the same result
    after trimWhitespace or removeExtraSpaces as on the text itself. *)
Theorem removeSpaces_deletes_white_space (s : jsstring) :
  convert RemoveSpaces s = filter isNonSpace s /\
  convert RemoveSpaces (convert RemoveSpaces s) = convert RemoveSpaces s /\
  convert RemoveSpaces (convert TrimWhitespace s) = convert RemoveSpaces s /\
  convert RemoveSpaces (convert RemoveExtraSpaces s) = convert RemoveSpaces s.
Proof.
  simpl convert. rewrite !removeSpaces_filter. repeat split.
  - apply filter_all_true. apply forallb_forall. intros c Hc.
    now apply filter_In in Hc.
  - apply filter_nonSpace_trim.
  - rewrite removeExtraSpaces_squeeze.
    now apply (squeeze_filter_inside isWhiteSpace).
Qed.

(** ** Alternating case *)

Lemma mapi_units_nth (g : codeUnit -> nat -> codeUnit) s : forall i k,
  nth_error
    (joinEmpty (mapi (fun char index => map (fun c => g c index) char) i
                  (splitUnits s))) k =
  option_map (fun c => g c (i + k)) (nth_error s k).
Proof.
  induction s as [|c s IH]; intros i k; simpl.
  - now destruct k.
  - destruct k as [|k]; simpl.
    + now rewrite Nat.add_0_r.
    + unfold joinEmpty in IH. rewrite IH. f_equal.
      replace (S i + k) with (i + S k) by lia. reflexivity.
Qed.

Lemma mapi_ext {A B} (f g : A -> nat -> B) l :
  (forall x i, f x i = g x i) -> forall i, mapi f i l = mapi g i l.
Proof.
  intros H. induction l as [|x l IH]; intros i; simpl; [reflexivity|].
  now rewrite H, IH.
Qed.

Lemma mapi_ext_in {A B} (f g : A -> nat -> B) l :
  (forall x i, In x l -> f x i = g x i) -> forall i, mapi f i l = mapi g i l.
Proof.
  induction l as [|x l IH]; intros H i; simpl; [reflexivity|].
  rewrite H by now left. f_equal. apply IH. intros y n Hy. apply H. now right.
Qed.

Lemma images_not_nil t l l' : images t l l' -> l <> [] -> l' <> [].
Proof.
  destruct 1 as [|c v l l' (Ne & _) _]; [contradiction|].
  intros _. destruct v; [contradiction | discriminate].
Qed.

Lemma encode_nil l : l <> [] -> CodePointsToString l <> [].
Proof.
  destruct l as [|c l]; [contradiction|]. intros _.
  change (CodePointsToString (c :: l))
    with (UTF16EncodeCodePoint c ++ CodePointsToString l).
  pose proof (encode_not_nil c).
  destruct (UTF16EncodeCodePoint c); [contradiction | discriminate].
Qed.

Lemma codePoints_not_nil s : s <> [] -> codePoints s <> [].
Proof.
  destruct s as [|c [|d s]]; [contradiction | discriminate |].
  intros _. rewrite codePoints_cons2.
  destruct (isHighSurrogate c && isLowSurrogate d); discriminate.
Qed.

Lemma toLowerCase_not_nil s : s <> [] -> toLowerCase s <> [].
Proof.
  intros H. apply encode_nil.
  apply (images_not_nil _ _ _ (toLowercase_images _ _)).
  now apply codePoints_not_nil.
Qed.

Lemma toUpperCase_not_nil s : s <> [] -> toUpperCase s <> [].
Proof.
  intros H. apply encode_nil.
  apply (images_not_nil _ _ _ (toUppercase_images _)).
  now apply codePoints_not_nil.
Qed.

Lemma mapi_units_length (f : jsstring -> nat -> jsstring) s :
  (forall c i, f [c] i <> []) ->
  forall i, length s <= length (joinEmpty (mapi f i (splitUnits s))).
Proof.
  intros H. induction s as [|c s IH]; intros i; [simpl; lia|].
  change (joinEmpty (mapi f i (splitUnits (c :: s))))
    with (f [c] i ++ joinEmpty (mapi f (S i) (splitUnits s))).
  rewrite length_app. specialize (IH (S i)). specialize (H c i).
  destruct (f [c] i); [contradiction|]. cbn [length] in *. lia.
Qed.

(** alternatingCase converts every code unit on its own, those at even
    positions (from 0) to lower case and those at odd positions to upper
    case, and inverseCase does the opposite.  On a text of ASCII
    characters and white space the result has the length of the text and
    holds at every position the letter of the text in the case of the
    position.  On other texts the result is never shorter than the text
    but can be longer: U+00DF at an odd position becomes "SS". *)
Theorem alternating_by_position (s : jsstring) (k : nat) :
  (forallb isPlain s = true ->
   nth_error (convert AlternatingCase s) k =
     option_map (fun c => if Nat.even k then lowerUnit c else upperUnit c)
       (nth_error s k) /\
   nth_error (convert InverseCase s) k =
     option_map (fun c => if Nat.even k then upperUnit c else lowerUnit c)
       (nth_error s k) /\
   length (convert AlternatingCase s) = length s /\
   length (convert InverseCase s) = length s) /\
  length s <= length (convert AlternatingCase s) /\
  length s <= length (convert InverseCase s) /\
  convert AlternatingCase [97; 223]%N = str "aSS" /\
  convert InverseCase [223; 97]%N = str "SSa".
Proof.
  simpl convert. unfold alternatingCase, inverseCase.
  assert (E : forall k, (k mod 2 =? 0) = Nat.even k).
  { intros n. destruct (Nat.even n) eqn:Ev.
    - apply Nat.even_spec in Ev. destruct Ev as [m ->].
      apply Nat.eqb_eq. rewrite Nat.mul_comm. apply Nat.Div0.mod_mul.
    - apply Nat.eqb_neq. intros Z. apply Nat.Div0.mod_divides in Z.
      destruct Z as [m ->].
      assert (Nat.even (2 * m) = true) by (apply Nat.even_spec; now exists m).
      congruence. }
  assert (O : forall k, (k mod 2 =? 1) = negb (Nat.even k)).
  { intros n. rewrite <- E. pose proof (Nat.mod_upper_bound n 2).
    destruct (n mod 2) as [|[|m]]; simpl; try reflexivity. lia. }
  split; [intros P | repeat split].
  - assert (U : forall x, In x (splitUnits s) ->
                toLowerCase x = map lowerUnit x /\
                toUpperCase x = map upperUnit x).
    { intros x Hx. unfold splitUnits in Hx.
      apply in_map_iff in Hx as (c & <- & Hc).
      rewrite forallb_forall in P. specialize (P c Hc).
      split; [apply toLowerCase_plain | apply toUpperCase_plain];
        simpl; now rewrite P. }
    assert (A1 :
      mapi (fun char index =>
              if index mod 2 =? 0 then toLowerCase char else toUpperCase char)
           0 (splitUnits s) =
      mapi (fun char index =>
              map (fun c => if Nat.even index then lowerUnit c else upperUnit c)
                char) 0 (splitUnits s)).
    { apply mapi_ext_in. intros x i Hx. cbv beta. rewrite E.
      destruct (U x Hx) as [-> ->]. now destruct (Nat.even i). }
    assert (A2 :
      mapi (fun char index =>
              if index mod 2 =? 1 then toLowerCase char else toUpperCase char)
           0 (splitUnits s) =
      mapi (fun char index =>
              map (fun c => if Nat.even index then upperUnit c else lowerUnit c)
                char) 0 (splitUnits s)).
    { apply mapi_ext_in. intros x i Hx. cbv beta. rewrite O.
      destruct (U x Hx) as [-> ->]. now destruct (Nat.even i). }
    rewrite A1, A2. clear A1 A2 U P.
    assert (L : forall (g : codeUnit -> nat -> codeUnit) i,
      length (joinEmpty (mapi (fun char index => map (fun c => g c index) char)
                           i (splitUnits s))) = length s).
    { intros g. induction s as [|c s' IH]; intros i; simpl; [reflexivity|].
      f_equal. apply IH. }
    repeat split.
    + apply (mapi_units_nth
               (fun c i => if Nat.even i then lowerUnit c else upperUnit c)).
    + apply (mapi_units_nth
               (fun c i => if Nat.even i then upperUnit c else lowerUnit c)).
    + apply (L (fun c i => if Nat.even i then lowerUnit c else upperUnit c)).
    + apply (L (fun c i => if Nat.even i then upperUnit c else lowerUnit c)).
  - apply mapi_units_length. intros c i.
    destruct (i mod 2 =? 0);
      [apply toLowerCase_not_nil | apply toUpperCase_not_nil]; discriminate.
  - apply mapi_units_length. intros c i.
    destruct (i mod 2 =? 1);
      [apply toLowerCase_not_nil | apply toUpperCase_not_nil]; discriminate.
Qed.

Lemma alternating_by_position_witness :
  nth_error (convert AlternatingCase (str "aB c")) 1 = Some 66%N /\
  length (convert AlternatingCase (str "aB c")) = 4.
Proof.
  destruct (proj1 (alternating_by_position (str "aB c") 1) eq_refl)
    as (H1 & _ & H3 & _).
  split; [exact H1 | exact H3].
Defined.

(** ** Capitalised, Pascal and camel case *)

Lemma matchK_wordb negated prev s k :
  matchK (WordB negated) prev s k =
  if xorb negated (isBoundary prev s) then k prev s else None.
Proof. reflexivity. Qed.

Lemma isBoundary_cons prev c s :
  isBoundary prev (c :: s) = xorb (prevWord prev) (isWordChar c).
Proof. now destruct prev. Qed.

Lemma matchAt_wordStart prev s :
  matchAt reWordStart prev s =
  match s with
  | c :: s' => if isWordChar c && negb (prevWord prev) then Some s' else None
  | [] => None
  end.
Proof.
  unfold matchAt, reWordStart. rewrite matchK_cat, matchK_wordb, matchK_class.
  destruct s as [|c s]; [now destruct (xorb false (isBoundary prev []))|].
  rewrite isBoundary_cons.
  now destruct (prevWord prev), (isWordChar c).
Qed.

Lemma upper_is_word c : isUpper c = true -> isWordChar c = true.
Proof. intros H. unfold isWordChar. now rewrite H. Qed.

Lemma upperUnit_upper c : isUpper c = true -> upperUnit c = c.
Proof. intros H. units. Qed.

Lemma matchAt_camel prev s :
  matchAt reCamel prev s =
  match s with
  | c :: s' =>
      if isUpper c || (isWordChar c && negb (prevWord prev))
      then Some s' else None
  | [] => None
  end.
Proof.
  unfold matchAt, reCamel.
  rewrite !matchK_alt, !matchK_cat, matchK_bol, matchK_wordb, !matchK_class.
  destruct s as [|c s].
  - destruct prev; now destruct (xorb false (isBoundary _ [])).
  - rewrite isBoundary_cons.
    destruct (isUpper c) eqn:U.
    + rewrite (upper_is_word c U). destruct prev as [p|]; simpl;
        [now destruct (isWordChar p) | reflexivity].
    + destruct prev as [p|]; simpl;
        [now destruct (isWordChar p), (isWordChar c)
        | now destruct (isWordChar c)].
Qed.

Lemma replaceLoop_wordStart fuel prev idx s :
  length s < fuel ->
  replaceLoop fuel reWordStart (fun char _ => toUpperCase char) prev idx s =
  capWords (prevWord prev) s.
Proof.
  revert prev idx s; induction fuel as [|fuel IH]; intros prev idx s Hl;
    [lia|].
  rewrite replaceLoop_S, matchAt_wordStart.
  destruct s as [|c s]; [reflexivity|]. simpl in Hl. simpl capWords.
  destruct (isWordChar c) eqn:W; simpl andb.
  - destruct (prevWord prev) eqn:P; simpl negb; cbv iota.
    + rewrite IH by lia. simpl. now rewrite W.
    + destruct (length (c :: s) - length s) eqn:En;
        [cbn [length] in En; lia|].
      assert (n = 0) by (cbn [length] in En; lia). subst n.
      cbv beta iota zeta. rewrite IH by lia.
      rewrite firstn_cons, firstn_O, (toUpperCase_word c W).
      simpl. now rewrite W.
  - rewrite IH by lia. simpl. now rewrite W.
Qed.

Lemma capitalizedCase_capWords s : capitalizedCase s = capWords false s.
Proof. apply (replaceLoop_wordStart (S (length s)) None 0). lia. Qed.

(** capitalizedCase puts in upper case the first code unit of every
    maximal run of word characters and changes nothing else. *)
Theorem capitalizedCase_words (s : jsstring) :
  convert CapitalizedCase s = capWords false s.
Proof. apply capitalizedCase_capWords. Qed.

Lemma replaceLoop_camel (f : jsstring -> nat -> jsstring) idx0 fuel :
  (forall word i, idx0 <= i -> f word i = toUpperCase word) ->
  forall prev idx s,
  idx0 <= idx -> length s < fuel ->
  replaceLoop fuel reCamel f prev idx s = capWords (prevWord prev) s.
Proof.
  intros Hf. induction fuel as [|fuel IH]; intros prev idx s Hi Hl; [lia|].
  rewrite replaceLoop_S, matchAt_camel.
  destruct s as [|c s]; [reflexivity|]. simpl in Hl. simpl capWords.
  destruct (isUpper c || isWordChar c && negb (prevWord prev)) eqn:M.
  - destruct (length (c :: s) - length s) eqn:En;
      [cbn [length] in En; lia|].
    assert (n = 0) by (cbn [length] in En; lia). subst n.
    cbv beta iota zeta. rewrite Hf by exact Hi.
    rewrite IH by lia. rewrite firstn_cons, firstn_O.
    apply orb_true_iff in M as [U | M].
    + rewrite (toUpperCase_word c (upper_is_word c U)). simpl.
      rewrite (upper_is_word c U), (upperUnit_upper c U).
      now destruct (prevWord prev).
    + apply andb_true_iff in M as [W P]. apply negb_true_iff in P.
      rewrite (toUpperCase_word c W). simpl.
      now rewrite W, P.
  - rewrite IH by lia. simpl.
    apply orb_false_iff in M as [U M].
    destruct (isWordChar c); [|reflexivity].
    simpl in M. apply negb_false_iff in M. now rewrite M.
Qed.

Lemma reSpaces_nil_filter s : replaceAllWith reSpaces [] s = filter isNonSpace s.
Proof.
  unfold reSpaces. rewrite replaceAllWith_plus_class. apply squeeze_nil_filter.
Qed.

(** pascalCase is capitalizedCase followed by removeSpaces. *)
Theorem pascalCase_capitalized (s : jsstring) :
  convert PascalCase s = convert RemoveSpaces (convert CapitalizedCase s).
Proof.
  simpl convert. rewrite removeSpaces_filter. unfold pascalCase.
  rewrite reSpaces_nil_filter. f_equal.
  rewrite capitalizedCase_capWords.
  apply (replaceLoop_camel (fun word _ => toUpperCase word) 0 (S (length s)));
    [reflexivity | lia | lia].
Qed.

(** camelCase is pascalCase with the first code unit in lower case when
    the text starts with a word character, and pascalCase itself
    otherwise. *)
Theorem camelCase_pascal (s : jsstring) :
  convert CamelCase s =
  match s with
  | c :: _ =>
      if isWordChar c then lowerUnit c :: tl (convert PascalCase s)
      else convert PascalCase s
  | [] => []
  end.
Proof.
  rewrite pascalCase_capitalized.
  simpl convert. rewrite removeSpaces_filter, capitalizedCase_capWords.
  unfold camelCase.
  rewrite reSpaces_nil_filter.
  destruct s as [|c s]; [reflexivity|].
  unfold replaceAll. rewrite replaceLoop_S, matchAt_camel.
  assert (R : forall p i, 1 <= i ->
    replaceLoop (length (c :: s)) reCamel
      (fun word index =>
         if index =? 0 then toLowerCase word else toUpperCase word)
      (Some p) i s = capWords (isWordChar p) s).
  { intros p i Hi.
    apply (replaceLoop_camel _ 1 (length (c :: s))); [|exact Hi|simpl; lia].
    intros word j Hj. destruct j; [lia | reflexivity]. }
  simpl prevWord. rewrite andb_true_r. simpl capWords.
  destruct (isWordChar c) eqn:W.
  - rewrite orb_true_r.
    destruct (length (c :: s) - length s) eqn:En;
      [cbn [length] in En; lia|].
    assert (n = 0) by (cbn [length] in En; lia). subst n.
    cbv beta iota zeta. rewrite R by lia.
    rewrite firstn_cons, firstn_O, Nat.eqb_refl, (toLowerCase_word c W).
    simpl.
    assert (N1 : isNonSpace (lowerUnit c) = true) by (clear -W; units).
    assert (N2 : isNonSpace (upperUnit c) = true) by (clear -W; units).
    now rewrite N1, N2, W.
  - destruct (isUpper c) eqn:U;
      [rewrite (upper_is_word c U) in W; discriminate|].
    simpl orb. cbv iota. rewrite R by lia. simpl. now rewrite W.
Qed.

(** ** Thousands separators *)

Lemma matchK_star r prev s k :
  matchK (Star r) prev s k = starIter (matchK r) k (length s) prev s.
Proof. reflexivity. Qed.

Lemma matchK_digits3 prev s k :
  matchK digits3 prev s k =
  match s with
  | a :: b :: c :: s' =>
      if isDigit a && isDigit b && isDigit c then k (Some c) s' else None
  | _ => None
  end.
Proof.
  unfold digits3. rewrite !matchK_cat, matchK_class.
  destruct s as [|a [|b [|c s]]]; simpl;
    repeat match goal with
           | |- context [isDigit ?x] => destruct (isDigit x)
           end; reflexivity.
Qed.

Lemma starIter_digits3 k fuel : forall prev s,
  length s <= fuel ->
  starIter (matchK digits3) k fuel prev s = greedy3 k prev s.
Proof.
  induction fuel as [|fuel IH]; intros prev s Hl.
  - destruct s; [reflexivity | simpl in Hl; lia].
  - cbn [starIter]. rewrite matchK_digits3.
    destruct s as [|a [|b [|c s]]]; try reflexivity.
    cbn [greedy3].
    destruct (isDigit a && isDigit b && isDigit c); [|reflexivity].
    replace (length s <? length (a :: b :: c :: s)) with true
      by (symmetry; apply Nat.ltb_lt; simpl; lia).
    rewrite IH by (simpl in Hl; lia). reflexivity.
Qed.

Lemma matchK_look negated r prev s k :
  matchK (Look negated r) prev s k =
  match matchK r prev s (fun _ s' => Some s') with
  | Some _ => if negated then None else k prev s
  | None => if negated then k prev s else None
  end.
Proof. reflexivity. Qed.

Lemma matchK_notDigit prev s :
  matchK (Look true (Class isDigit)) prev s (fun _ e => Some e) =
  notDigitNext prev s.
Proof.
  rewrite matchK_look, matchK_class. destruct s as [|c s]; [reflexivity|].
  simpl. now destruct (isDigit c).
Qed.

Lemma takeWhile_digits3 a b c s :
  isDigit a && isDigit b && isDigit c = true ->
  length (takeWhile isDigit (a :: b :: c :: s)) =
  3 + length (takeWhile isDigit s).
Proof.
  intros H. apply andb_true_iff in H as [H Hc].
  apply andb_true_iff in H as [Ha Hb]. simpl. now rewrite Ha, Hb, Hc.
Qed.

Lemma takeWhile_short a b c s :
  isDigit a && isDigit b && isDigit c = false ->
  length (takeWhile isDigit (a :: b :: c :: s)) < 3.
Proof.
  simpl. destruct (isDigit a), (isDigit b), (isDigit c); simpl;
    try discriminate; lia.
Qed.

Lemma greedy3_groups n : forall prev s,
  length s <= n ->
  isSome (greedy3 notDigitNext prev s) =
  (length (takeWhile isDigit s) mod 3 =? 0).
Proof.
  induction n as [|n IH]; intros prev s Hl.
  - destruct s; [reflexivity | simpl in Hl; lia].
  - destruct s as [|a [|b [|c s]]].
    + reflexivity.
    + simpl. now destruct (isDigit a).
    + simpl. now destruct (isDigit a), (isDigit b).
    + cbn [greedy3].
      destruct (isDigit a && isDigit b && isDigit c) eqn:D.
      * rewrite (takeWhile_digits3 a b c s D).
        replace ((3 + length (takeWhile isDigit s)) mod 3)
          with (length (takeWhile isDigit s) mod 3)
          by (rewrite Nat.add_comm;
              change 3 with (1 * 3) at 2;
              now rewrite Nat.Div0.mod_add).
        rewrite <- (IH (Some c) s) by (simpl in Hl; lia).
        destruct (greedy3 notDigitNext (Some c) s); [reflexivity|].
        apply andb_true_iff in D as [D _]. apply andb_true_iff in D as [D _].
        simpl. now rewrite D.
      * pose proof (takeWhile_short a b c s D) as L.
        revert L. simpl.
        destruct (isDigit a); [|reflexivity].
        destruct (isDigit b); [|intros; reflexivity].
        destruct (isDigit c); [discriminate D | intros; reflexivity].
Qed.

Lemma greedy3_ext (k k' : cont) :
  (forall p e, k p e = k' p e) ->
  forall n prev s, length s <= n -> greedy3 k prev s = greedy3 k' prev s.
Proof.
  intros H. induction n as [|n IH]; intros prev s Hl.
  - destruct s; [apply H | simpl in Hl; lia].
  - destruct s as [|a [|b [|c s]]]; try apply H.
    cbn [greedy3]. rewrite H, (IH (Some c) s) by (simpl in Hl; lia).
    reflexivity.
Qed.

Lemma lookahead_groups prev s :
  isSome (matchK (Cat (Plus digits3) (Look true (Class isDigit))) prev s
            (fun _ e => Some e)) = digitGroups s.
Proof.
  unfold Plus. rewrite !matchK_cat, matchK_digits3. unfold digitGroups.
  destruct s as [|a [|b [|c s]]].
  - reflexivity.
  - simpl. now destruct (isDigit a).
  - simpl. now destruct (isDigit a), (isDigit b).
  - destruct (isDigit a && isDigit b && isDigit c) eqn:D.
    + rewrite matchK_star.
      assert (E : forall p' e,
        matchK (Look true (Class isDigit)) p' e (fun _ r => Some r) =
        notDigitNext p' e) by (intros; apply matchK_notDigit).
      rewrite (starIter_digits3 _ (length s) (Some c) s (le_n _)).
      assert (G : greedy3
                    (fun p' e =>
                       matchK (Look true (Class isDigit)) p' e
                         (fun _ r => Some r)) (Some c) s =
                  greedy3 notDigitNext (Some c) s)
        by (apply (greedy3_ext _ _ E (length s)); lia).
      rewrite G.
      rewrite (greedy3_groups (length s) (Some c) s (le_n _)).
      rewrite (takeWhile_digits3 a b c s D).
      replace ((3 + length (takeWhile isDigit s)) mod 3)
        with (length (takeWhile isDigit s) mod 3)
        by (rewrite Nat.add_comm;
            change 3 with (1 * 3) at 2;
            now rewrite Nat.Div0.mod_add).
      reflexivity.
    + pose proof (takeWhile_short a b c s D) as L.
      apply Nat.leb_gt in L. now rewrite L.
Qed.

Lemma matchAt_thousands prev s :
  matchAt reThousands prev s =
  if negb (isBoundary prev s) && digitGroups s then Some s else None.
Proof.
  unfold matchAt.
  change reThousands with
    (Cat (WordB true)
       (Look false (Cat (Plus digits3) (Look true (Class isDigit))))).
  rewrite matchK_cat, matchK_wordb, matchK_look.
  rewrite <- (lookahead_groups prev s).
  generalize (matchK (Cat (Plus digits3) (Look true (Class isDigit)))
                prev s (fun _ e => Some e)).
  intros o. now destruct (isBoundary prev s), o.
Qed.

Lemma digitGroups_digit c s :
  digitGroups (c :: s) = true -> isDigit c = true.
Proof.
  unfold digitGroups. simpl. destruct (isDigit c); [reflexivity|].
  discriminate.
Qed.

Lemma digit_is_word c : isDigit c = true -> isWordChar c = true.
Proof. intros H. unfold isWordChar. rewrite H. now rewrite !orb_true_r. Qed.

Lemma replaceLoop_thousands fuel prev idx s :
  length s < fuel ->
  replaceLoop fuel reThousands (fun _ _ => str ",") prev idx s =
  thousandsScan (prevWord prev) s.
Proof.
  revert prev idx s; induction fuel as [|fuel IH]; intros prev idx s Hl;
    [lia|].
  rewrite replaceLoop_S, matchAt_thousands.
  destruct s as [|c s]; [now destruct (negb (isBoundary prev []))|].
  simpl in Hl. rewrite isBoundary_cons. cbn [thousandsScan].
  rewrite IH by lia. simpl prevWord.
  destruct (digitGroups (c :: s)) eqn:G.
  - rewrite (digit_is_word c (digitGroups_digit c s G)).
    rewrite andb_true_r.
    destruct (prevWord prev); simpl negb; cbv iota; [|reflexivity].
    now rewrite Nat.sub_diag.
  - now rewrite !andb_false_r.
Qed.

(** addThousandSeparators puts a comma before a code unit exactly when
    the code unit before it is a word character and the digits that start
    there form one or more groups of three; it changes nothing else. *)
Theorem addThousandSeparators_scan (s : jsstring) :
  convert AddThousandSeparators s = thousandsScan false s.
Proof. apply (replaceLoop_thousands (S (length s)) None 0). lia. Qed.

Lemma thousandsScan_filter b s :
  filter (fun c => negb (isComma c)) (thousandsScan b s) =
  filter (fun c => negb (isComma c)) s.
Proof.
  revert b; induction s as [|c s IH]; intros b; [reflexivity|].
  cbn [thousandsScan]. rewrite filter_app.
  replace (filter (fun c => negb (isComma c))
             (if b && digitGroups (c :: s) then str "," else []))
    with (@nil codeUnit) by now destruct (b && digitGroups (c :: s)).
  simpl. now rewrite IH.
Qed.

Lemma removeSeparators_filter s :
  removeSeparators s =
  filter (fun c => negb (isChar "," c || isWhiteSpace c)) s.
Proof. apply replaceAllWith_class_nil. Qed.

Lemma filter_filter {A} (f g : A -> bool) l :
  filter f (filter g l) = filter (fun x => g x && f x) l.
Proof.
  induction l as [|x l IH]; simpl; [reflexivity|].
  destruct (g x); simpl; [destruct (f x)|]; now rewrite IH.
Qed.

(** addThousandSeparators only inserts commas: without its commas the
    result is the text without its commas, and removeSeparators gives the
    same on the result as on the text. *)
Theorem addThousandSeparators_only_commas (s : jsstring) :
  filter (fun c => negb (isComma c)) (convert AddThousandSeparators s) =
    filter (fun c => negb (isComma c)) s /\
  convert RemoveSeparators (convert AddThousandSeparators s) =
    convert RemoveSeparators s.
Proof.
  rewrite addThousandSeparators_scan.
  split; [apply thousandsScan_filter|].
  simpl convert. rewrite !removeSeparators_filter.
  assert (E : forall t,
    filter (fun c => negb (isChar "," c || isWhiteSpace c)) t =
    filter (fun c => negb (isWhiteSpace c))
      (filter (fun c => negb (isComma c)) t)).
  { intros t. rewrite filter_filter. apply filter_ext. intros c.
    unfold isComma. now rewrite negb_orb. }
  now rewrite !E, thousandsScan_filter.
Qed.

Lemma thousandsScan_digits s :
  forallb isDigit s = true ->
  length (filter isComma (thousandsScan true s)) = length s / 3.
Proof.
  induction s as [|c s IH]; [reflexivity|].
  intros H. pose proof H as H0. simpl in H.
  apply andb_true_iff in H as [Hc Hs].
  cbn [thousandsScan]. rewrite (digit_is_word c Hc).
  rewrite filter_app, length_app. cbn [andb].
  assert (T : takeWhile isDigit (c :: s) = c :: s).
  { clear -H0. induction (c :: s) as [|x l IHl]; [reflexivity|].
    simpl in *. apply andb_true_iff in H0 as [-> H0]. now rewrite IHl. }
  unfold digitGroups. rewrite T.
  assert (Cc : isComma c = false) by (clear -Hc; unfold isComma; units).
  change (filter isComma (c :: thousandsScan true s))
    with (if isComma c then c :: filter isComma (thousandsScan true s)
          else filter isComma (thousandsScan true s)).
  rewrite Cc, (IH Hs).
  change (length (c :: s)) with (S (length s)).
  assert (F : forall b : bool,
            length (filter isComma (if b then str "," else [])) =
            if b then 1 else 0) by (intros []; reflexivity).
  rewrite F.
  pose proof (Nat.div_mod_eq (S (length s)) 3) as D1.
  pose proof (Nat.div_mod_eq (length s) 3) as D2.
  pose proof (Nat.mod_upper_bound (S (length s)) 3 ltac:(lia)) as B1.
  pose proof (Nat.mod_upper_bound (length s) 3 ltac:(lia)) as B2.
  destruct (S (length s) mod 3 =? 0) eqn:M.
  - apply Nat.eqb_eq in M.
    destruct (3 <=? S (length s)) eqn:L3; cbn [andb].
    + lia.
    + apply Nat.leb_gt in L3. lia.
  - apply Nat.eqb_neq in M. rewrite andb_false_r. lia.
Qed.

(** In a text made of n digits only, addThousandSeparators inserts
    (n - 1) / 3 commas. *)
Theorem addThousandSeparators_digits (s : jsstring) :
  forallb isDigit s = true ->
  length (filter isComma (convert AddThousandSeparators s)) =
  (length s - 1) / 3.
Proof.
  intros H. rewrite addThousandSeparators_scan.
  destruct s as [|c s]; [reflexivity|].
  simpl in H. apply andb_true_iff in H as [Hc Hs].
  cbn [thousandsScan andb app].
  assert (Cc : isComma c = false) by (clear -Hc; unfold isComma; units).
  change (filter isComma (c :: thousandsScan (isWordChar c) s))
    with (if isComma c
          then c :: filter isComma (thousandsScan (isWordChar c) s)
          else filter isComma (thousandsScan (isWordChar c) s)).
  rewrite Cc, (digit_is_word c Hc), (thousandsScan_digits s Hs).
  change (length (c :: s)) with (S (length s)).
  now rewrite Nat.sub_succ, Nat.sub_0_r.
Qed.

Lemma addThousandSeparators_digits_witness :
  length (filter isComma (convert AddThousandSeparators (str "1234567"))) =
  (length (str "1234567") - 1) / 3.
Proof.
  apply (addThousandSeparators_digits (str "1234567")). reflexivity.
Defined.

(** ** Decimal separators *)

Lemma matchAt_digitSepDigit sep prev s :
  matchAt (reDigitSepDigit sep) prev s =
  match s with
  | a :: b :: c :: r =>
      if isDigit a && (b =? N_of_ascii sep)%N && isDigit c
      then Some r else None
  | _ => None
  end.
Proof.
  unfold matchAt, reDigitSepDigit. rewrite !matchK_cat, matchK_class.
  destruct s as [|a [|b [|c r]]]; simpl; unfold isChar;
    repeat match goal with
           | |- context [isDigit ?x] => destruct (isDigit x)
           | |- context [(?x =? ?y)%N] => destruct (x =? y)%N
           end; reflexivity.
Qed.

Lemma sepScan_3 from to a b c r :
  sepScan from to (a :: b :: c :: r) =
  if isDigit a && (b =? from)%N && isDigit c
  then a :: to :: c :: sepScan from to r
  else a :: sepScan from to (b :: c :: r).
Proof. reflexivity. Qed.

Lemma replaceLoop_digitSepDigit from to fuel prev idx s :
  length s < fuel ->
  replaceLoop fuel (reDigitSepDigit from) (fun m _ => swapSep to m)
    prev idx s =
  sepScan (N_of_ascii from) (N_of_ascii to) s.
Proof.
  revert prev idx s; induction fuel as [|fuel IH]; intros prev idx s Hl;
    [lia|].
  rewrite replaceLoop_S, matchAt_digitSepDigit.
  destruct s as [|a [|b [|c r]]].
  - reflexivity.
  - simpl in Hl. rewrite IH by (simpl; lia). reflexivity.
  - simpl in Hl. rewrite IH by (simpl; lia). reflexivity.
  - simpl in Hl. rewrite sepScan_3.
    destruct (isDigit a && (b =? N_of_ascii from)%N && isDigit c).
    + destruct (length (a :: b :: c :: r) - length r) eqn:En;
        [cbn [length] in En; lia|].
      assert (n = 2) by (cbn [length] in En; lia). subst n.
      cbv beta iota zeta. rewrite IH by lia. reflexivity.
    + rewrite IH by (simpl; lia). reflexivity.
Qed.

Lemma commaToPeriod_scan s : commaToPeriod s = sepScan 44%N 46%N s.
Proof. apply (replaceLoop_digitSepDigit "," "." (S (length s)) None 0). lia. Qed.

Lemma periodToComma_scan s : periodToComma s = sepScan 46%N 44%N s.
Proof. apply (replaceLoop_digitSepDigit "." "," (S (length s)) None 0). lia. Qed.

Lemma sepScan_shape from to n : forall s,
  length s <= n ->
  length (sepScan from to s) = length s /\
  hd_error (sepScan from to s) = hd_error s.
Proof.
  induction n as [|n IH]; intros s Hl.
  - destruct s; [now split | simpl in Hl; lia].
  - destruct s as [|a [|b [|c r]]]; try (now split).
    rewrite sepScan_3.
    destruct (isDigit a && (b =? from)%N && isDigit c).
    + split; [|reflexivity]. cbn [length].
      destruct (IH r) as [-> _]; [simpl in Hl; lia | reflexivity].
    + split; [|reflexivity]. cbn [length].
      destruct (IH (b :: c :: r)) as [-> _]; [simpl in *; lia | reflexivity].
Qed.

Lemma sepScan_no_start from to a u :
  match u with b :: _ => b <> from | [] => True end ->
  sepScan from to (a :: u) = a :: sepScan from to u.
Proof.
  destruct u as [|b [|c r]]; try reflexivity.
  intros H. rewrite sepScan_3.
  apply N.eqb_neq in H. rewrite H. now rewrite andb_false_r.
Qed.

Lemma sepScan_round_trip from to n : forall s,
  length s <= n ->
  forallb (fun c => negb (c =? to)%N) s = true ->
  sepScan to from (sepScan from to s) = s.
Proof.
  induction n as [|n IH]; intros s Hl Hf.
  - destruct s; [reflexivity | simpl in Hl; lia].
  - destruct s as [|a [|b [|c r]]]; try reflexivity.
    rewrite sepScan_3.
    cbn [forallb] in Hf.
    apply andb_true_iff in Hf as [Ha Hf]. pose proof Hf as Hbcr.
    apply andb_true_iff in Hf as [Hb Hf].
    apply andb_true_iff in Hf as [Hc Hr].
    destruct (isDigit a && (b =? from)%N && isDigit c) eqn:M.
    + rewrite sepScan_3, N.eqb_refl.
      apply andb_true_iff in M as [M Dc].
      apply andb_true_iff in M as [Da Eb]. apply N.eqb_eq in Eb.
      rewrite Da, Dc. simpl andb. cbv iota.
      rewrite IH by (try assumption; simpl in Hl; lia). now subst b.
    + assert (Hs : match sepScan from to (b :: c :: r) with
                   | x :: _ => x <> to
                   | [] => True
                   end).
      { destruct (sepScan_shape from to (length (b :: c :: r)) (b :: c :: r)
                    (le_n _)) as [_ Hh].
        destruct (sepScan from to (b :: c :: r)) as [|x u]; [exact I|].
        simpl in Hh. injection Hh as ->.
        apply negb_true_iff, N.eqb_neq in Hb. exact Hb. }
      etransitivity; [exact (sepScan_no_start to from a _ Hs)|].
      f_equal. apply IH; [simpl in Hl; simpl; lia | exact Hbcr].
Qed.

(** commaToPeriod and periodToComma keep the length of the text, and each
    undoes the other on a text that has none of the separator the other
    one looks for: periodToComma after commaToPeriod gives back a text
    without "." and commaToPeriod after periodToComma gives back a text
    without ",". *)
Theorem decimal_separators_round_trip (s : jsstring) :
  length (convert CommaToPeriod s) = length s /\
  length (convert PeriodToComma s) = length s /\
  (forallb (fun c => negb (isChar "." c)) s = true ->
   convert PeriodToComma (convert CommaToPeriod s) = s) /\
  (forallb (fun c => negb (isChar "," c)) s = true ->
   convert CommaToPeriod (convert PeriodToComma s) = s).
Proof.
  simpl convert. rewrite !commaToPeriod_scan, !periodToComma_scan.
  repeat split.
  - now apply (sepScan_shape 44%N 46%N (length s)).
  - now apply (sepScan_shape 46%N 44%N (length s)).
  - intros H. now apply (sepScan_round_trip 44%N 46%N (length s)).
  - intros H. now apply (sepScan_round_trip 46%N 44%N (length s)).
Qed.

Lemma decimal_separators_round_trip_witness :
  convert PeriodToComma (convert CommaToPeriod (str "1,5 and 2,25")) =
    str "1,5 and 2,25" /\
  convert CommaToPeriod (convert PeriodToComma (str "3.14")) = str "3.14".
Proof.
  split.
  - apply (proj1 (proj2 (proj2
             (decimal_separators_round_trip (str "1,5 and 2,25"))))).
    reflexivity.
  - apply (proj2 (proj2 (proj2 (decimal_separators_round_trip (str "3.14"))))).
    reflexivity.
Defined.

(** * Further properties of the application state *)

(** ** The statistics line *)

Lemma splitOnUnit_length sep s :
  length (AppStats.splitOnUnit sep s) =
  S (length (filter (fun c => (c =? sep)%N) s)).
Proof.
  induction s as [|c s IH]; [reflexivity|]. simpl.
  destruct (c =? sep)%N; simpl; [now rewrite IH|].
  destruct (AppStats.splitOnUnit sep s); simpl in *; lia.
Qed.

(** The statistics under the input box: the line count is the number of
    line feeds plus one (1 for the empty text), the word count is the
    word count of the analysis panel for every text, and the character
    count is the number of code units, which the analysis panel shows
    too unless the text is white space only (there it shows 0). *)
Theorem stats_line (inputText : jsstring) :
  let st := AppStats.computeStats inputText in
  AppStats.lines st =
    S (length (filter (fun c => (c =? 10)%N) inputText)) /\
  AppStats.words st = words (analysis inputText) /\
  AppStats.words st = length (tokens inputText) /\
  AppStats.characters st = length inputText /\
  characters (analysis inputText) =
    if existsb isNonSpace inputText then AppStats.characters st else 0.
Proof.
  simpl. repeat split.
  - apply splitOnUnit_length.
  - rewrite words_analysis, truthy_trim.
    now destruct (existsb isNonSpace inputText).
  - rewrite <- tokens_trim, <- words_tokens_trim, words_analysis, truthy_trim.
    now destruct (existsb isNonSpace inputText).
  - apply characters_analysis.
Qed.

(** ** The entries of the history *)

Lemma created_nonblank evs : forall st e,
  In e (created st evs) -> existsb isNonSpace (input e) = true.
Proof.
  induction evs as [|ev evs IH]; intros st e; simpl; [contradiction|].
  rewrite in_app_iff. intros [H | H]; [|now apply (IH (step st ev) e)].
  destruct ev as [v|ty f env|]; try contradiction.
  destruct (truthy (trim (inputText st))) eqn:E; [|contradiction].
  destruct H as [<- | []]. simpl. now rewrite <- truthy_trim.
Qed.

Lemma firstn_In {A} (l : list A) n x : In x (firstn n l) -> In x l.
Proof.
  revert n; induction l as [|a l IH]; intros n H.
  - now rewrite firstn_nil in H.
  - destruct n as [|n]; [now rewrite firstn_O in H|].
    rewrite firstn_cons in H. destruct H as [H | H]; [now left|].
    right. eauto.
Qed.

(** Every entry of the history, after any run of the application, was
    made from an input with a code unit outside the white space. *)
Theorem history_inputs_nonblank (evs : list event) :
  Forall (fun e => existsb isNonSpace (input e) = true)
    (conversionHistory (run initial evs)).
Proof.
  apply Forall_forall. intros e.
  rewrite run_history by (simpl; lia). simpl conversionHistory.
  rewrite app_nil_r. intros H. apply firstn_In, in_rev in H.
  now apply (created_nonblank evs initial).
Qed.

Lemma created_ids evs : forall st,
  StronglySorted N.le (clockReadings evs) ->
  StronglySorted N.le (map id (created st evs)) /\
  (forall n, In n (map id (created st evs)) -> In n (clockReadings evs)).
Proof.
  induction evs as [|ev evs IH]; intros st S; simpl;
    [split; [constructor | tauto]|].
  destruct ev as [v|ty f env|]; simpl in *; try (now apply IH).
  apply StronglySorted_inv in S as [S F].
  destruct (IH (handleConversion ty f env st) S) as [I1 I2].
  destruct (truthy (trim (inputText st))); simpl.
  - split.
    + constructor; [exact I1|]. rewrite Forall_forall in *.
      intros n Hn. apply F, I2, Hn.
    + intros n [<- | Hn]; [now left | right; now apply I2].
  - split; [exact I1|]. intros n Hn. right. now apply I2.
Qed.

Lemma StronglySorted_rev {A} (R : A -> A -> Prop) l :
  StronglySorted R l -> StronglySorted (fun a b => R b a) (rev l).
Proof.
  induction l as [|x l IH]; intros S; simpl; [constructor|].
  apply StronglySorted_inv in S as [S F].
  apply StronglySorted_app; [now apply IH | repeat constructor|].
  intros a b Ha [<- | []]. rewrite Forall_forall in F.
  apply F. now apply in_rev.
Qed.

Lemma StronglySorted_firstn {A} (R : A -> A -> Prop) l n :
  StronglySorted R l -> StronglySorted R (firstn n l).
Proof.
  revert n; induction l as [|x l IH]; intros n S.
  - rewrite firstn_nil. constructor.
  - destruct n as [|n]; [rewrite firstn_O; constructor|].
    apply StronglySorted_inv in S as [S F]. rewrite firstn_cons.
    constructor; [now apply IH|].
    rewrite Forall_forall in *. intros b Hb. now apply F, (firstn_In l n).
Qed.

(** When the clock never goes back between conversions, the ids of the
    history are in descending order (not strictly: two conversions in the
    same millisecond get the same id). *)
Theorem history_ids_descending (evs : list event) :
  StronglySorted N.le (clockReadings evs) ->
  StronglySorted (fun a b => (id b <= id a)%N)
    (conversionHistory (run initial evs)).
Proof.
  intros S. rewrite run_history by (simpl; lia). simpl conversionHistory.
  rewrite app_nil_r. apply StronglySorted_firstn.
  apply (StronglySorted_rev (fun a b => (id a <= id b)%N)).
  apply StronglySorted_map. now apply (created_ids evs initial).
Qed.

Lemma history_ids_descending_witness :
  StronglySorted (fun a b => (id b <= id a)%N)
    (conversionHistory
       (run initial
          [Change (str "ab");
           Conversion (str "upperCase") upperCase
             {| now := 7; localeTimeString := [] |};
           Conversion (str "lowerCase") lowerCase
             {| now := 7; localeTimeString := [] |}])).
Proof.
  apply history_ids_descending. simpl.
  repeat constructor. reflexivity.
Defined.

(** ** Keyboard shortcuts *)

Lemma conversionKey_listed k a :
  Shortcuts.conversionKey k = Some a ->
  exists id, In (a, id) Shortcuts.shortcutConversions.
Proof.
  unfold Shortcuts.conversionKey.
  repeat match goal with
         | |- context [eqs k ?x] => destruct (eqs k x)
         end;
    intros [= <-]; unfold Shortcuts.shortcutConversions;
    eexists; simpl; eauto 10.
Qed.

Lemma shortcutConversions_dispatch a id env st :
  In (a, id) Shortcuts.shortcutConversions ->
  Shortcuts.handleShortcutAction a env st =
  Some (handleConversion a (convert id) env st, Shortcuts.NoEffect).
Proof.
  unfold Shortcuts.shortcutConversions. simpl.
  intros H.
  repeat (destruct H as [[= <- <-] | H]; [reflexivity|]).
  contradiction.
Qed.

(** A key pressed in a text area or an input field does nothing.  Any
    other key press calls [onConversion] at most once, and what it passes
    is always handled by [handleShortcutAction]: it is "copy",
    "download" or "clear", or it is the key of one of the eight
    conversions with a shortcut, and then the state after it is the state
    after [handleConversion] with the conversion of that name. *)
Theorem shortcuts_dispatch (showShortcuts : bool) (e : Shortcuts.keyEvent) :
  let r := Shortcuts.handleKeyDown showShortcuts e in
  (eqs (Shortcuts.targetTagName e) (str "TEXTAREA")
   || eqs (Shortcuts.targetTagName e) (str "INPUT") = true ->
   r = {| Shortcuts.prevented := false; Shortcuts.calls := [];
          Shortcuts.showShortcuts := showShortcuts |}) /\
  length (Shortcuts.calls r) <= 1 /\
  forall a, In a (Shortcuts.calls r) ->
    In a [str "copy"; str "download"; str "clear"] \/
    exists id,
      In (a, id) Shortcuts.shortcutConversions /\
      forall env st,
        Shortcuts.handleShortcutAction a env st =
        Some (handleConversion a (convert id) env st, Shortcuts.NoEffect).
Proof.
  unfold Shortcuts.handleKeyDown.
  destruct (eqs (Shortcuts.targetTagName e) (str "TEXTAREA")
            || eqs (Shortcuts.targetTagName e) (str "INPUT")) eqn:T.
  { simpl. repeat split; [lia | contradiction]. }
  destruct (eqs (Shortcuts.key e) (str "?") && negb (Shortcuts.ctrlKey e)
            && negb (Shortcuts.shiftKey e)).
  { simpl. repeat split; [discriminate | lia | contradiction]. }
  cbn [Shortcuts.calls].
  split; [discriminate|].
  destruct (Shortcuts.ctrlKey e), (Shortcuts.shiftKey e); simpl andb;
    cbv iota.
  - (* ctrl and shift *)
    split.
    + unfold Shortcuts.actionKey.
      repeat match goal with
             | |- context [eqs ?k ?x] => destruct (eqs k x)
             end; simpl; lia.
    + intros a Ha. left. simpl in Ha. unfold Shortcuts.actionKey in Ha.
      repeat match type of Ha with
             | context [eqs ?k ?x] => destruct (eqs k x)
             end; simpl in Ha; try contradiction;
        destruct Ha as [<- | []]; simpl; auto.
  - (* ctrl alone *)
    rewrite app_nil_r.
    destruct (Shortcuts.conversionKey (toLowerCase (Shortcuts.key e)))
      as [a0|] eqn:C; simpl.
    + split; [lia|]. intros a [<- | []]. right.
      destruct (conversionKey_listed _ _ C) as [id Hid].
      exists id. split; [exact Hid|]. intros env st.
      now apply shortcutConversions_dispatch.
    + split; [lia | contradiction].
  - simpl. split; [lia | contradiction].
  - simpl. split; [lia | contradiction].
Qed.

Lemma shortcuts_dispatch_witness :
  Shortcuts.handleKeyDown true
    {| Shortcuts.targetTagName := str "TEXTAREA"; Shortcuts.key := str "u";
       Shortcuts.ctrlKey := true; Shortcuts.shiftKey := false |} =
  {| Shortcuts.prevented := false; Shortcuts.calls := [];
     Shortcuts.showShortcuts := true |}.
Proof.
  apply (proj1 (shortcuts_dispatch true
    {| Shortcuts.targetTagName := str "TEXTAREA"; Shortcuts.key := str "u";
       Shortcuts.ctrlKey := true; Shortcuts.shiftKey := false |})).
  reflexivity.
Defined.

(** * Further properties of the analysis *)

(** ** Blank texts *)

Lemma blank_iff text :
  existsb isNonSpace text = negb (forallb isWhiteSpace text).
Proof. apply existsb_nonSpace. Qed.

(** For an empty or white-space-only text the report is the all-zero
    report, and those are the only texts with a word count of 0. *)
Theorem analysis_blank_text (text : jsstring) :
  (words (analysis text) =? 0) = forallb isWhiteSpace text /\
  (forallb isWhiteSpace text = true -> analysis text = emptyReport).
Proof.
  split.
  - destruct (forallb isWhiteSpace text) eqn:B.
    + rewrite analysis_blank by (rewrite blank_iff, B; reflexivity).
      reflexivity.
    + apply Nat.eqb_neq.
      pose proof (words_positive text) as W.
      rewrite blank_iff, B in W. specialize (W eq_refl). lia.
  - intros B. apply analysis_blank. now rewrite blank_iff, B.
Qed.

Lemma analysis_blank_text_witness :
  analysis (str "  ") = emptyReport.
Proof.
  apply (proj2 (analysis_blank_text (str "  "))). reflexivity.
Defined.

(** ** Characters without spaces *)

Lemma charactersNoSpaces_analysis text :
  charactersNoSpaces (analysis text) =
  if existsb isNonSpace text
  then length (replaceAllWith reSpace [] text) else 0.
Proof.
  unfold analysis. rewrite guard_blank.
  now destruct (existsb isNonSpace text).
Qed.

Lemma filter_nonSpace_blank s :
  existsb isNonSpace s = false -> filter isNonSpace s = [].
Proof.
  induction s as [|c s IH]; [reflexivity|]. simpl.
  destruct (isNonSpace c); simpl; [discriminate | exact IH].
Qed.

(** [charactersNoSpaces] is the number of code units outside the white
    space, for every text; it never exceeds [characters], and it is 0
    only for the empty and the white-space-only texts. *)
Theorem charactersNoSpaces_count (text : jsstring) :
  charactersNoSpaces (analysis text) = length (filter isNonSpace text) /\
  charactersNoSpaces (analysis text) <= characters (analysis text) /\
  (charactersNoSpaces (analysis text) =? 0) = forallb isWhiteSpace text.
Proof.
  assert (E : charactersNoSpaces (analysis text) =
              length (filter isNonSpace text)).
  { rewrite charactersNoSpaces_analysis.
    destruct (existsb isNonSpace text) eqn:B.
    - unfold reSpace. now rewrite replaceAllWith_class_nil.
    - now rewrite filter_nonSpace_blank. }
  repeat split; [exact E | |].
  - rewrite E, characters_analysis.
    destruct (existsb isNonSpace text) eqn:B.
    + apply filter_length_le.
    + now rewrite filter_nonSpace_blank.
  - rewrite E. rewrite <- (negb_involutive (forallb isWhiteSpace text)).
    rewrite <- blank_iff.
    destruct (existsb isNonSpace text) eqn:B.
    + apply existsb_exists in B as (c & Hc & Hn).
      assert (In c (filter isNonSpace text)) by now apply filter_In.
      destruct (filter isNonSpace text); [contradiction | reflexivity].
    + now rewrite filter_nonSpace_blank.
Qed.

(** ** Texts without a sentence *)

Lemma runs_covers p c : forall s b,
  In c s -> p c = false -> exists seg, In seg (runs p b s) /\ In c seg.
Proof.
  induction s as [|x s IH]; intros b Hc Hp; [contradiction|].
  simpl. destruct Hc as [-> | Hc].
  - rewrite Hp. pose proof (runs_not_nil p false s) as N.
    destruct (runs p false s) as [|h t]; [contradiction|].
    exists (c :: h). split; now left.
  - destruct (p x).
    + destruct (IH true Hc Hp) as (seg & H1 & H2).
      exists seg. split; [|exact H2]. destruct b; [exact H1 | now right].
    + destruct (IH false Hc Hp) as (seg & H1 & H2).
      destruct (runs p false s) as [|h t]; [contradiction|].
      destruct H1 as [<- | H1].
      * exists (x :: h). split; [now left | now right].
      * exists seg. split; [now right | exact H2].
Qed.

Lemma filter_nil_iff {A} (f : A -> bool) l :
  (length (filter f l) =? 0) = negb (existsb f l).
Proof.
  induction l as [|a l IH]; [reflexivity|]. simpl.
  destruct (f a); [reflexivity | exact IH].
Qed.

Lemma averageWordsPerSentence_analysis text :
  sentences (analysis text) = 0 ->
  averageWordsPerSentence (analysis text) = ofNat 0.
Proof.
  unfold analysis. rewrite guard_blank.
  destruct (existsb isNonSpace text); [|reflexivity].
  simpl negb. cbv iota. cbn [sentences averageWordsPerSentence].
  intros H. now rewrite H.
Qed.

(** [sentences] is 0 exactly for the texts made of white space and
    ".", "!", "?" only (though such a text can have words), and for
    these [averageWordsPerSentence] is 0: no division by zero. *)
Theorem sentences_zero (text : jsstring) :
  (sentences (analysis text) =? 0) =
    forallb (fun c => isWhiteSpace c || isTerminator c) text /\
  (forallb (fun c => isWhiteSpace c || isTerminator c) text = true ->
   averageWordsPerSentence (analysis text) = ofNat 0).
Proof.
  assert (E : (sentences (analysis text) =? 0) =
              forallb (fun c => isWhiteSpace c || isTerminator c) text).
  { rewrite sentences_segments, filter_nil_iff.
    destruct (forallb (fun c => isWhiteSpace c || isTerminator c) text) eqn:F.
    - apply negb_true_iff.
      destruct (existsb hasNonSpace (runs isTerminator false text)) eqn:X;
        [|reflexivity].
      apply existsb_exists in X as (seg & Hs & Hn).
      apply existsb_exists in Hn as (c & Hc & Hn).
      pose proof (runs_units _ _ _ _ _ Hs Hc) as U.
      pose proof (runs_outside _ _ _ _ _ Hs Hc) as O.
      rewrite forallb_forall in F. specialize (F c U).
      unfold isNonSpace in Hn. apply negb_true_iff in Hn.
      rewrite Hn, O in F. discriminate.
    - apply negb_false_iff.
      assert (X : exists c, In c text /\
                   (isWhiteSpace c || isTerminator c) = false).
      { clear -F. induction text as [|c t IH]; [discriminate|].
        simpl in F. destruct (isWhiteSpace c || isTerminator c) eqn:G.
        - destruct (IH F) as (d & Hd & Hg). exists d. split; [now right|].
          exact Hg.
        - exists c. split; [now left | exact G]. }
      destruct X as (c & Hc & Hg). apply orb_false_iff in Hg as [Hw Ht].
      destruct (runs_covers isTerminator c text false Hc Ht)
        as (seg & Hs & Hin).
      apply existsb_exists. exists seg. split; [exact Hs|].
      apply existsb_exists. exists c. split; [exact Hin|].
      unfold isNonSpace. now rewrite Hw. }
  split; [exact E|]. intros F. apply averageWordsPerSentence_analysis.
  rewrite F in E. now apply Nat.eqb_eq.
Qed.

Lemma sentences_zero_witness :
  averageWordsPerSentence (analysis (str "?!")) = ofNat 0.
Proof.
  apply (proj2 (sentences_zero (str "?!"))). reflexivity.
Defined.

(** ** The readability badge *)

(** The badge of a whole score from 0 to 100 is the band of that score,
    and the report of an empty or white-space-only text, whose score is
    0, gets the badge "Very Difficult". *)
Theorem readability_badge (n : nat) (text : jsstring) :
  (n <= 100 ->
   Panel.level (Panel.getReadabilityLevel (ofNat n)) = levelOfScore n) /\
  (forallb isWhiteSpace text = true ->
   Panel.getReadabilityLevel (readabilityScore (analysis text)) =
   {| Panel.level := str "Very Difficult";
      Panel.color := str "bg-red-500" |}).
Proof.
  split.
  - intros H.
    assert (C : forallb
                  (fun k => eqs (Panel.level
                                   (Panel.getReadabilityLevel (ofNat k)))
                              (levelOfScore k)) (seq 0 101) = true)
      by (vm_compute; reflexivity).
    rewrite forallb_forall in C. apply eqs_eq, C, in_seq. lia.
  - intros B. rewrite analysis_blank by (rewrite blank_iff, B; reflexivity).
    reflexivity.
Qed.

Lemma readability_badge_witness :
  Panel.level (Panel.getReadabilityLevel (ofNat 91)) = levelOfScore 91 /\
  Panel.getReadabilityLevel (readabilityScore (analysis (str " "))) =
   {| Panel.level := str "Very Difficult";
      Panel.color := str "bg-red-500" |}.
Proof.
  split.
  - apply (proj1 (readability_badge 91 [])). lia.
  - apply (proj2 (readability_badge 0 (str " "))). reflexivity.
Defined.

(** ** Paragraphs *)

Lemma greedy_prefix p (k : cont) : forall s prev e,
  greedy p k prev s = Some e ->
  exists a b q, s = a ++ b /\ forallb p a = true /\ k q b = Some e.
Proof.
  induction s as [|c s IH]; intros prev e H; simpl in H.
  - exists [], [], prev. auto.
  - destruct (p c) eqn:E.
    + destruct (greedy p k (Some c) s) as [e'|] eqn:G.
      * injection H as <-. destruct (IH _ _ G) as (a & b & q & -> & Ha & Hk).
        exists (c :: a), b, q. simpl. rewrite E. auto.
      * exists [], (c :: s), prev. auto.
    + exists [], (c :: s), prev. auto.
Qed.

Lemma matchAt_blankLine_head prev s :
  match s with c :: _ => isNewline c = false | [] => True end ->
  matchAt reBlankLine prev s = None.
Proof.
  unfold matchAt, reBlankLine. rewrite matchK_cat, matchK_class.
  destruct s as [|c s]; [reflexivity|]. now intros ->.
Qed.

Lemma newline_is_space c : isNewline c = true -> isWhiteSpace c = true.
Proof. intros H. apply N.eqb_eq in H. now subst c. Qed.

Lemma matchAt_blankLine_spaces prev s rest :
  matchAt reBlankLine prev s = Some rest ->
  exists m, s = m ++ rest /\ m <> [] /\ forallb isWhiteSpace m = true.
Proof.
  unfold matchAt, reBlankLine. rewrite !matchK_cat, matchK_class.
  destruct s as [|c s]; [discriminate|].
  destruct (isNewline c) eqn:Nc; [|discriminate].
  rewrite matchK_cat, matchK_star_class. intros H.
  apply greedy_prefix in H as (a & b & q & -> & Ha & Hk).
  rewrite matchK_class in Hk. destruct b as [|n b]; [discriminate|].
  destruct (isNewline n) eqn:Nn; [|discriminate]. injection Hk as <-.
  exists (c :: a ++ [n]). repeat split.
  - simpl. now rewrite <- app_assoc.
  - discriminate.
  - simpl. rewrite (newline_is_space c Nc), forallb_app, Ha. simpl.
    now rewrite (newline_is_space n Nn).
Qed.

Section SplitCovers.

Variable r : regex.
Hypothesis separators_blank : forall prev s rest,
  matchAt r prev s = Some rest ->
  exists m, s = m ++ rest /\ m <> [] /\ forallb isWhiteSpace m = true.

(** When the separators are white space, every other code unit of the
    text is in a piece. *)
Lemma splitLoop_covers c : forall fuel prev seg s,
  length s < fuel -> In c (seg ++ s) -> isWhiteSpace c = false ->
  exists piece, In piece (splitLoop fuel r prev seg s) /\ In c piece.
Proof.
  induction fuel as [|fuel IH]; intros prev seg s Hl Hc Hw; [lia|].
  rewrite splitLoop_S. destruct s as [|x s].
  - rewrite app_nil_r in Hc. exists seg. split; [now left | exact Hc].
  - simpl in Hl. destruct (matchAt r prev (x :: s)) as [rest|] eqn:M.
    + destruct (separators_blank _ _ _ M) as (m & Es & Nm & Bm).
      assert (Lm : length (x :: s) - length rest = length m).
      { rewrite Es, length_app. lia. }
      rewrite Lm. destruct m as [|y m]; [contradiction|]. cbn [length].
      assert (Lr : length rest < fuel).
      { apply (f_equal (@length _)) in Es. rewrite length_app in Es.
        simpl in Es. lia. }
      rewrite Es in Hc. rewrite !in_app_iff in Hc.
      destruct Hc as [Hc | [Hc | Hc]].
      * exists seg. split; [now left | exact Hc].
      * rewrite forallb_forall in Bm. rewrite (Bm c Hc) in Hw. discriminate.
      * destruct (IH (Some (last (firstn (S (length m)) (x :: s)) 0%N))
                    [] rest Lr Hc Hw) as (piece & H1 & H2).
        exists piece. split; [now right | exact H2].
    + apply (IH (Some x) (seg ++ [x]) s); [lia | | exact Hw].
      now rewrite <- app_assoc.
Qed.

End SplitCovers.

Lemma splitLoop_blankLine_none fuel : forall prev seg s,
  length s < fuel ->
  forallb (fun c => negb (isNewline c)) s = true ->
  splitLoop fuel reBlankLine prev seg s = [seg ++ s].
Proof.
  induction fuel as [|fuel IH]; intros prev seg s Hl Hn; [lia|].
  rewrite splitLoop_S. destruct s as [|x s]; [now rewrite app_nil_r|].
  simpl in Hn, Hl. apply andb_true_iff in Hn as [Hx Hn].
  apply negb_true_iff in Hx.
  rewrite (matchAt_blankLine_head prev (x :: s) Hx).
  rewrite IH by (try assumption; lia). now rewrite <- app_assoc.
Qed.

Lemma paragraphs_analysis text :
  existsb isNonSpace text = true ->
  paragraphs (analysis text) =
  length (filter nonBlank (split reBlankLine text)).
Proof. intros H. unfold analysis. now rewrite guard_blank, H. Qed.

(** A text with a code unit outside the white space has at least one
    paragraph, and exactly one when it has no line feed. *)
Theorem paragraphs_at_least_one (text : jsstring) :
  existsb isNonSpace text = true ->
  1 <= paragraphs (analysis text) /\
  (forallb (fun c => negb (isNewline c)) text = true ->
   paragraphs (analysis text) = 1).
Proof.
  intros H. rewrite paragraphs_analysis by exact H.
  destruct text as [|x text]; [discriminate|].
  unfold split. split.
  - pose proof H as H0. apply existsb_exists in H0 as (c & Hc & Hn).
    unfold isNonSpace in Hn. apply negb_true_iff in Hn.
    destruct (splitLoop_covers reBlankLine matchAt_blankLine_spaces c
                (S (length (x :: text))) None [] (x :: text)
                (Nat.lt_succ_diag_r _) Hc Hn) as (piece & H1 & H2).
    assert (F : In piece
                  (filter nonBlank
                     (splitLoop (S (length (x :: text))) reBlankLine None []
                        (x :: text)))).
    { apply filter_In. split; [exact H1|].
      rewrite nonBlank_hasNonSpace. apply existsb_exists. exists c.
      split; [exact H2|]. unfold isNonSpace. now rewrite Hn. }
    destruct (filter nonBlank _); [contradiction | simpl; lia].
  - intros Hn. rewrite splitLoop_blankLine_none by (try assumption; lia).
    simpl app. cbn [filter]. rewrite nonBlank_hasNonSpace.
    unfold hasNonSpace. now rewrite H.
Qed.

Lemma paragraphs_at_least_one_witness :
  1 <= paragraphs (analysis (str "one line")) /\
  paragraphs (analysis (str "one line")) = 1.
Proof.
  destruct (paragraphs_at_least_one (str "one line") eq_refl) as [H1 H2].
  split; [exact H1 | exact (H2 eq_refl)].
Defined.

(** ** Character frequency *)

Lemma fromPrototype_unit c :
  eqs [c] (str "__proto__") = false /\
  existsb (eqs [c]) protoMethods = false.
Proof. split; simpl; now rewrite ?andb_false_r. Qed.

Lemma fold_countChar X : forall o,
  fold_left countChar (splitUnits X) (Some o) =
  Some (fold_left tally (map (fun c => [c]) (filter isLower X)) o).
Proof.
  induction X as [|c X IH]; intros o; [reflexivity|].
  simpl. rewrite orb_false_r. destruct (isLower c).
  - destruct (fromPrototype_unit c) as [H1 H2].
    rewrite (increment_tally o [c] H1 H2). apply IH.
  - apply IH.
Qed.

Lemma lower_is_nonSpace c : isLower c = true -> isNonSpace c = true.
Proof. intros H. units. Qed.

Lemma charFreq_letters text :
  fold_left countChar
    (splitUnits (replaceAllWith reSpace [] (toLowerCase text))) (Some []) =
  Some (fold_left tally (letters text) []).
Proof.
  rewrite fold_countChar. unfold reSpace, letters.
  rewrite replaceAllWith_class_nil, filter_filter. do 3 f_equal.
  apply filter_ext. intros c. destruct (isLower c) eqn:E.
  - pose proof (lower_is_nonSpace c E) as Hn. unfold isNonSpace in Hn.
    now rewrite Hn.
  - apply andb_false_r.
Qed.

Lemma entries_no_index o :
  (forall e, In e o -> isArrayIndex (fst e) = false) -> entries o = o.
Proof.
  intros H. unfold entries.
  assert (F1 : filter (fun e => isArrayIndex (fst e)) o = []).
  { induction o as [|e o IH]; [reflexivity|]. simpl.
    rewrite (H e) by now left. apply IH. intros x Hx. apply H. now right. }
  assert (F2 : filter (fun e => negb (isArrayIndex (fst e))) o = o).
  { induction o as [|e o IH]; [reflexivity|]. simpl.
    rewrite (H e) by now left. simpl. f_equal. apply IH.
    - intros x Hx. apply H. now right.
    - simpl in F1. rewrite (H e) in F1 by now left. exact F1. }
  now rewrite F1, F2.
Qed.

Lemma setOwn_new o k v :
  getOwn o k = None -> setOwn o k v = o ++ [(k, v)].
Proof.
  induction o as [|[x y] o IH]; simpl; [reflexivity|].
  destruct (eqs x k); [discriminate|]. intros H. now rewrite IH.
Qed.

Lemma fold_setOwn l : forall acc,
  NoDup (map fst (acc ++ l)) ->
  fold_left (fun obj e => setOwn obj (fst e) (snd e)) l acc = acc ++ l.
Proof.
  induction l as [|[k v] l IH]; intros acc N; simpl.
  - now rewrite app_nil_r.
  - assert (G : getOwn acc k = None).
    { apply getOwn_None. rewrite map_app in N. simpl in N.
      apply NoDup_remove_2 in N. intros Hk. apply N.
      apply in_or_app. now left. }
    rewrite (setOwn_new acc k v G), IH; rewrite <- app_assoc; [reflexivity|].
    exact N.
Qed.

Lemma NoDup_firstn {A} (l : list A) n : NoDup l -> NoDup (firstn n l).
Proof.
  revert n; induction l as [|a l IH]; intros n N.
  - rewrite firstn_nil. constructor.
  - destruct n as [|n]; [rewrite firstn_O; constructor|].
    rewrite firstn_cons. apply NoDup_cons_iff in N as [Na N].
    constructor; [|now apply IH]. intros H. apply Na.
    now apply (firstn_In l n).
Qed.

Lemma characterFrequency_analysis text :
  characterFrequency (analysis text) =
  if existsb isNonSpace text
  then
    match fold_left countChar
            (splitUnits (replaceAllWith reSpace [] (toLowerCase text)))
            (Some []) with
    | Some o =>
        fold_left (fun obj e => setOwn obj (fst e) (snd e))
          (firstn 5 (sortDesc (entries o))) []
    | None => []
    end
  else [].
Proof.
  unfold analysis. rewrite guard_blank.
  now destruct (existsb isNonSpace text).
Qed.

Lemma letters_blank text :
  existsb isNonSpace text = false -> letters text = [].
Proof.
  intros H. unfold letters.
  rewrite existsb_nonSpace in H. apply negb_false_iff in H.
  rewrite (toLowerCase_plain text (spaces_plain text H)).
  induction text as [|c t IH]; [reflexivity|].
  simpl in H. apply andb_true_iff in H as [Hc Ht]. simpl.
  replace (isLower (lowerUnit c)) with false by (clear -Hc; units).
  now apply IH.
Qed.

Lemma letters_not_index text k :
  In k (letters text) -> isArrayIndex k = false.
Proof.
  unfold letters. intros H. apply in_map_iff in H as (c & <- & Hc).
  apply filter_In in Hc as [_ Hc]. simpl.
  replace (isDigit c) with false by (clear -Hc; units). reflexivity.
Qed.

(** [characterFrequency] is the first 5 entries of the ranking of the
    letters a-z of the lowercased text, each with its number of
    occurrences, by descending count and, among equal counts, in the
    order of first occurrence in the text. *)
Theorem characterFrequency_ranking (text : jsstring) :
  let L := letters text in
  exists ranking,
    characterFrequency (analysis text) = firstn 5 ranking /\
    length (firstn 5 ranking) <= 5 /\
    (forall k n, In (k, n) ranking <-> In k L /\ n = countOf k L) /\
    NoDup (map fst ranking) /\
    StronglySorted (firstSeenBefore L) ranking.
Proof.
  intros L.
  pose proof (counterOf_fold L [] [] counterOf_nil) as C.
  simpl app in C. pose proof C as (N & G & Srt).
  set (o := fold_left tally L []) in *.
  assert (I : forall e, In e o -> isArrayIndex (fst e) = false).
  { intros e He. apply (letters_not_index text).
    apply (counterOf_key L o (fst e) C). now apply in_map. }
  assert (P : Permutation (sortDesc o) o) by apply sortDesc_perm.
  assert (ND : NoDup (map fst (sortDesc o))).
  { apply (Permutation_NoDup (Permutation_sym (Permutation_map fst P)) N). }
  exists (sortDesc o). repeat split.
  - rewrite characterFrequency_analysis.
    destruct (existsb isNonSpace text) eqn:B.
    + rewrite charFreq_letters. fold L. fold o.
      rewrite (entries_no_index o I).
      rewrite fold_setOwn; [reflexivity|]. simpl app.
      rewrite <- firstn_map. now apply NoDup_firstn.
    + unfold o, L. now rewrite (letters_blank text B).
  - rewrite length_firstn. lia.
  - apply countOf_In. intros Z.
    apply (Permutation_in _ P), (In_getOwn _ _ _ N) in H.
    rewrite G, Z in H. discriminate.
  - apply (Permutation_in _ P), (In_getOwn _ _ _ N) in H.
    rewrite G in H. destruct (countOf k L =? 0); congruence.
  - intros [Hw ->]. apply (Permutation_in _ (Permutation_sym P)).
    apply getOwn_In. rewrite G.
    apply countOf_In, Nat.eqb_neq in Hw. now rewrite Hw.
  - exact ND.
  - apply (sortDesc_ranked
             (fun a b => firstIndex (fst a) L < firstIndex (fst b) L)).
    apply StronglySorted_map in Srt. exact Srt.
Qed.

(** * Properties of the file upload *)

Lemma processFile_fold l : forall acc,
  map Upload.content (fold_left Upload.processFile l acc) =
  map Upload.content acc
  ++ flat_map (fun fr => Shortcuts.toList (Upload.text (snd fr))) l.
Proof.
  induction l as [|fr l IH]; intros acc; simpl.
  - now rewrite app_nil_r.
  - rewrite IH. unfold Upload.processFile.
    destruct (Upload.text (snd fr)); simpl; [|reflexivity].
    now rewrite map_app, <- app_assoc.
Qed.

Lemma flat_map_filter {A B} (f : A -> bool) (g : A -> list B) l :
  flat_map g (filter f l) = flat_map (fun x => if f x then g x else []) l.
Proof.
  induction l as [|x l IH]; [reflexivity|]. simpl.
  destruct (f x); simpl; now rewrite IH.
Qed.

(** [handleFiles] alerts exactly when no file of the batch is a text
    file (by type or by extension), and then stores and loads nothing.
    Otherwise it appends to the stored files, in order, one entry for
    each text file whose read succeeded, with the text read as content,
    and it loads the first of these texts into the editor, if any. *)
Theorem handleFiles_text_files (files : list (Upload.file * Upload.reading))
  (prev : list Upload.fileData) :
  let r := Upload.handleFiles files prev in
  let texts :=
    flat_map (fun fr => if Upload.isTextFile (fst fr)
                        then Shortcuts.toList (Upload.text (snd fr))
                        else []) files in
  Upload.alerted r = negb (existsb (fun fr => Upload.isTextFile (fst fr)) files) /\
  (Upload.alerted r = true ->
   Upload.uploadedFiles r = prev /\ Upload.loaded r = None) /\
  exists new,
    Upload.uploadedFiles r = prev ++ new /\
    map Upload.content new = texts /\
    Upload.loaded r = hd_error texts.
Proof.
  intros r texts. unfold r, Upload.handleFiles.
  rewrite filter_nil_iff.
  destruct (existsb (fun fr => Upload.isTextFile (fst fr)) files) eqn:E;
    simpl negb; cbv iota.
  - cbn [Upload.alerted Upload.uploadedFiles Upload.loaded].
    repeat split; try discriminate.
    exists (fold_left Upload.processFile
              (filter (fun fr => Upload.isTextFile (fst fr)) files) []).
    assert (M : map Upload.content
                  (fold_left Upload.processFile
                     (filter (fun fr => Upload.isTextFile (fst fr)) files) [])
                = texts).
    { rewrite processFile_fold. simpl. apply flat_map_filter. }
    repeat split; [exact M|].
    rewrite <- M.
    now destruct (fold_left Upload.processFile
                    (filter (fun fr => Upload.isTextFile (fst fr)) files) []).
  - cbn [Upload.alerted Upload.uploadedFiles Upload.loaded].
    assert (T : texts = []).
    { unfold texts. clear -E. induction files as [|fr l IH]; [reflexivity|].
      simpl in *. apply orb_false_iff in E as [-> E]. now apply IH. }
    repeat split.
    exists []. rewrite app_nil_r, T. now repeat split.
Qed.

Lemma handleFiles_text_files_witness :
  Upload.uploadedFiles
    (Upload.handleFiles
       [({| Upload.fileName := str "a.png"; Upload.fileType := str "image/png";
            Upload.fileSize := 3 |},
         {| Upload.text := Some (str "x"); Upload.now := 1;
            Upload.random := ofNat 0; Upload.localeTimeString := [] |})] [])
  = [] /\
  Upload.loaded
    (Upload.handleFiles
       [({| Upload.fileName := str "a.png"; Upload.fileType := str "image/png";
            Upload.fileSize := 3 |},
         {| Upload.text := Some (str "x"); Upload.now := 1;
            Upload.random := ofNat 0; Upload.localeTimeString := [] |})] [])
  = None.
Proof.
  apply (proj1 (proj2 (handleFiles_text_files
    [({| Upload.fileName := str "a.png"; Upload.fileType := str "image/png";
         Upload.fileSize := 3 |},
      {| Upload.text := Some (str "x"); Upload.now := 1;
         Upload.random := ofNat 0; Upload.localeTimeString := [] |})] []))).
  reflexivity.
Defined.
